(** * Flight-scenario analyzer ([analyze_flight.py]): embedding and properties

    The script reads pipe-delimited X-Plane telemetry, converts every
    orientation sample to a quaternion, computes descriptive statistics and
    plots them, once per named scenario.

    Layout of the development:
    - [Py]: exceptions as values, the error monad and the string operations
      the parser uses ([str.strip], [in], [str.split], [readlines]);
    - [Num]: the arithmetic the analyzer needs, with two instances: IEEE
      binary64 (the arithmetic the script runs on) and the real numbers
      (exact arithmetic, where [sin] and [cos] have a specification);
    - [Binary64]: a double as the real number it stands for, and what it
      means for a computation on doubles to follow one on real numbers;
    - [Rotation]: [scipy.spatial.transform.Rotation.from_euler] and [as_quat];
    - [Np]: the numpy reductions used for the statistics;
    - [Analyzer]: [FlightScenarioAnalyzer.analyze_scenario];
    - [Parser]: [FlightScenarioAnalyzer.read_xplane_data];
    - [Driver]: [main];
    - [Fixtures], [Spec], [Closed]: concrete inputs, the vocabulary of the
      specification, and the analysis of a non-empty table in closed form;
    - [Plot]: [FlightScenarioAnalyzer.plot_scenario], as the figure that
      matplotlib is asked to draw;
    - [Dict], [Repr], [Cases]: reading a dictionary, the text [repr] leaves
      alone, and more concrete inputs;
    - then the lemmas and the theorems about them.

    Python's built-ins, numpy, pandas and scipy are not part of the script;
    what the script uses of them is written down here after their
    documentation and reference implementations.  [float], the C library's
    [sin] and [cos], the formatting of a float and the writing of an image
    are taken as parameters. *)

From Stdlib Require Import ZArith List String Ascii Bool Lia Lra.
From Stdlib Require Import Reals.
From Stdlib Require Import Floats Uint63.
From Stdlib Require Import DecimalString.
Import ListNotations.

Set Warnings "-inexact-float".

(* ================================================================== *)
(** * Python: exceptions, results, strings *)
(* ================================================================== *)

Module Py.

(** The exception classes that can reach the [try] of [main].  All of them
    derive from [Exception]; [FileNotFoundError] is the one [main] tells
    apart. *)
Inductive exn : Type :=
| FileNotFoundError (msg : string)
| OSError (msg : string)
| ValueError (msg : string)
| IndexError (msg : string)
| TypeError (msg : string)
| RuntimeError (msg : string).

(** [str(e)] *)
Definition str_exn (e : exn) : string :=
  match e with
  | FileNotFoundError m | OSError m | ValueError m
  | IndexError m | TypeError m | RuntimeError m => m
  end.

Definition is_FileNotFoundError (e : exn) : bool :=
  match e with FileNotFoundError _ => true | _ => false end.

(** A computation either returns a value or raises. *)
Inductive result (A : Type) : Type :=
| Ok (a : A)
| Raise (e : exn).
Arguments Ok {A} a.
Arguments Raise {A} e.

Definition bind {A B : Type} (m : result A) (k : A -> result B) : result B :=
  match m with
  | Ok a => k a
  | Raise e => Raise e
  end.

(** A comprehension [[f(x) for x in xs]]: elements are evaluated left to
    right and the first exception aborts the whole list. *)
Fixpoint mapM {A B : Type} (f : A -> result B) (xs : list A) : result (list B) :=
  match xs with
  | [] => Ok []
  | x :: xs' =>
      bind (f x) (fun y => bind (mapM f xs') (fun ys => Ok (y :: ys)))
  end.

Local Open Scope string_scope.
Local Open Scope char_scope.

(** Characters are code points below 256.  [str.isspace] holds on exactly
    these of them: TAB, LF, VT, FF, CR, FS, GS, RS, US, SPACE, NEL, NBSP. *)
Definition is_space (c : ascii) : bool :=
  let n := N_of_ascii c in
  ((9 <=? n) && (n <=? 13) || (28 <=? n) && (n <=? 32)
   || (n =? 133) || (n =? 160))%N.

(** [s.lstrip()] *)
Fixpoint lstrip (s : string) : string :=
  match s with
  | EmptyString => EmptyString
  | String c s' => if is_space c then lstrip s' else s
  end.

(** [s.rstrip()] *)
Fixpoint rstrip (s : string) : string :=
  match s with
  | EmptyString => EmptyString
  | String c s' =>
      match rstrip s' with
      | EmptyString => if is_space c then EmptyString else String c EmptyString
      | t => String c t
      end
  end.

(** [s.strip()] *)
Definition strip (s : string) : string := rstrip (lstrip s).

(** Truth value of a string: non-empty. *)
Definition truthy (s : string) : bool :=
  match s with EmptyString => false | _ => true end.

(** [sub in s] *)
Fixpoint contains (sub s : string) : bool :=
  String.prefix sub s ||
  match s with
  | EmptyString => false
  | String _ s' => contains sub s'
  end.

(** [s.split(sep)] for a one-character separator: always at least one
    piece, empty pieces kept. *)
Fixpoint split (sep : ascii) (s : string) : list string :=
  match s with
  | EmptyString => [EmptyString]
  | String c s' =>
      if Ascii.eqb c sep then EmptyString :: split sep s'
      else match split sep s' with
           | [] => [String c EmptyString]
           | f :: fs => String c f :: fs
           end
  end.

(** [sep.join(pieces)] *)
Fixpoint join (sep : string) (pieces : list string) : string :=
  match pieces with
  | [] => EmptyString
  | [p] => p
  | p :: ps => (p ++ sep ++ join sep ps)%string
  end.

Definition LF : ascii := ascii_of_nat 10.
Definition CR : ascii := ascii_of_nat 13.

(** [file.readlines()] on the text of a file opened with [open(path, 'r')]:
    universal newlines turn CR LF and a lone CR into LF, and every line keeps
    its terminating LF (the last line has none when the file does not end in
    a newline). *)
Fixpoint readlines (s : string) : list string :=
  match s with
  | EmptyString => []
  | String c s' =>
      if Ascii.eqb c LF then String LF EmptyString :: readlines s'
      else if Ascii.eqb c CR then
        match s' with
        | String c' s'' =>
            if Ascii.eqb c' LF then String LF EmptyString :: readlines s''
            else String LF EmptyString :: readlines s'
        | EmptyString => [String LF EmptyString]
        end
      else match readlines s' with
           | [] => [String c EmptyString]
           | l :: ls => String c l :: ls
           end
  end.

(** [s.upper()] on ASCII letters (the scenario names are ASCII). *)
Definition upper_char (c : ascii) : ascii :=
  let n := N_of_ascii c in
  if ((97 <=? n) && (n <=? 122))%N then ascii_of_N (n - 32) else c.

Fixpoint upper (s : string) : string :=
  match s with
  | EmptyString => EmptyString
  | String c s' => String (upper_char c) (upper s')
  end.

(** [str(n)] for a non-negative integer. *)
Definition str_nat (n : nat) : string :=
  NilEmpty.string_of_uint (Nat.to_uint n).

End Py.

Notation "x <- m ;; k" := (Py.bind m (fun x => k))
  (at level 61, m at next level, right associativity).

(* ================================================================== *)
(** * Arithmetic *)
(* ================================================================== *)

(** The operations the analyzer performs on numbers.  [of_int] is the
    conversion of a Python [int] (a length, an index, a literal). *)
Class Num (F : Type) : Type := {
  fadd : F -> F -> F;
  fsub : F -> F -> F;
  fmul : F -> F -> F;
  fdiv : F -> F -> F;
  fsqrt : F -> F;
  fabs : F -> F;
  fmax : F -> F -> F;
  fmin : F -> F -> F;
  fsin : F -> F;
  fcos : F -> F;
  fpi : F;
  of_int : Z -> F
}.

(** The C library's [sin] and [cos] on doubles.  Their rounding is not
    fixed by IEEE 754, so the functions are taken as given; what the C
    standard (Annex F) does fix is that a NaN argument gives a NaN. *)
Record Libm : Type := {
  libm_sin : float -> float;
  libm_cos : float -> float;
  libm_sin_nan : libm_sin PrimFloat.nan = PrimFloat.nan;
  libm_cos_nan : libm_cos PrimFloat.nan = PrimFloat.nan
}.

Module F64.

(** [np.maximum] and [np.minimum] on doubles: a NaN operand wins, otherwise
    the comparison decides. *)
Definition maximum (a b : float) : float :=
  if PrimFloat.is_nan a then a
  else if PrimFloat.ltb b a then a else b.

Definition minimum (a b : float) : float :=
  if PrimFloat.is_nan a then a
  else if PrimFloat.ltb a b then a else b.

(** Conversion of an integer below [2^63] to the nearest double. *)
Definition of_Z (z : Z) : float :=
  if (z <? 0)%Z then PrimFloat.opp (PrimFloat.of_uint63 (Uint63.of_Z (- z)))
  else PrimFloat.of_uint63 (Uint63.of_Z z).

(** [math.pi], the double nearest to pi. *)
Definition pi : float := 0x1.921fb54442d18p+1%float.

End F64.

(** Arithmetic on IEEE binary64, the script's own. *)
#[export] Instance float_num (L : Libm) : Num float := {
  fadd := PrimFloat.add;
  fsub := PrimFloat.sub;
  fmul := PrimFloat.mul;
  fdiv := PrimFloat.div;
  fsqrt := PrimFloat.sqrt;
  fabs := PrimFloat.abs;
  fmax := F64.maximum;
  fmin := F64.minimum;
  fsin := libm_sin L;
  fcos := libm_cos L;
  fpi := F64.pi;
  of_int := F64.of_Z
}.

(** Exact arithmetic on the real numbers. *)
#[export] Instance real_num : Num R := {
  fadd := Rplus;
  fsub := Rminus;
  fmul := Rmult;
  fdiv := Rdiv;
  fsqrt := R_sqrt.sqrt;
  fabs := Rabs;
  fmax := Rmax;
  fmin := Rmin;
  fsin := Rtrigo_def.sin;
  fcos := Rtrigo_def.cos;
  fpi := PI;
  of_int := IZR
}.

(* ================================================================== *)
(** * scipy.spatial.transform.Rotation *)
(* ================================================================== *)

Module Rotation.
Section Rotation.
Context {F : Type} {N : Num F}.

(** A rotation is stored as a quaternion with vector part [(qx, qy, qz)]
    and scalar part [qw]. *)
Record quat : Type := mkQuat { qx : F; qy : F; qz : F; qw : F }.

Inductive axis : Type := AxX | AxY | AxZ.

(** [np.deg2rad]: multiplication by [pi / 180]. *)
Definition deg2rad (x : F) : F := fmul x (fdiv fpi (of_int 180)).

(** The rotation by [angle] radians about one coordinate axis. *)
Definition make_elementary_quat (a : axis) (angle : F) : quat :=
  let h := fdiv angle (of_int 2) in
  let s := fsin h in
  let c := fcos h in
  let o := of_int 0 in
  match a with
  | AxX => mkQuat s o o c
  | AxY => mkQuat o s o c
  | AxZ => mkQuat o o s c
  end.

(** Hamilton product [p * q]: the rotation [q] followed by the rotation
    [p], both about the axes of the fixed frame. *)
Definition compose_quat (p q : quat) : quat :=
  let cx := fsub (fmul (qy p) (qz q)) (fmul (qz p) (qy q)) in
  let cy := fsub (fmul (qz p) (qx q)) (fmul (qx p) (qz q)) in
  let cz := fsub (fmul (qx p) (qy q)) (fmul (qy p) (qx q)) in
  mkQuat
    (fadd (fadd (fmul (qw p) (qx q)) (fmul (qw q) (qx p))) cx)
    (fadd (fadd (fmul (qw p) (qy q)) (fmul (qw q) (qy p))) cy)
    (fadd (fadd (fmul (qw p) (qz q)) (fmul (qw q) (qz p))) cz)
    (fsub (fsub (fsub (fmul (qw p) (qw q)) (fmul (qx p) (qx q)))
                (fmul (qy p) (qy q)))
          (fmul (qz p) (qz q))).

(** Letters of a sequence: upper case names the axes of the rotating body
    (intrinsic rotations), lower case the axes of the fixed frame
    (extrinsic rotations). *)
Definition axis_of_upper (c : ascii) : option axis :=
  match c with
  | "X"%char => Some AxX | "Y"%char => Some AxY | "Z"%char => Some AxZ
  | _ => None
  end.

Definition axis_of_lower (c : ascii) : option axis :=
  match c with
  | "x"%char => Some AxX | "y"%char => Some AxY | "z"%char => Some AxZ
  | _ => None
  end.

Fixpoint axes_of (f : ascii -> option axis) (s : string) : option (list axis) :=
  match s with
  | EmptyString => Some []
  | String c s' =>
      match f c, axes_of f s' with
      | Some a, Some l => Some (a :: l)
      | _, _ => None
      end
  end.

Definition axis_eqb (a b : axis) : bool :=
  match a, b with
  | AxX, AxX | AxY, AxY | AxZ, AxZ => true
  | _, _ => false
  end.

Fixpoint consecutive_repeat (l : list axis) : bool :=
  match l with
  | a :: ((b :: _) as t) => axis_eqb a b || consecutive_repeat t
  | _ => false
  end.

(** The loop of [from_euler]: start from the first elementary rotation and
    multiply each next one on the right (intrinsic) or on the left
    (extrinsic). *)
Fixpoint compose_from (intrinsic : bool) (acc : quat)
    (rest : list (axis * F)) : quat :=
  match rest with
  | [] => acc
  | (a, angle) :: rest' =>
      let e := make_elementary_quat a angle in
      compose_from intrinsic
        (if intrinsic then compose_quat acc e else compose_quat e acc) rest'
  end.

Definition elementary_quat_compose (intrinsic : bool) (axes : list axis)
    (angles : list F) : quat :=
  match combine axes angles with
  | [] => mkQuat (of_int 0) (of_int 0) (of_int 0) (of_int 1)
  | (a, angle) :: rest =>
      compose_from intrinsic (make_elementary_quat a angle) rest
  end.

(** [Rotation.from_euler(seq, angles, degrees)] for one triple of angles. *)
Definition from_euler (seq : string) (angles : list F) (degrees : bool)
    : Py.result quat :=
  let n := String.length seq in
  if (n <? 1)%nat || (3 <? n)%nat then
    Py.Raise (Py.ValueError "Expected axis specification to be a non-empty string of upto 3 characters")
  else
    match axes_of axis_of_upper seq, axes_of axis_of_lower seq with
    | None, None =>
        Py.Raise (Py.ValueError "Expected axes from `seq` to be from ['x', 'y', 'z'] or ['X', 'Y', 'Z']")
    | up, low =>
        let intrinsic := match up with Some _ => true | None => false end in
        let axes := match up, low with
                    | Some l, _ => l
                    | None, Some l => l
                    | None, None => []
                    end in
        if consecutive_repeat axes then
          Py.Raise (Py.ValueError "Expected consecutive axes to be different")
        else if negb (List.length angles =? n)%nat then
          Py.Raise (Py.ValueError "Expected `angles` to match the number of axes")
        else
          let angles := if degrees then map deg2rad angles else angles in
          Py.Ok (elementary_quat_compose intrinsic axes angles)
    end.

(** [r.as_quat()]: scipy's default is the scalar-last order
    [(x, y, z, w)]. *)
Definition as_quat (q : quat) : list F := [qx q; qy q; qz q; qw q].

End Rotation.
Arguments quat F : clear implicits.
End Rotation.

(* ================================================================== *)
(** * numpy *)
(* ================================================================== *)

Module Np.

(** What numpy raises when a one-dimensional array is indexed with two
    subscripts. *)
Definition too_many_indices : Py.exn :=
  Py.IndexError
    "too many indices for array: array is 1-dimensional, but 2 were indexed".

Section Np.
Context {F : Type} {N : Num F}.

(** The arrays the analyzer builds have one or two dimensions. *)
Inductive ndarray : Type :=
| Arr1 (xs : list F)
| Arr2 (rows : list (list F)).

(** [np.array(rows)] on a list of equally long rows.  An empty list gives
    the one-dimensional array of shape [(0,)]. *)
Definition array (rows : list (list F)) : ndarray :=
  match rows with
  | [] => Arr1 []
  | _ => Arr2 rows
  end.

(** [a[:, j]] *)
Definition column (a : ndarray) (j : nat) : Py.result (list F) :=
  match a with
  | Arr1 _ => Py.Raise too_many_indices
  | Arr2 rows =>
      Py.mapM (fun r =>
        match nth_error r j with
        | Some x => Py.Ok x
        | None =>
            Py.Raise (Py.IndexError
              ("index " ++ Py.str_nat j ++ " is out of bounds for axis 1 with size "
               ++ Py.str_nat (List.length r)))
        end) rows
  end.

(** [for a, b, c in arr]: iterating an array yields its rows, each unpacked
    into three names; the elements of a one-dimensional array are scalars
    and do not unpack. *)
Definition unpack3 (r : list F) : Py.result (F * F * F) :=
  match r with
  | [a; b; c] => Py.Ok (a, b, c)
  | _ => Py.Raise (Py.ValueError "wrong number of values to unpack (expected 3)")
  end.

Definition iter3 (a : ndarray) : Py.result (list (F * F * F)) :=
  match a with
  | Arr1 [] => Py.Ok []
  | Arr1 (_ :: _) =>
      Py.Raise (Py.TypeError "cannot unpack non-iterable numpy.float64 object")
  | Arr2 rows => Py.mapM unpack3 rows
  end.

(** [np.sum] adds as numpy's [pairwise_sum] does.  Fewer than eight
    elements are added in index order, starting from zero.  From eight to
    128 elements there are eight running sums, one per index modulo eight:
    they start as the first eight elements, every further group of eight
    elements is added to them position by position, they are combined as
    [((r0 + r1) + (r2 + r3)) + ((r4 + r5) + (r6 + r7))], and what is left
    after the last whole group is added in index order.  More than 128
    elements are cut in two, the first part holding half of them rounded
    down to a multiple of eight, and the sums of the parts are added. *)
Fixpoint add_lanes (r g : list F) : list F :=
  match r, g with
  | a :: r', b :: g' => fadd a b :: add_lanes r' g'
  | _, _ => r
  end.

Fixpoint unrolled (groups : nat) (r xs : list F) : list F * list F :=
  match groups with
  | O => (r, xs)
  | S k => unrolled k (add_lanes r (firstn 8 xs)) (skipn 8 xs)
  end.

Definition combine_lanes (r : list F) : F :=
  match r with
  | [r0; r1; r2; r3; r4; r5; r6; r7] =>
      fadd (fadd (fadd r0 r1) (fadd r2 r3)) (fadd (fadd r4 r5) (fadd r6 r7))
  | _ => of_int 0
  end.

Definition sum_block (xs : list F) : F :=
  let '(r, rest) :=
    unrolled (List.length xs / 8 - 1) (firstn 8 xs) (skipn 8 xs) in
  fold_left fadd rest (combine_lanes r).

(** The recursion is on the length of the list; [fuel] bounds its depth and
    is never used up when it starts as the length. *)
Fixpoint pairwise_sum (fuel : nat) (xs : list F) : F :=
  let n := List.length xs in
  if (n <? 8)%nat then fold_left fadd xs (of_int 0)
  else if (n <=? 128)%nat then sum_block xs
  else
    match fuel with
    | O => sum_block xs
    | S fuel' =>
        let n2 := (n / 2 - (n / 2) mod 8)%nat in
        fadd (pairwise_sum fuel' (firstn n2 xs))
             (pairwise_sum fuel' (skipn n2 xs))
    end.

Definition sum (xs : list F) : F := pairwise_sum (List.length xs) xs.

(** The element count as a number. *)
Definition count (xs : list F) : F := of_int (Z.of_nat (List.length xs)).

(** [np.mean] *)
Definition mean (xs : list F) : F := fdiv (sum xs) (count xs).

(** [np.std]: population standard deviation (ddof = 0), computed as numpy
    does: subtract the mean, square, average, take the root. *)
Definition std (xs : list F) : F :=
  let m := mean xs in
  let d := map (fun x => fsub x m) xs in
  fsqrt (fdiv (sum (map (fun x => fmul x x) d)) (count xs)).

(** [np.max] and [np.min] *)
Definition amax (xs : list F) : Py.result F :=
  match xs with
  | [] => Py.Raise (Py.ValueError
      "zero-size array to reduction operation maximum which has no identity")
  | x :: r => Py.Ok (fold_left fmax r x)
  end.

Definition amin (xs : list F) : Py.result F :=
  match xs with
  | [] => Py.Raise (Py.ValueError
      "zero-size array to reduction operation minimum which has no identity")
  | x :: r => Py.Ok (fold_left fmin r x)
  end.

(** [np.ptp]: maximum minus minimum. *)
Definition ptp (xs : list F) : Py.result F :=
  mx <- amax xs ;;
  mn <- amin xs ;;
  Py.Ok (fsub mx mn).

(** [np.abs] *)
Definition absolute (xs : list F) : list F := map fabs xs.

(** [np.arange(n)] *)
Definition arange (n : nat) : list Z := map Z.of_nat (seq 0 n).

End Np.
Arguments ndarray F : clear implicits.
End Np.

(* ================================================================== *)
(** * FlightScenarioAnalyzer.analyze_scenario *)
(* ================================================================== *)

Module Analyzer.
Section Analyzer.
Context {F : Type} {N : Num F}.

(** One row of the table: the nine columns, in the order of the file. *)
Record Sample : Type := mkSample {
  pitch : F; roll : F; heading_true : F;
  heading_mag : F; mag_var : F; mag_comp : F;
  P : F; Q : F; R : F
}.

(** The table [read_xplane_data] returns. *)
Definition DataFrame : Type := list Sample.

Record FlightScenarioAnalyzer : Type := {
  sample_rate : F;
  scenarios : list string
}.

(** [__init__] *)
Definition init : FlightScenarioAnalyzer := {|
  sample_rate := of_int 5;
  scenarios := ["cruising"; "climbing"; "rolling"; "descending"]%string
|}.

Record EulerStats : Type := {
  pitch_mean : F; pitch_std : F; pitch_range : F;
  roll_mean : F; roll_std : F; roll_range : F;
  heading_mean : F; heading_std : F; heading_range : F
}.

Record RateStats : Type := {
  P_max : F; Q_max : F; R_max : F;
  P_mean : F; Q_mean : F; R_mean : F
}.

Record QuatStats : Type := {
  w_std : F; x_std : F; y_std : F; z_std : F
}.

Record Stats : Type := {
  euler : EulerStats;
  rates : RateStats;
  quaternion : QuatStats
}.

Record Results : Type := {
  time : list F;
  euler_data : Np.ndarray F;
  quaternions : Np.ndarray F;
  angular_rates : Np.ndarray F;
  stats : Stats;
  scenario : string
}.

(** [np.arange(len(data)) / self.sample_rate] *)
Definition time_axis (self : FlightScenarioAnalyzer) (data : DataFrame)
    : list F :=
  map (fun i => fdiv (of_int i) (sample_rate self))
      (Np.arange (List.length data)).

(** [R.from_euler('xyz', [roll, pitch, yaw], degrees=True).as_quat()] *)
Definition to_quat (e : F * F * F) : Py.result (list F) :=
  let '(pitch, roll, yaw) := e in
  r <- Rotation.from_euler "xyz" [roll; pitch; yaw] true ;;
  Py.Ok (Rotation.as_quat r).

Definition analyze_scenario (self : FlightScenarioAnalyzer) (data : DataFrame)
    (scenario_name : string) : Py.result Results :=
  let euler_data :=
    Np.array (map (fun row => [pitch row; roll row; heading_true row]) data) in
  let angular_rates :=
    Np.array (map (fun row => [P row; Q row; R row]) data) in
  triples <- Np.iter3 euler_data ;;
  qs <- Py.mapM to_quat triples ;;
  let quaternions := Np.array qs in
  (* stats['euler'] *)
  e0 <- Np.column euler_data 0 ;; let pitch_mean := Np.mean e0 in
  e0 <- Np.column euler_data 0 ;; let pitch_std := Np.std e0 in
  e0 <- Np.column euler_data 0 ;; pitch_range <- Np.ptp e0 ;;
  e1 <- Np.column euler_data 1 ;; let roll_mean := Np.mean e1 in
  e1 <- Np.column euler_data 1 ;; let roll_std := Np.std e1 in
  e1 <- Np.column euler_data 1 ;; roll_range <- Np.ptp e1 ;;
  e2 <- Np.column euler_data 2 ;; let heading_mean := Np.mean e2 in
  e2 <- Np.column euler_data 2 ;; let heading_std := Np.std e2 in
  e2 <- Np.column euler_data 2 ;; heading_range <- Np.ptp e2 ;;
  (* stats['rates'] *)
  r0 <- Np.column angular_rates 0 ;; P_max <- Np.amax (Np.absolute r0) ;;
  r1 <- Np.column angular_rates 1 ;; Q_max <- Np.amax (Np.absolute r1) ;;
  r2 <- Np.column angular_rates 2 ;; R_max <- Np.amax (Np.absolute r2) ;;
  r0 <- Np.column angular_rates 0 ;; let P_mean := Np.mean r0 in
  r1 <- Np.column angular_rates 1 ;; let Q_mean := Np.mean r1 in
  r2 <- Np.column angular_rates 2 ;; let R_mean := Np.mean r2 in
  (* stats['quaternion'] *)
  q0 <- Np.column quaternions 0 ;; let w_std := Np.std q0 in
  q1 <- Np.column quaternions 1 ;; let x_std := Np.std q1 in
  q2 <- Np.column quaternions 2 ;; let y_std := Np.std q2 in
  q3 <- Np.column quaternions 3 ;; let z_std := Np.std q3 in
  let stats := {|
    euler := {|
      pitch_mean := pitch_mean; pitch_std := pitch_std;
      pitch_range := pitch_range;
      roll_mean := roll_mean; roll_std := roll_std;
      roll_range := roll_range;
      heading_mean := heading_mean; heading_std := heading_std;
      heading_range := heading_range |};
    rates := {|
      P_max := P_max; Q_max := Q_max; R_max := R_max;
      P_mean := P_mean; Q_mean := Q_mean; R_mean := R_mean |};
    quaternion := {|
      w_std := w_std; x_std := x_std; y_std := y_std; z_std := z_std |}
  |} in
  Py.Ok {|
    time := time_axis self data;
    euler_data := euler_data;
    quaternions := quaternions;
    angular_rates := angular_rates;
    stats := stats;
    scenario := scenario_name
  |}.

(** [results['stats']['euler'].items()] and its two siblings, in the order
    the dictionaries were written. *)
Definition euler_items (s : EulerStats) : list (string * F) :=
  [("pitch_mean", pitch_mean s); ("pitch_std", pitch_std s);
   ("pitch_range", pitch_range s);
   ("roll_mean", roll_mean s); ("roll_std", roll_std s);
   ("roll_range", roll_range s);
   ("heading_mean", heading_mean s); ("heading_std", heading_std s);
   ("heading_range", heading_range s)]%string.

Definition rates_items (s : RateStats) : list (string * F) :=
  [("P_max", P_max s); ("Q_max", Q_max s); ("R_max", R_max s);
   ("P_mean", P_mean s); ("Q_mean", Q_mean s); ("R_mean", R_mean s)]%string.

Definition quaternion_items (s : QuatStats) : list (string * F) :=
  [("w_std", w_std s); ("x_std", x_std s);
   ("y_std", y_std s); ("z_std", z_std s)]%string.

End Analyzer.
Arguments Sample F : clear implicits.
Arguments DataFrame F : clear implicits.
Arguments FlightScenarioAnalyzer F : clear implicits.
Arguments Results F : clear implicits.
Arguments Stats F : clear implicits.
Arguments EulerStats F : clear implicits.
Arguments RateStats F : clear implicits.
Arguments QuatStats F : clear implicits.
End Analyzer.

(* ================================================================== *)
(** * FlightScenarioAnalyzer.read_xplane_data *)
(* ================================================================== *)

Module Parser.
Section Parser.

(** [float(s)] on a stripped field: [None] when Python raises
    [ValueError].  The conversion of decimal text to the nearest double is
    Python's, and is taken as given. *)
Variable py_float : string -> option float.

Definition float_of (s : string) : Py.result float :=
  match py_float s with
  | Some v => Py.Ok v
  | None =>
      Py.Raise (Py.ValueError ("could not convert string to float: '" ++ s ++ "'"))
  end.

(** The condition of the comprehension on the lines of the file:
    [line.strip() and '|' in line and 'pitch' not in line]. *)
Definition is_data_line (line : string) : bool :=
  Py.truthy (Py.strip line)
  && Py.contains "|" line
  && negb (Py.contains "pitch" line).

(** [[float(x.strip()) for x in line.split('|') if x.strip()]] *)
Definition parse_values (line : string) : Py.result (list float) :=
  Py.mapM (fun x => float_of (Py.strip x))
          (filter (fun x => Py.truthy (Py.strip x)) (Py.split "|" line)).

Definition columns : list string :=
  ["pitch"; "roll"; "heading_true"; "heading_mag";
   "mag_var"; "mag_comp"; "P"; "Q"; "R"]%string.

(** A row of the table from the values of a line; a row shorter than the
    table is wide is completed with NaN. *)
Definition row_of_values (vs : list float) : Analyzer.Sample float :=
  let v i := nth i vs PrimFloat.nan in
  Analyzer.mkSample (v 0%nat) (v 1%nat) (v 2%nat) (v 3%nat) (v 4%nat)
                    (v 5%nat) (v 6%nat) (v 7%nat) (v 8%nat).

(** [pd.DataFrame(data, columns=columns)] on a list of lists: no rows give
    the empty table; otherwise the longest row must be as wide as the list
    of column names. *)
Definition mkDataFrame (data : list (list float)) (cols : list string)
    : Py.result (Analyzer.DataFrame float) :=
  match data with
  | [] => Py.Ok []
  | _ =>
      let width := list_max (map (@List.length float) data) in
      if (width =? List.length cols)%nat then Py.Ok (map row_of_values data)
      else Py.Raise (Py.ValueError
             (Py.str_nat (List.length cols) ++ " columns passed, passed data had "
              ++ Py.str_nat width ++ " columns"))
  end.

(** The body of [read_xplane_data] once the lines are read. *)
Definition parse_lines (lines : list string)
    : Py.result (Analyzer.DataFrame float) :=
  let data_lines := map Py.strip (filter is_data_line lines) in
  data <- Py.mapM parse_values data_lines ;;
  mkDataFrame data columns.

(** [open(filepath, 'r')] followed by the read: the text of the file, or the
    exception raised ([FileNotFoundError] when the path does not exist). *)
Variable open_read : string -> Py.result string.

Definition read_xplane_data (filepath : string)
    : Py.result (Analyzer.DataFrame float) :=
  text <- open_read filepath ;;
  parse_lines (Py.readlines text).

End Parser.
End Parser.

(* ================================================================== *)
(** * main *)
(* ================================================================== *)

Module Driver.

(** Standard output is the list of the strings printed so far, one per call
    of [print].  A statement either completes or raises, and keeps what was
    printed in both cases. *)
Definition io (A : Type) : Type := list string -> list string * Py.result A.

Definition ret {A : Type} (a : A) : io A := fun out => (out, Py.Ok a).

Definition iobind {A B : Type} (m : io A) (k : A -> io B) : io B :=
  fun out =>
    match m out with
    | (out', Py.Ok a) => k a out'
    | (out', Py.Raise e) => (out', Py.Raise e)
    end.

Definition lift {A : Type} (r : Py.result A) : io A := fun out => (out, r).

Definition print (s : string) : io unit := fun out => (out ++ [s], Py.Ok tt).

(** [try: body except Exception as e: handler(e)] *)
Definition try_except {A : Type} (body : io A) (handler : Py.exn -> io A)
    : io A :=
  fun out =>
    match body out with
    | (out', Py.Raise e) => handler e out'
    | done => done
    end.

Notation "x <~ m ;; k" := (iobind m (fun x => k))
  (at level 61, m at next level, right associativity).
Notation "m ;;; k" := (iobind m (fun _ => k))
  (at level 61, right associativity).

Fixpoint print_all (ls : list string) : io unit :=
  match ls with
  | [] => ret tt
  | l :: ls' => print l ;;; print_all ls'
  end.

(** [d[k] = v] on a dictionary kept in insertion order. *)
Fixpoint dict_set {V : Type} (d : list (string * V)) (k : string) (v : V)
    : list (string * V) :=
  match d with
  | [] => [(k, v)]
  | (k', v') :: d' =>
      if String.eqb k' k then (k, v) :: d' else (k', v') :: dict_set d' k v
  end.

Section Driver.

Variable L : Libm.
Variable py_float : string -> option float.
Variable open_read : string -> Py.result string.

(** [f"{value:.6f}"] *)
Variable format_6f : float -> string.

(** [plot_scenario(results)], [plt.savefig(filename)] and [plt.close()]:
    matplotlib either writes the image or raises. *)
Variable plot_and_save : Analyzer.Results float -> string -> Py.result unit.

Definition scenario_files : list (string * string) :=
  [("cruising", "cruising_data.txt");
   ("climbing", "climbing_data.txt");
   ("rolling", "rolling_data.txt");
   ("descending", "descending_data.txt")]%string.

Definition item_line (kv : string * float) : string :=
  (fst kv ++ ": " ++ format_6f (snd kv))%string.

(** The lines printed for a scenario that was analyzed. *)
Definition report (scenario : string) (results : Analyzer.Results float)
    : list string :=
  let st := Analyzer.stats results in
  (String Py.LF "" ++ Py.upper scenario ++ " Statistics:")%string
  :: (String Py.LF "" ++ "Euler Angles:")%string
  :: map item_line (Analyzer.euler_items (Analyzer.euler st))
  ++ (String Py.LF "" ++ "Angular Rates (deg/s):")%string
  :: map item_line (Analyzer.rates_items (Analyzer.rates st))
  ++ (String Py.LF "" ++ "Quaternion Stability:")%string
  :: map item_line (Analyzer.quaternion_items (Analyzer.quaternion st)).

Definition announce (scenario : string) : string :=
  (String Py.LF "" ++ "Analyzing " ++ scenario ++ " scenario...")%string.

Definition warning (scenario : string) : string :=
  ("Warning: Data file for " ++ scenario ++ " not found")%string.

Definition error_line (scenario : string) (e : Py.exn) : string :=
  ("Error analyzing " ++ scenario ++ ": " ++ Py.str_exn e)%string.

Definition results_dict : Type := list (string * Analyzer.Results float).

(** The body of the [try] for one scenario. *)
Definition attempt (analyzer : Analyzer.FlightScenarioAnalyzer float)
    (all_results : results_dict) (scenario filepath : string)
    : io results_dict :=
  print (announce scenario) ;;;
  data <~ lift (Parser.read_xplane_data py_float open_read filepath) ;;
  results <~ lift (Analyzer.analyze_scenario (N := float_num L)
                     analyzer data scenario) ;;
  print_all (report scenario results) ;;;
  lift (plot_and_save results (scenario ++ "_analysis.png")%string) ;;;
  ret (dict_set all_results scenario results).

(** The two [except] clauses; both end in [continue]. *)
Definition handler (all_results : results_dict) (scenario : string)
    (e : Py.exn) : io results_dict :=
  if Py.is_FileNotFoundError e then
    print (warning scenario) ;;; ret all_results
  else
    print (error_line scenario e) ;;; ret all_results.

(** One turn of the loop: the [try] statement. *)
Definition turn (analyzer : Analyzer.FlightScenarioAnalyzer float)
    (all_results : results_dict) (scenario filepath : string)
    : io results_dict :=
  try_except (attempt analyzer all_results scenario filepath)
             (handler all_results scenario).

(** [for scenario, filepath in scenarios.items(): try: ... except ...] *)
Fixpoint for_each (analyzer : Analyzer.FlightScenarioAnalyzer float)
    (items : list (string * string)) (all_results : results_dict)
    : io results_dict :=
  match items with
  | [] => ret all_results
  | (scenario, filepath) :: rest =>
      all_results' <~ turn analyzer all_results scenario filepath ;;
      for_each analyzer rest all_results'
  end.

Definition main : io results_dict :=
  let analyzer := Analyzer.init (N := float_num L) in
  for_each analyzer scenario_files [].

(** The lines a turn prints, by cases on the statement that raises. *)
Inductive outcome (s p : string) : list string -> Prop :=
| read_missing msg :
    Parser.read_xplane_data py_float open_read p
      = Py.Raise (Py.FileNotFoundError msg) ->
    outcome s p [announce s; warning s]
| read_failed e :
    Parser.read_xplane_data py_float open_read p = Py.Raise e ->
    Py.is_FileNotFoundError e = false ->
    outcome s p [announce s; error_line s e]
| analysis_missing data msg :
    Parser.read_xplane_data py_float open_read p = Py.Ok data ->
    Analyzer.analyze_scenario (N := float_num L)
      (Analyzer.init (N := float_num L)) data s
      = Py.Raise (Py.FileNotFoundError msg) ->
    outcome s p [announce s; warning s]
| analysis_failed data e :
    Parser.read_xplane_data py_float open_read p = Py.Ok data ->
    Analyzer.analyze_scenario (N := float_num L)
      (Analyzer.init (N := float_num L)) data s = Py.Raise e ->
    Py.is_FileNotFoundError e = false ->
    outcome s p [announce s; error_line s e]
| plot_failed data r e :
    Parser.read_xplane_data py_float open_read p = Py.Ok data ->
    Analyzer.analyze_scenario (N := float_num L)
      (Analyzer.init (N := float_num L)) data s = Py.Ok r ->
    plot_and_save r (s ++ "_analysis.png")%string = Py.Raise e ->
    outcome s p
      ((announce s :: report s r)
       ++ [if Py.is_FileNotFoundError e then warning s else error_line s e])
| analyzed data r :
    Parser.read_xplane_data py_float open_read p = Py.Ok data ->
    Analyzer.analyze_scenario (N := float_num L)
      (Analyzer.init (N := float_num L)) data s = Py.Ok r ->
    plot_and_save r (s ++ "_analysis.png")%string = Py.Ok tt ->
    outcome s p (announce s :: report s r).

End Driver.
End Driver.

(* ================================================================== *)
(** * Concrete stand-ins used to run the model *)
(* ================================================================== *)

Module Fixtures.

Local Open Scope string_scope.

Definition digit_of (c : ascii) : option Z :=
  let n := N_of_ascii c in
  if ((48 <=? n) && (n <=? 57))%N then Some (Z.of_N (n - 48)) else None.

(** Reads a run of decimal digits: the number read so far, how many digits
    were read, and what follows them. *)
Fixpoint scan_digits (s : string) (acc : Z) (count : nat)
    : Z * nat * string :=
  match s with
  | EmptyString => (acc, count, s)
  | String c s' =>
      match digit_of c with
      | Some d => scan_digits s' (10 * acc + d)%Z (S count)
      | None => (acc, count, s)
      end
  end.

(** [float(s)] on plain decimal text: an optional sign, digits, an optional
    point and more digits, with at most 15 digits in all.  The digits and
    the power of ten are then both doubles, and one correctly rounded
    division gives the double nearest to the decimal, which is what Python
    returns.  Any other text is rejected here (Python accepts more). *)
Definition decimal_float (s : string) : option float :=
  let '(neg, body) :=
    match s with
    | String "-" r => (true, r)
    | String "+" r => (false, r)
    | _ => (false, s)
    end in
  let '(ip, ni, rest) := scan_digits body 0%Z 0%nat in
  let '(m, nf, rest') :=
    match rest with
    | String "." r => scan_digits r ip 0%nat
    | _ => (ip, 0%nat, rest)
    end in
  match rest' with
  | EmptyString =>
      if ((0 <? ni + nf) && (ni + nf <=? 15))%nat then
        let v := PrimFloat.div (F64.of_Z m) (F64.of_Z (10 ^ Z.of_nat nf)) in
        Some (if neg then PrimFloat.opp v else v)
      else None
  | _ => None
  end.

(** Truncated Taylor series: a [sin] and a [cos] that are only accurate near
    zero, enough to run the analyzer on examples. *)
Definition taylor_sin (x : float) : float :=
  let x2 := (x * x)%float in
  (x * (1 - x2 / 6 * (1 - x2 / 20 * (1 - x2 / 42))))%float.

Definition taylor_cos (x : float) : float :=
  let x2 := (x * x)%float in
  (1 - x2 / 2 * (1 - x2 / 12 * (1 - x2 / 30)))%float.

Definition taylor_libm : Libm := {|
  libm_sin := taylor_sin;
  libm_cos := taylor_cos;
  libm_sin_nan := eq_refl;
  libm_cos_nan := eq_refl
|}.

Definition nl : string := String Py.LF EmptyString.

(** A file as X-Plane writes it: a header naming the columns, then one line
    per sample, fields padded with blanks and closed by a separator. *)
Definition header_line : string :=
  "   pitch,__deg |   roll,__deg | hding,_true | hding,__mag | __mag,_var | __mag,_comp | ____P,rad/s | ____Q,rad/s | ____R,rad/s |".

Definition three_line_file : string :=
  header_line ++ nl
  ++ "  2.5 | -1.0 | 90.0 | 88.5 | 1.5 | 89.0 | 0.125 | -0.25 | 0.0 |" ++ nl
  ++ "  3.0 | -1.5 | 91.0 | 89.5 | 1.5 | 90.0 | 0.25 | -0.5 | 0.0 |" ++ nl
  ++ "  3.5 | -2.0 | 92.0 | 90.5 | 1.5 | 91.0 | 0.5 | -0.75 | 0.0 |" ++ nl.

(** A file with a header, a blank line and a comment, but no sample. *)
Definition no_data_file : string :=
  header_line ++ nl ++ "   " ++ nl ++ "recorded at 5 writes/sec" ++ nl.

(** A file system with no file at all. *)
Definition no_files (path : string) : Py.result string :=
  Py.Raise (Py.FileNotFoundError
    ("[Errno 2] No such file or directory: '" ++ path ++ "'")).

(** A file system with the given files. *)
Fixpoint files (fs : list (string * string)) (path : string)
    : Py.result string :=
  match fs with
  | [] => no_files path
  | (p, text) :: fs' => if String.eqb p path then Py.Ok text else files fs' path
  end.

(** Tables of samples. *)
Definition four_rows : Analyzer.DataFrame float :=
  map (fun p => Analyzer.mkSample p 1 90 0 0 0 0.5 (-0.5) 0)%float
      [0; 10; -10; 5]%float.

Definition ten_rows : Analyzer.DataFrame float :=
  map (fun p => Analyzer.mkSample p 0 0 0 0 0 0 0 0)%float
      [0; 1; 2; 3; 4; 5; 6; 7; 8; 9]%float.

(** Samples on doubles: a pitch of 0.1 degrees, an infinite pitch, a pitch
    that is not a number ([float] reads the texts [inf] and [nan]). *)
Definition tenth : Analyzer.Sample float :=
  (Analyzer.mkSample 0.1 0 0 0 0 0 0 0 0)%float.

Definition climbing_forever : Analyzer.Sample float :=
  (Analyzer.mkSample PrimFloat.infinity 0 0 0 0 0 0 0 0)%float.

Definition not_a_number : Analyzer.Sample float :=
  (Analyzer.mkSample PrimFloat.nan 0 0 0 0 0 0 0 0)%float.

(** Level flight, on doubles. *)
Definition level_flight : Analyzer.Sample float :=
  (Analyzer.mkSample 0 0 0 0 0 0 0 0 0)%float.

(** Samples on real numbers: level flight, and a pitch of 180 degrees. *)
Definition level : Analyzer.Sample R :=
  (Analyzer.mkSample 0 0 0 0 0 0 0 0 0)%R.

Definition nose_over : Analyzer.Sample R :=
  (Analyzer.mkSample 180 0 0 0 0 0 0 0 0)%R.

End Fixtures.

(* ================================================================== *)
(** * Doubles as real numbers *)
(* ================================================================== *)

Module Binary64.
Local Open Scope R_scope.

(** Powers of two with an integer exponent. *)
Definition bpow (e : Z) : R := powerRZ 2 e.

Definition sgn (s : bool) : R := if s then -1 else 1.

(** The real number a double stands for (zero for the infinities and for
    NaN, which stand for none). *)
Definition SF2R (f : spec_float) : R :=
  match f with
  | S754_finite s m e => sgn s * (IZR (Z.pos m) * bpow e)
  | _ => 0
  end.

Definition to_R (x : float) : R := SF2R (Prim2SF x).

Definition SFfinite (f : spec_float) : Prop :=
  match f with
  | S754_zero _ | S754_finite _ _ _ => True
  | _ => False
  end.

(** The magnitude of a rounded result, and what rounding may return when
    nothing overflows: a zero or a finite number of the sign it was given. *)
Definition mag (f : spec_float) : R :=
  match f with
  | S754_finite _ m e => IZR (Z.pos m) * bpow e
  | _ => 0
  end.

Definition signed (s : bool) (f : spec_float) : Prop :=
  f = S754_zero s \/ exists m e, f = S754_finite s m e.

(** A finite double [x] that stands for the real number [a] up to [d],
    where [a] is at most [M] in magnitude. *)
Definition near (x : float) (a M d : R) : Prop :=
  is_finite x = true /\ Rabs (to_R x - a) <= d /\ Rabs a <= M.

(** A quaternion of doubles that stands for a quaternion of real numbers,
    component by component. *)
Definition near_quat (p : Rotation.quat float) (P : Rotation.quat R)
    (M d : R) : Prop :=
  near (Rotation.qx p) (Rotation.qx P) M d
  /\ near (Rotation.qy p) (Rotation.qy P) M d
  /\ near (Rotation.qz p) (Rotation.qz P) M d
  /\ near (Rotation.qw p) (Rotation.qw P) M d.

(** The rotation about one axis whose half angle is [r] radians. *)
Definition axis_turn (a : Rotation.axis) (r : R) : Rotation.quat R :=
  Rotation.make_elementary_quat (N := real_num) a (2 * r).

(** The comparison of doubles that are not NaN is the lexicographic order
    of a class (negative infinity, negative, zero, positive, positive
    infinity), an exponent and a mantissa. *)
Definition rank (f : spec_float) : Z * Z * Z :=
  match f with
  | S754_infinity true => (-2, 0, 0)%Z
  | S754_finite true m e => (-1, - e, Z.neg m)%Z
  | S754_zero _ => (0, 0, 0)%Z
  | S754_finite false m e => (1, e, Z.pos m)%Z
  | S754_infinity false => (2, 0, 0)%Z
  | S754_nan => (3, 0, 0)%Z
  end.

Definition lex_le (a b : Z * Z * Z) : Prop :=
  let '(a1, a2, a3) := a in
  let '(b1, b2, b3) := b in
  (a1 < b1 \/ (a1 = b1 /\ (a2 < b2 \/ (a2 = b2 /\ a3 <= b3))))%Z.

Definition lex_lt (a b : Z * Z * Z) : Prop :=
  let '(a1, a2, a3) := a in
  let '(b1, b2, b3) := b in
  (a1 < b1 \/ (a1 = b1 /\ (a2 < b2 \/ (a2 = b2 /\ a3 < b3))))%Z.

End Binary64.

(* ================================================================== *)
(** * The vocabulary of the specification *)
(* ================================================================== *)

(** These definitions follow the words of the specification, not the code;
    the theorems compare the code with them. *)
Module Spec.

Definition chars (s : string) : list ascii := list_ascii_of_string s.

(** A line is empty after stripping when all it holds is white space. *)
Definition blank (s : string) : Prop :=
  forall c, In c (chars s) -> Py.is_space c = true.

(** [s] contains the text [sub]. *)
Definition occurs (sub s : string) : Prop :=
  exists pre post, s = (pre ++ sub ++ post)%string.

(** "A line is a data line only if it is non-empty, contains a field
    separator character and does not contain the literal token pitch." *)
Definition data_line (line : string) : Prop :=
  ~ blank line /\ occurs "|" line /\ ~ occurs "pitch" line.

(** The characters of a number as Python writes a float: digits, sign,
    point, exponent mark, and the letters of [inf] and [nan]. *)
Definition float_char (c : ascii) : bool :=
  Py.contains (String c EmptyString) "0123456789+-.einfa".

Definition float_text (t : string) : Prop :=
  t <> EmptyString /\ forall c, In c (chars t) -> float_char c = true.

(** Re-serializing: the texts joined with the field separator. *)
Definition serialize (texts : list string) : string := Py.join "|" texts.

(** Intrinsic x-then-y-then-z composition "as defined by the rotation
    library's convention": the library writes intrinsic sequences in upper
    case. *)
Definition intrinsic_xyz {F : Type} {N : Num F} (roll pitch yaw : F)
    : Py.result (list F) :=
  r <- Rotation.from_euler "XYZ" [roll; pitch; yaw] true ;;
  Py.Ok (Rotation.as_quat r).

(** Euclidean norm of a quaternion row. *)
Definition norm {F : Type} {N : Num F} (q : list F) : F :=
  fsqrt (fold_left fadd (map (fun x => fmul x x) q) (of_int 0)).

(** Squared norm of a rotation's quaternion. *)
Definition norm_sq {F : Type} {N : Num F} (q : Rotation.quat F) : F :=
  fadd (fadd (fadd (fmul (Rotation.qx q) (Rotation.qx q))
                   (fmul (Rotation.qy q) (Rotation.qy q)))
             (fmul (Rotation.qz q) (Rotation.qz q)))
       (fmul (Rotation.qw q) (Rotation.qw q)).

(** Unit norm within a tolerance, on doubles. *)
Definition unit_within (L : Libm) (tol : float) (q : list float) : bool :=
  PrimFloat.leb
    (PrimFloat.abs (PrimFloat.sub (norm (N := float_num L) q) 1%float)) tol.

(** The argument [from_euler] hands to [sin] and [cos] for an angle in
    degrees: the angle in radians, halved. *)
Definition half_angle (L : Libm) (deg : float) : float :=
  fdiv (Num := float_num L) (Rotation.deg2rad (N := float_num L) deg)
       (of_int (Num := float_num L) 2).

(** The C library is accurate at [h]: its [sin] and [cos] return finite
    doubles within [2^-40] of the sine and the cosine of [h]. *)
Definition accurate (L : Libm) (h : float) : Prop :=
  is_finite (libm_sin L h) = true /\ is_finite (libm_cos L h) = true
  /\ (Rabs (Binary64.to_R (libm_sin L h) - sin (Binary64.to_R h))
      <= Binary64.bpow (-40))%R
  /\ (Rabs (Binary64.to_R (libm_cos L h) - cos (Binary64.to_R h))
      <= Binary64.bpow (-40))%R.

(** The three angles of a sample that are converted. *)
Definition angles (s : Analyzer.Sample float) : list float :=
  [Analyzer.roll s; Analyzer.pitch s; Analyzer.heading_true s].

Definition finite_angles (s : Analyzer.Sample float) : Prop :=
  forall deg, In deg (angles s) -> is_finite deg = true.

(** The C library is accurate wherever the conversion of the sample calls
    it with a finite argument. *)
Definition accurate_on (L : Libm) (s : Analyzer.Sample float) : Prop :=
  forall deg, In deg (angles s) ->
    is_finite (half_angle L deg) = true -> accurate L (half_angle L deg).

(** All samples identical. *)
Definition constant {A : Type} (data : list A) : Prop :=
  forall a b, In a data -> In b data -> a = b.

(** The non-empty fields of a line, as texts still to be stripped. *)
Definition fields (line : string) : list string :=
  filter (fun x => Py.truthy (Py.strip x)) (Py.split "|" (Py.strip line)).

(** The nine values of a sample, in the order of the columns. *)
Definition row_values {F : Type} (s : Analyzer.Sample F) : list F :=
  [Analyzer.pitch s; Analyzer.roll s; Analyzer.heading_true s;
   Analyzer.heading_mag s; Analyzer.mag_var s; Analyzer.mag_comp s;
   Analyzer.P s; Analyzer.Q s; Analyzer.R s].

(** A well-formed 9-field data line and the nine numbers written on it. *)
Definition well_formed (py_float : string -> option float) (line : string)
    (vs : list float) : Prop :=
  data_line line /\ List.length vs = 9%nat /\
  Forall2 (fun f v => py_float (Py.strip f) = Some v) (fields line) vs.

End Spec.

(* ================================================================== *)
(** * The analysis of a non-empty table, in closed form *)
(* ================================================================== *)

Module Closed.
Section Closed.
Context {F : Type} {N : Num F}.
Import Analyzer.

(** Extrinsic x-then-y-then-z composition: the rotation about the fixed x
    axis is applied first, so it stands rightmost in the product. *)
Definition extrinsic_xyz (roll pitch yaw : F) : Rotation.quat F :=
  Rotation.compose_quat
    (Rotation.make_elementary_quat Rotation.AxZ (Rotation.deg2rad yaw))
    (Rotation.compose_quat
       (Rotation.make_elementary_quat Rotation.AxY (Rotation.deg2rad pitch))
       (Rotation.make_elementary_quat Rotation.AxX (Rotation.deg2rad roll))).

Definition rotation_of (s : Sample F) : Rotation.quat F :=
  extrinsic_xyz (roll s) (pitch s) (heading_true s).

Definition quat_row (s : Sample F) : list F :=
  Rotation.as_quat (rotation_of s).

Definition range_of (x : F) (rest : list F) : F :=
  fsub (fold_left fmax rest x) (fold_left fmin rest x).

Definition max_abs (x : F) (rest : list F) : F :=
  fold_left fmax (map fabs rest) (fabs x).

Definition analysis (self : FlightScenarioAnalyzer F) (s : Sample F)
    (rest : list (Sample F)) (name : string) : Results F :=
  let data := s :: rest in
  {|
    time := time_axis self data;
    euler_data :=
      Np.Arr2 (map (fun row => [pitch row; roll row; heading_true row]) data);
    quaternions := Np.Arr2 (map quat_row data);
    angular_rates := Np.Arr2 (map (fun row => [P row; Q row; R row]) data);
    stats := {|
      euler := {|
        pitch_mean := Np.mean (map pitch data);
        pitch_std := Np.std (map pitch data);
        pitch_range := range_of (pitch s) (map pitch rest);
        roll_mean := Np.mean (map roll data);
        roll_std := Np.std (map roll data);
        roll_range := range_of (roll s) (map roll rest);
        heading_mean := Np.mean (map heading_true data);
        heading_std := Np.std (map heading_true data);
        heading_range := range_of (heading_true s) (map heading_true rest) |};
      rates := {|
        P_max := max_abs (P s) (map P rest);
        Q_max := max_abs (Q s) (map Q rest);
        R_max := max_abs (R s) (map R rest);
        P_mean := Np.mean (map P data);
        Q_mean := Np.mean (map Q data);
        R_mean := Np.mean (map R data) |};
      quaternion := {|
        w_std := Np.std (map (fun r => Rotation.qx (rotation_of r)) data);
        x_std := Np.std (map (fun r => Rotation.qy (rotation_of r)) data);
        y_std := Np.std (map (fun r => Rotation.qz (rotation_of r)) data);
        z_std := Np.std (map (fun r => Rotation.qw (rotation_of r)) data) |}
    |};
    scenario := name
  |}.

End Closed.
End Closed.

(* ================================================================== *)
(** * FlightScenarioAnalyzer.plot_scenario *)
(* ================================================================== *)

Module Plot.

(** [s.title()] on ASCII text: the first letter of every run of letters in
    upper case, the other letters in lower case. *)
Definition is_upper (c : ascii) : bool :=
  let n := N_of_ascii c in ((65 <=? n) && (n <=? 90))%N.

Definition is_lower (c : ascii) : bool :=
  let n := N_of_ascii c in ((97 <=? n) && (n <=? 122))%N.

Definition lower_char (c : ascii) : ascii :=
  if is_upper c then ascii_of_N (N_of_ascii c + 32) else c.

Fixpoint title_from (in_word : bool) (s : string) : string :=
  match s with
  | EmptyString => EmptyString
  | String c s' =>
      if is_upper c || is_lower c then
        String (if in_word then lower_char c else Py.upper_char c)
               (title_from true s')
      else String c (title_from false s')
  end.

Definition title (s : string) : string := title_from false s.

Section Plot.
Context {F : Type} {N : Num F}.

(** What matplotlib is asked to draw: a figure of stacked panels, each
    holding labelled series over a common abscissa. *)
Record Line2D : Type := {
  xdata : list F;
  ydata : list F;
  label : string;
  color : string
}.

Record Axes : Type := {
  subplot : nat;
  lines : list Line2D;
  ax_title : string;
  xlabel : string;
  ylabel : string;
  grid : bool;
  legend : list string
}.

Record Figure : Type := {
  figsize : nat * nat;
  suptitle : string;
  suptitle_size : nat;
  axes : list Axes
}.

(** [ax.plot(x, y, label=..., color=...)]: the two arrays must be equally
    long. *)
Definition plot (x y : list F) (lbl col : string) : Py.result Line2D :=
  if (List.length x =? List.length y)%nat then
    Py.Ok {| xdata := x; ydata := y; label := lbl; color := col |}
  else
    Py.Raise (Py.ValueError
      ("x and y must have same first dimension, but have shapes ("
       ++ Py.str_nat (List.length x) ++ ",) and ("
       ++ Py.str_nat (List.length y) ++ ",)")).

(** One panel: [plt.subplot(position)], the calls of [plot] in order, then
    title, axis labels, grid and legend. *)
Definition panel (position : nat) (time : list F) (a : Np.ndarray F)
    (series : list (nat * string * string)) (ttl xl yl : string)
    : Py.result Axes :=
  ls <- Py.mapM (fun '(j, lbl, col) =>
                   y <- Np.column a j ;;
                   plot time y lbl col) series ;;
  Py.Ok {| subplot := position; lines := ls; ax_title := ttl;
           xlabel := xl; ylabel := yl; grid := true;
           legend := map label ls |}.

Definition plot_scenario (results : Analyzer.Results F) : Py.result Figure :=
  let time := Analyzer.time results in
  ax1 <- panel 311 time (Analyzer.euler_data results)
           [(0, "Pitch", "blue"); (1, "Roll", "red"); (2, "Heading", "green")]%string
           "Euler Angles" "Time (s)" "Degrees" ;;
  ax2 <- panel 312 time (Analyzer.quaternions results)
           [(0, "w", "purple"); (1, "x", "orange");
            (2, "y", "brown"); (3, "z", "pink")]%string
           "Quaternion Components" "Time (s)" "Component Value" ;;
  ax3 <- panel 313 time (Analyzer.angular_rates results)
           [(0, "P (Roll Rate)", "red"); (1, "Q (Pitch Rate)", "blue");
            (2, "R (Yaw Rate)", "green")]%string
           "Angular Rates" "Time (s)" "Degrees/s" ;;
  Py.Ok {| figsize := (15, 12);
           suptitle := "Flight Analysis: " ++ title (Analyzer.scenario results);
           suptitle_size := 14;
           axes := [ax1; ax2; ax3] |}.

(** What [main] does with the results after printing: build the figure,
    save it under the given name, close it.  Writing the image is
    matplotlib's and the file system's business: it succeeds or raises. *)
Definition plot_and_save (savefig : Figure -> string -> Py.result unit)
    (results : Analyzer.Results F) (filename : string) : Py.result unit :=
  fig <- plot_scenario results ;;
  savefig fig filename.

End Plot.
Arguments Line2D F : clear implicits.
Arguments Axes F : clear implicits.
Arguments Figure F : clear implicits.
End Plot.

(* ================================================================== *)
(** * Reading the dictionary of results *)
(* ================================================================== *)

Module Dict.

(** [d.get(k)] on a dictionary kept in insertion order. *)
Fixpoint get {V : Type} (d : list (string * V)) (k : string) : option V :=
  match d with
  | [] => None
  | (k', v) :: d' => if String.eqb k' k then Some v else get d' k
  end.

End Dict.

(* ================================================================== *)
(** * Text that [repr] leaves as it is *)
(* ================================================================== *)

Module Repr.

(** The characters that [repr] of a string writes unchanged when it puts
    the string between apostrophes: printable ASCII other than the
    apostrophe and the backslash. *)
Definition plain_char (c : ascii) : bool :=
  let n := N_of_ascii c in
  ((32 <=? n) && (n <? 127) && negb (n =? 39) && negb (n =? 92))%N.

Definition plain (s : string) : Prop :=
  forall c, In c (list_ascii_of_string s) -> plain_char c = true.

End Repr.

(* ================================================================== *)
(** * More files and tables to run the model on *)
(* ================================================================== *)

Module Cases.
Local Open Scope string_scope.
Import Fixtures.

(** Lines of a data file, each closed by its line feed. *)
Definition first_line : string :=
  "  2.5 | -1.0 | 90.0 | 88.5 | 1.5 | 89.0 | 0.125 | -0.25 | 0.0 |" ++ nl.

Definition second_line : string :=
  "  3.0 | -1.5 | 91.0 | 89.5 | 1.5 | 90.0 | 0.25 | -0.5 | 0.0 |" ++ nl.

Definition bad_line : string :=
  "  3.0 | -1.5 | n/a | 89.5 | 1.5 | 90.0 | 0.25 | -0.5 | 0.0 |" ++ nl.

Definition worse_line : string :=
  "  3.5 | oops | 92.0 | 90.5 | 1.5 | 91.0 | 0.5 | -0.75 | 0.0 |" ++ nl.

Definition short_line : string :=
  "  3.0 | -1.5 | 91.0 | 89.5 | 1.5 | 90.0 | 0.25 | -0.5 |" ++ nl.

Definition shorter_line : string :=
  "  2.5 | -1.0 | 90.0 | 88.5 | 1.5 | 89.0 | 0.125 |" ++ nl.

(** The numbers written on them. *)
Definition first_values : list float :=
  [2.5; -1; 90; 88.5; 1.5; 89; 0.125; -0.25; 0]%float.

Definition short_values : list float :=
  [3; -1.5; 91; 89.5; 1.5; 90; 0.25; -0.5]%float.

Definition shorter_values : list float :=
  [2.5; -1; 90; 88.5; 1.5; 89; 0.125]%float.

(** A file whose second sample holds a field that is not a number, and
    whose third sample holds another. *)
Definition malformed_file : string :=
  header_line ++ nl ++ first_line ++ bad_line ++ worse_line.

(** A file whose samples all lack columns. *)
Definition eight_field_file : string := shorter_line ++ short_line.

(** A file whose second sample lacks the last column. *)
Definition ragged_file : string := first_line ++ short_line.

(** The table written in [Fixtures.three_line_file]. *)
Definition three_samples : Analyzer.DataFrame float :=
  [Analyzer.mkSample 2.5 (-1) 90 88.5 1.5 89 0.125 (-0.25) 0;
   Analyzer.mkSample 3 (-1.5) 91 89.5 1.5 90 0.25 (-0.5) 0;
   Analyzer.mkSample 3.5 (-2) 92 90.5 1.5 91 0.5 (-0.75) 0]%float.

(** The samples of [Fixtures.four_rows] with other readings on the three
    magnetic instruments. *)
Definition four_rows_other_compass : Analyzer.DataFrame float :=
  map (fun p => Analyzer.mkSample p 1 90 87 3 86.5 0.5 (-0.5) 0)%float
      [0; 10; -10; 5]%float.

(** A sample on doubles whose heading is not a number, a table with a pitch
    that is not a number, and a table with that heading. *)
Definition no_heading : Analyzer.Sample float :=
  (Analyzer.mkSample 0.5 0 PrimFloat.nan 0 0 0 0 0 0)%float.

Definition lost_pitch : Analyzer.DataFrame float :=
  [Fixtures.tenth; Fixtures.not_a_number; Fixtures.tenth].

Definition lost_heading : Analyzer.DataFrame float :=
  [Fixtures.tenth; no_heading].

(** A matplotlib that cannot write the image: the directory is gone. *)
Definition no_directory (results : Analyzer.Results float) (filename : string)
    : Py.result unit :=
  Py.Raise (Py.FileNotFoundError
    ("[Errno 2] No such file or directory: '" ++ filename ++ "'")).

(** A matplotlib that writes every image. *)
Definition savefig_ok (fig : Plot.Figure float) (filename : string)
    : Py.result unit :=
  Py.Ok tt.

(** A formatting that writes every number the same. *)
Definition format_zero (x : float) : string := "0.000000".

End Cases.

(* ================================================================== *)
(** * Properties of the string operations *)
(* ================================================================== *)

Module PyFacts.
Import Py Spec.

Lemma chars_app s t : chars (s ++ t) = chars s ++ chars t.
Proof. induction s as [|c s IH]; simpl; [reflexivity | now rewrite IH]. Qed.

Lemma lstrip_empty s : lstrip s = EmptyString <-> blank s.
Proof.
  unfold blank. induction s as [|c s IH]; simpl.
  - split; [intros _ c [] | reflexivity].
  - destruct (is_space c) eqn:Hc.
    + rewrite IH. split.
      * intros H d [<-|Hd]; auto.
      * intros H d Hd. apply H. now right.
    + split; [discriminate|].
      intros H. specialize (H c (or_introl eq_refl)). congruence.
Qed.

Lemma rstrip_empty s : rstrip s = EmptyString <-> blank s.
Proof.
  unfold blank. induction s as [|c s IH]; simpl.
  - split; [intros _ c [] | reflexivity].
  - destruct (rstrip s) eqn:Hr.
    + destruct (is_space c) eqn:Hc.
      * split; [|reflexivity]. intros _ d [<-|Hd]; auto.
        apply (proj1 IH eq_refl). exact Hd.
      * split; [discriminate|].
        intros H. specialize (H c (or_introl eq_refl)). congruence.
    + split; [discriminate|].
      intros H. assert (E : String a s0 = EmptyString) by
        (apply IH; intros d Hd; apply H; now right).
      discriminate E.
Qed.

(** What [lstrip] leaves is empty or starts with a visible character. *)
Lemma lstrip_head s c t : lstrip s = String c t -> is_space c = false.
Proof.
  induction s as [|d s IH]; simpl; [discriminate|].
  destruct (is_space d) eqn:Hd; [exact IH|].
  intros [= <- <-]. exact Hd.
Qed.

Lemma strip_empty s : strip s = EmptyString <-> blank s.
Proof.
  unfold strip. split.
  - intros H. apply lstrip_empty.
    destruct (lstrip s) as [|c t] eqn:Hl; [reflexivity|].
    apply rstrip_empty in H.
    pose proof (lstrip_head _ _ _ Hl) as Hc.
    specialize (H c (or_introl eq_refl)). congruence.
  - intros H. apply lstrip_empty in H. now rewrite H.
Qed.

Lemma truthy_strip s : truthy (strip s) = true <-> ~ blank s.
Proof.
  rewrite <- strip_empty. destruct (strip s); simpl; split; intros H;
    try congruence; try discriminate.
Qed.

Lemma prefix_occurs sub s :
  String.prefix sub s = true <-> exists post, s = (sub ++ post)%string.
Proof.
  revert s. induction sub as [|c sub IH]; intros s.
  - destruct s; simpl; (split; [intros _; eexists; reflexivity | reflexivity]).
  - destruct s as [|d s]; simpl.
    + split; [discriminate | intros [post H]; discriminate].
    + destruct (Ascii.ascii_dec c d) as [->|Hne].
      * rewrite IH. split; intros [post H]; exists post;
          [now rewrite H | now injection H].
      * split; [discriminate|]. intros [post H]. injection H as H1 _. congruence.
Qed.

Lemma contains_occurs sub s : contains sub s = true <-> occurs sub s.
Proof.
  unfold occurs. induction s as [|d s IH]; cbn [contains];
    rewrite orb_true_iff, prefix_occurs.
  - split.
    + intros [[post H] | H]; [now exists EmptyString, post | discriminate].
    + intros [pre [post H]]. left.
      destruct pre; simpl in H; [now exists post | discriminate].
  - rewrite IH. split.
    + intros [[post H] | [pre [post H]]].
      * now exists EmptyString, post.
      * exists (String d pre), post. simpl. now rewrite H.
    + intros [pre [post H]]. destruct pre as [|e pre]; simpl in H.
      * left. now exists post.
      * right. injection H as _ H. now exists pre, post.
Qed.

(** A text that occurs in [s] has its characters in [s]. *)
Lemma occurs_chars sub s c : occurs sub s -> In c (chars sub) -> In c (chars s).
Proof.
  intros [pre [post ->]] H. rewrite !chars_app, !in_app_iff. auto.
Qed.

Lemma no_space_lstrip s :
  (forall c, In c (chars s) -> is_space c = false) -> lstrip s = s.
Proof.
  destruct s as [|c s]; simpl; [reflexivity|].
  intros H. now rewrite (H c (or_introl eq_refl)).
Qed.

Lemma no_space_rstrip s :
  (forall c, In c (chars s) -> is_space c = false) -> rstrip s = s.
Proof.
  induction s as [|c s IH]; simpl; [reflexivity|].
  intros H. rewrite IH by (intros d Hd; apply H; now right).
  rewrite (H c (or_introl eq_refl)). now destruct s.
Qed.

Lemma no_space_strip s :
  (forall c, In c (chars s) -> is_space c = false) -> strip s = s.
Proof.
  intros H. unfold strip. rewrite (no_space_lstrip s H). now apply no_space_rstrip.
Qed.

(** Splitting what was joined gives the pieces back, as long as no piece
    holds the separator. *)
Lemma split_piece sep f :
  ~ In sep (chars f) -> split sep f = [f].
Proof.
  induction f as [|c f IH]; simpl; [reflexivity|].
  intros H. destruct (Ascii.eqb c sep) eqn:E.
  - apply Ascii.eqb_eq in E. exfalso. apply H. now left.
  - rewrite IH; [reflexivity|]. intros Hin. apply H. now right.
Qed.

Lemma split_app sep f rest :
  ~ In sep (chars f) ->
  split sep (f ++ String sep rest) = f :: split sep rest.
Proof.
  induction f as [|c f IH]; simpl.
  - intros _. now rewrite Ascii.eqb_refl.
  - intros H. destruct (Ascii.eqb c sep) eqn:E.
    + apply Ascii.eqb_eq in E. exfalso. apply H. now left.
    + rewrite IH; [reflexivity|]. intros Hin. apply H. now right.
Qed.

Lemma split_join sep fs :
  fs <> [] -> (forall f, In f fs -> ~ In sep (chars f)) ->
  split sep (join (String sep EmptyString) fs) = fs.
Proof.
  induction fs as [|f fs IH]; [congruence|].
  intros _ H. destruct fs as [|g fs].
  - simpl. apply split_piece. apply H. now left.
  - change (join (String sep EmptyString) (f :: g :: fs))
      with (f ++ String sep (join (String sep EmptyString) (g :: fs)))%string.
    rewrite split_app by (apply H; now left).
    f_equal. apply IH; [discriminate|]. intros h Hh. apply H. now right.
Qed.

Lemma chars_join sep fs c :
  In c (chars (join sep fs)) ->
  In c (chars sep) \/ exists f, In f fs /\ In c (chars f).
Proof.
  induction fs as [|f fs IH]; simpl; [intros []|].
  destruct fs as [|g fs].
  - intros H. right. exists f. auto.
  - rewrite !chars_app, !in_app_iff. intros [H | [H | H]].
    + right. exists f. auto.
    + now left.
    + destruct (IH H) as [H' | [h [Hh Hc]]]; [now left|].
      right. exists h. split; [now right | exact Hc].
Qed.

End PyFacts.

(* ================================================================== *)
(** * Properties of the analyzer *)
(* ================================================================== *)

Module AnalyzerFacts.
Section AnalyzerFacts.
Context {F : Type} {N : Num F}.
Import Analyzer Closed.

Lemma mapM_map_ok {A B C : Type} (f : B -> Py.result C) (g : A -> B)
    (h : A -> C) (xs : list A) :
  (forall x, In x xs -> f (g x) = Py.Ok (h x)) ->
  Py.mapM f (map g xs) = Py.Ok (map h xs).
Proof.
  induction xs as [|x xs IH]; simpl; [reflexivity|].
  intros H. rewrite (H x (or_introl eq_refl)). simpl.
  rewrite IH by (intros y Hy; apply H; now right). reflexivity.
Qed.

Lemma column_map {A : Type} (f : A -> list F) (g : A -> F) (j : nat)
    (xs : list A) :
  (forall x, nth_error (f x) j = Some (g x)) ->
  Np.column (Np.Arr2 (map f xs)) j = Py.Ok (map g xs).
Proof.
  intros H. unfold Np.column.
  apply (mapM_map_ok _ f g). intros x _. now rewrite H.
Qed.

Lemma to_quat_extrinsic (p r y : F) :
  to_quat (p, r, y) = Py.Ok (Rotation.as_quat (extrinsic_xyz r p y)).
Proof. reflexivity. Qed.

(** On a table with at least one row every step of the analysis succeeds,
    and the results are those of the closed form. *)
Lemma analyze_scenario_cons (self : FlightScenarioAnalyzer F)
    (s : Sample F) (rest : list (Sample F)) (name : string) :
  analyze_scenario self (s :: rest) name = Py.Ok (analysis self s rest name).
Proof.
  unfold analyze_scenario.
  set (data := s :: rest).
  assert (Harr : forall (f : Sample F -> list F),
            Np.array (map f data) = Np.Arr2 (map f data)) by reflexivity.
  rewrite !Harr.
  assert (Hit : Np.iter3 (Np.Arr2
             (map (fun row => [pitch row; roll row; heading_true row]) data))
           = Py.Ok (map (fun row => (pitch row, roll row, heading_true row)) data)).
  { unfold Np.iter3. apply mapM_map_ok. reflexivity. }
  rewrite Hit. cbn [Py.bind].
  rewrite (mapM_map_ok to_quat _ quat_row)
    by (intros x _; apply to_quat_extrinsic).
  cbn [Py.bind]. rewrite (Harr quat_row).
  rewrite !(column_map _ pitch 0) by reflexivity.
  rewrite !(column_map _ roll 1) by reflexivity.
  rewrite !(column_map _ heading_true 2) by reflexivity.
  rewrite !(column_map _ P 0) by reflexivity.
  rewrite !(column_map _ Q 1) by reflexivity.
  rewrite !(column_map _ R 2) by reflexivity.
  rewrite (column_map quat_row (fun r => Rotation.qx (rotation_of r)) 0)
    by reflexivity.
  rewrite (column_map quat_row (fun r => Rotation.qy (rotation_of r)) 1)
    by reflexivity.
  rewrite (column_map quat_row (fun r => Rotation.qz (rotation_of r)) 2)
    by reflexivity.
  rewrite (column_map quat_row (fun r => Rotation.qw (rotation_of r)) 3)
    by reflexivity.
  reflexivity.
Qed.

(** On the empty table the first statistic already fails: the Euler array
    has one dimension and cannot be sliced by column. *)
Lemma analyze_scenario_nil (self : FlightScenarioAnalyzer F) (name : string) :
  analyze_scenario self [] name = Py.Raise Np.too_many_indices.
Proof. reflexivity. Qed.

End AnalyzerFacts.
End AnalyzerFacts.

(* ================================================================== *)
(** * Properties of the summation *)
(* ================================================================== *)

Module NpFacts.
Section NpFacts.
Context {F : Type} {N : Num F}.

Lemma add_lanes_length (r g : list F) :
  List.length (Np.add_lanes r g) = List.length r.
Proof.
  revert g. induction r as [|a r IH]; intros [|b g]; cbn; auto.
Qed.

Lemma unrolled_length (k : nat) (r xs : list F) :
  List.length (fst (Np.unrolled k r xs)) = List.length r.
Proof.
  revert r xs. induction k as [|k IH]; intros r xs; cbn [Np.unrolled];
    [reflexivity|].
  now rewrite IH, add_lanes_length.
Qed.

(** Below eight elements the sum is the running sum from zero. *)
Lemma sum_below_eight (xs : list F) :
  (List.length xs < 8)%nat -> Np.sum xs = fold_left fadd xs (of_int 0).
Proof.
  intros H. unfold Np.sum. apply Nat.ltb_lt in H.
  generalize (List.length xs) at 1. intros f.
  destruct f; cbn [Np.pairwise_sum]; now rewrite H.
Qed.

Lemma halves_are_shorter (n : nat) :
  (128 < n)%nat ->
  (0 < n / 2 - (n / 2) mod 8 < n)%nat.
Proof.
  intros H. pose proof (Nat.mod_upper_bound (n / 2) 8 ltac:(lia)).
  pose proof (Nat.div_mod_eq n 2). pose proof (Nat.mod_upper_bound n 2 ltac:(lia)).
  lia.
Qed.

(** The fuel is enough: more of it changes nothing. *)
Lemma pairwise_sum_fuel (f g : nat) (xs : list F) :
  (List.length xs <= f)%nat -> (List.length xs <= g)%nat ->
  Np.pairwise_sum f xs = Np.pairwise_sum g xs.
Proof.
  revert g xs. induction f as [|f IH]; intros g xs Hf Hg.
  - assert (H8 : (List.length xs <? 8)%nat = true) by (apply Nat.ltb_lt; lia).
    destruct g; cbn [Np.pairwise_sum]; now rewrite H8.
  - destruct g as [|g].
    + assert (H8 : (List.length xs <? 8)%nat = true) by (apply Nat.ltb_lt; lia).
      cbn [Np.pairwise_sum]. now rewrite H8.
    + cbn [Np.pairwise_sum].
      destruct (Nat.ltb_spec (List.length xs) 8) as [H8 | H8]; [reflexivity|].
      destruct (Nat.leb_spec (List.length xs) 128) as [H128 | H128];
        [reflexivity|].
      pose proof (halves_are_shorter _ H128) as Hn2.
      set (n2 := (List.length xs / 2 - (List.length xs / 2) mod 8)%nat) in *.
      assert (H1 : List.length (firstn n2 xs) = n2)
        by (apply firstn_length_le; lia).
      assert (H2 : List.length (skipn n2 xs) = (List.length xs - n2)%nat)
        by apply length_skipn.
      rewrite (IH g (firstn n2 xs)) by lia.
      rewrite (IH g (skipn n2 xs)) by lia.
      reflexivity.
Qed.

(** ** A property that addition keeps *)

Section Closed.
Variable P : F -> Prop.
Hypothesis P_zero : P (of_int 0).
Hypothesis P_add : forall a b, P a -> P b -> P (fadd a b).

Lemma fold_closed (xs : list F) (a : F) :
  Forall P xs -> P a -> P (fold_left fadd xs a).
Proof.
  revert a. induction xs as [|x xs IH]; intros a Hxs Ha; cbn; [exact Ha|].
  inversion Hxs; subst. apply IH; auto.
Qed.

Lemma Forall_firstn_skipn (k : nat) (xs : list F) :
  Forall P xs -> Forall P (firstn k xs) /\ Forall P (skipn k xs).
Proof.
  intros H. rewrite <- (firstn_skipn k xs) in H. now apply Forall_app in H.
Qed.

Lemma add_lanes_closed (r g : list F) :
  Forall P r -> Forall P g -> Forall P (Np.add_lanes r g).
Proof.
  revert g. induction r as [|a r IH]; intros [|b g] Hr Hg; cbn; auto.
  inversion Hr; inversion Hg; subst. constructor; auto.
Qed.

Lemma unrolled_closed (k : nat) (r xs : list F) :
  Forall P r -> Forall P xs ->
  Forall P (fst (Np.unrolled k r xs)) /\ Forall P (snd (Np.unrolled k r xs)).
Proof.
  revert r xs. induction k as [|k IH]; intros r xs Hr Hxs; cbn [Np.unrolled];
    [auto|].
  destruct (Forall_firstn_skipn 8 xs Hxs) as [H1 H2].
  apply IH; [apply add_lanes_closed|]; assumption.
Qed.

Lemma combine_lanes_closed (r : list F) : Forall P r -> P (Np.combine_lanes r).
Proof.
  intros H. unfold Np.combine_lanes.
  repeat (destruct r as [|? r]; [exact P_zero|]; inversion H as [|? ? ? H']; subst;
          clear H; rename H' into H).
  destruct r; [|exact P_zero]. auto 10.
Qed.

Lemma sum_block_closed (xs : list F) : Forall P xs -> P (Np.sum_block xs).
Proof.
  intros H. unfold Np.sum_block.
  destruct (Forall_firstn_skipn 8 xs H) as [H1 H2].
  pose proof (unrolled_closed (List.length xs / 8 - 1) _ _ H1 H2) as [Hr Hrest].
  destruct (Np.unrolled _ _ _) as [r rest]. cbn [fst snd] in *.
  apply fold_closed; [exact Hrest | now apply combine_lanes_closed].
Qed.

Lemma pairwise_sum_closed (f : nat) (xs : list F) :
  Forall P xs -> P (Np.pairwise_sum f xs).
Proof.
  revert xs. induction f as [|f IH]; intros xs H; cbn [Np.pairwise_sum].
  - destruct (_ <? 8)%nat; [now apply fold_closed|].
    destruct (_ <=? 128)%nat; now apply sum_block_closed.
  - destruct (_ <? 8)%nat; [now apply fold_closed|].
    destruct (_ <=? 128)%nat; [now apply sum_block_closed|].
    destruct (Forall_firstn_skipn
                (List.length xs / 2 - (List.length xs / 2) mod 8) xs H).
    apply P_add; apply IH; assumption.
Qed.

Lemma sum_closed (xs : list F) : Forall P xs -> P (Np.sum xs).
Proof. apply pairwise_sum_closed. Qed.

End Closed.

(** ** A value that addition cannot leave *)

Section Absorbing.
Variable z : F.
Hypothesis z_l : forall x, fadd z x = z.
Hypothesis z_r : forall x, fadd x z = z.

Lemma fold_sticks (xs : list F) (a : F) :
  a = z \/ In z xs -> fold_left fadd xs a = z.
Proof.
  revert a. induction xs as [|x xs IH]; intros a H; cbn.
  - destruct H as [H | []]. exact H.
  - apply IH. destruct H as [-> | [-> | H]]; auto.
Qed.

Lemma in_firstn_skipn (k : nat) (xs : list F) :
  In z xs -> In z (firstn k xs) \/ In z (skipn k xs).
Proof.
  intros H. rewrite <- (firstn_skipn k xs) in H. now apply in_app_or in H.
Qed.

Lemma add_lanes_sticks (r g : list F) :
  (List.length g <= List.length r)%nat ->
  In z r \/ In z g -> In z (Np.add_lanes r g).
Proof.
  revert g. induction r as [|a r IH]; intros [|b g] Hlen H; cbn in *.
  - destruct H as [[] | []].
  - lia.
  - destruct H as [H | []]. exact H.
  - destruct H as [[-> | H] | [-> | H]]; auto.
    + right. apply IH; [lia | auto].
    + right. apply IH; [lia | auto].
Qed.

Lemma unrolled_sticks (k : nat) (r xs : list F) :
  List.length r = 8%nat ->
  In z r \/ In z xs ->
  In z (fst (Np.unrolled k r xs)) \/ In z (snd (Np.unrolled k r xs)).
Proof.
  revert r xs. induction k as [|k IH]; intros r xs Hr H; cbn [Np.unrolled];
    [exact H|].
  apply IH; [now rewrite add_lanes_length|].
  destruct H as [H | H].
  - left. apply add_lanes_sticks; [rewrite length_firstn; lia | now left].
  - destruct (in_firstn_skipn 8 xs H) as [H1 | H2]; [|now right].
    left. apply add_lanes_sticks; [rewrite length_firstn; lia | now right].
Qed.

Lemma combine_lanes_sticks (r : list F) :
  List.length r = 8%nat -> In z r -> Np.combine_lanes r = z.
Proof.
  intros Hlen H.
  do 8 (destruct r as [|? r]; [discriminate Hlen|]).
  destruct r; [|discriminate Hlen]. cbn [Np.combine_lanes].
  cbn [In] in H.
  repeat (destruct H as [-> | H];
          [repeat first [rewrite z_l | rewrite z_r]; reflexivity|]).
  destruct H.
Qed.

Lemma sum_block_sticks (xs : list F) :
  (8 <= List.length xs)%nat -> In z xs -> Np.sum_block xs = z.
Proof.
  intros Hlen H. unfold Np.sum_block.
  assert (H8 : List.length (firstn 8 xs) = 8%nat) by (apply firstn_length_le; lia).
  pose proof (unrolled_sticks (List.length xs / 8 - 1) _ (skipn 8 xs) H8
                (in_firstn_skipn 8 xs H)) as Hs.
  pose proof (unrolled_length (List.length xs / 8 - 1) (firstn 8 xs) (skipn 8 xs))
    as Hl. rewrite H8 in Hl.
  destruct (Np.unrolled _ _ _) as [r rest]. cbn [fst snd] in *.
  apply fold_sticks. destruct Hs as [Hs | Hs]; [left | now right].
  now apply combine_lanes_sticks.
Qed.

Lemma pairwise_sum_sticks (f : nat) (xs : list F) :
  In z xs -> Np.pairwise_sum f xs = z.
Proof.
  revert xs. induction f as [|f IH]; intros xs H; cbn [Np.pairwise_sum].
  - destruct (Nat.ltb_spec (List.length xs) 8); [apply fold_sticks; now right|].
    destruct (_ <=? 128)%nat; now apply sum_block_sticks.
  - destruct (Nat.ltb_spec (List.length xs) 8); [apply fold_sticks; now right|].
    destruct (_ <=? 128)%nat; [now apply sum_block_sticks|].
    destruct (in_firstn_skipn
                (List.length xs / 2 - (List.length xs / 2) mod 8) xs H) as [H1 | H2].
    + rewrite (IH _ H1). apply z_l.
    + rewrite (IH _ H2). apply z_r.
Qed.

Lemma sum_sticks (xs : list F) : In z xs -> Np.sum xs = z.
Proof. apply pairwise_sum_sticks. Qed.

End Absorbing.

End NpFacts.
End NpFacts.


(* ================================================================== *)
(** * Statistics and time axis on binary64 *)
(* ================================================================== *)

Module FloatFacts.
Import Analyzer Closed.
Local Open Scope float_scope.

Lemma time_axis_nth (L : Libm) (data : DataFrame float) (i : nat) :
  (i < List.length data)%nat ->
  nth_error (time_axis (N := float_num L) (init (N := float_num L)) data) i
  = Some (F64.of_Z (Z.of_nat i) / 5).
Proof.
  intros Hi. unfold time_axis, Np.arange.
  rewrite !nth_error_map, nth_error_seq.
  apply Nat.ltb_lt in Hi. rewrite Hi. reflexivity.
Qed.

(** C7: the time axis of a table of n rows has n entries, entry i being
    i / 5.0; every table with at least one row is analyzed and its results
    carry this axis; for ten rows it is 0.0, 0.2, ..., 1.8. *)
Theorem time_axis_is_index_over_rate (L : Libm) (data : DataFrame float)
    (name : string) :
  let self := init (N := float_num L) in
  let time_of := time_axis (N := float_num L) self in
  List.length (time_of data) = List.length data
  /\ (forall i, (i < List.length data)%nat ->
        nth_error (time_of data) i = Some (F64.of_Z (Z.of_nat i) / 5))
  /\ (List.length data = 10%nat ->
        time_of data = [0; 0.2; 0.4; 0.6; 0.8; 1; 1.2; 1.4; 1.6; 1.8])
  /\ (data <> [] ->
        exists r, analyze_scenario (N := float_num L) self data name = Py.Ok r
                  /\ time r = time_of data).
Proof.
  cbv zeta. repeat split.
  - unfold time_axis, Np.arange. now rewrite !length_map, length_seq.
  - intros i Hi. now apply time_axis_nth.
  - intros H10. unfold time_axis. rewrite H10. reflexivity.
  - intros Hne. destruct data as [|s rest]; [congruence|].
    exists (analysis (N := float_num L) (init (N := float_num L)) s rest name).
    split; [apply AnalyzerFacts.analyze_scenario_cons | reflexivity].
Qed.

Lemma time_axis_is_index_over_rate_witness :
  List.length Fixtures.ten_rows = 10%nat /\
  time_axis (N := float_num Fixtures.taylor_libm)
    (init (N := float_num Fixtures.taylor_libm)) Fixtures.ten_rows
  = [0; 0.2; 0.4; 0.6; 0.8; 1; 1.2; 1.4; 1.6; 1.8].
Proof.
  split; [reflexivity|].
  apply (time_axis_is_index_over_rate Fixtures.taylor_libm Fixtures.ten_rows
           "cruising").
  reflexivity.
Defined.

(** C6: when the pitch column is 0, 10, -10, 5 the analysis succeeds and
    reports pitch_mean 1.25 and pitch_range 20.0. *)
Theorem pitch_mean_and_range (L : Libm) (data : DataFrame float)
    (name : string) :
  map pitch data = [0; 10; -10; 5] ->
  exists r,
    analyze_scenario (N := float_num L) (init (N := float_num L)) data name
      = Py.Ok r
    /\ pitch_mean (euler (stats r)) = 1.25
    /\ pitch_range (euler (stats r)) = 20.
Proof.
  intros H. destruct data as [|s rest]; [discriminate|].
  rewrite AnalyzerFacts.analyze_scenario_cons.
  eexists. split; [reflexivity|].
  cbn [stats euler pitch_mean pitch_range analysis].
  rewrite H. simpl in H. injection H as Hs Hrest. rewrite Hs, Hrest.
  split; reflexivity.
Qed.

Lemma pitch_mean_and_range_witness :
  exists r,
    analyze_scenario (N := float_num Fixtures.taylor_libm)
      (init (N := float_num Fixtures.taylor_libm)) Fixtures.four_rows "climbing"
      = Py.Ok r
    /\ pitch_mean (euler (stats r)) = 1.25
    /\ pitch_range (euler (stats r)) = 20.
Proof.
  apply (pitch_mean_and_range Fixtures.taylor_libm Fixtures.four_rows
           "climbing").
  reflexivity.
Defined.

End FloatFacts.

(* ================================================================== *)
(** * Properties of the parser *)
(* ================================================================== *)

Module ParserFacts.
Import Py Spec PyFacts.
Local Open Scope string_scope.

Lemma float_char_in c :
  float_char c = true -> In c (chars "0123456789+-.einfa").
Proof.
  unfold float_char. intros H. apply contains_occurs in H.
  apply (occurs_chars _ _ c H). now left.
Qed.

Lemma float_char_visible c : float_char c = true -> is_space c = false.
Proof.
  intros H. apply float_char_in in H. simpl in H.
  repeat (destruct H as [<- | H]; [reflexivity|]). destruct H.
Qed.

Lemma float_char_not_sep c : float_char c = true -> c <> "|"%char.
Proof.
  intros H. apply float_char_in in H. simpl in H.
  repeat (destruct H as [<- | H]; [discriminate|]). destruct H.
Qed.

Lemma float_char_not_p c : float_char c = true -> c <> "p"%char.
Proof.
  intros H. apply float_char_in in H. simpl in H.
  repeat (destruct H as [<- | H]; [discriminate|]). destruct H.
Qed.

Lemma float_text_strip t : float_text t -> strip t = t.
Proof.
  intros [_ H]. apply no_space_strip. intros c Hc.
  apply float_char_visible. now apply H.
Qed.

Lemma list_max_all (n : nat) (l : list nat) :
  l <> [] -> (forall x, In x l -> x = n) -> list_max l = n.
Proof.
  induction l as [|x l IH]; [congruence|].
  intros _ H. simpl. rewrite (H x (or_introl eq_refl)).
  destruct l as [|y l]; [simpl; lia|].
  rewrite IH; [lia | discriminate | intros z Hz; apply H; now right].
Qed.

Lemma Forall2_in_right {A B : Type} (P : A -> B -> Prop) l r y :
  Forall2 P l r -> In y r -> exists x, In x l /\ P x y.
Proof.
  induction 1 as [|a b l r Hab _ IH]; simpl; [intros []|].
  intros [<- | Hy].
  - exists a. auto.
  - destruct (IH Hy) as [x [Hx Hp]]. exists x. auto.
Qed.

Lemma is_data_line_iff line :
  Parser.is_data_line line = true <-> data_line line.
Proof.
  unfold Parser.is_data_line, data_line.
  rewrite !andb_true_iff, negb_true_iff, truthy_strip, contains_occurs.
  rewrite <- (contains_occurs "pitch"), not_true_iff_false. tauto.
Qed.

Lemma header_is_not_data header :
  occurs "pitch" header -> Parser.is_data_line header = false.
Proof.
  intros H. apply not_true_iff_false. rewrite is_data_line_iff.
  intros [_ [_ Hn]]. now apply Hn.
Qed.

Section WithFloat.
Variable py_float : string -> option float.

Lemma mapM_float_of fs vs :
  Forall2 (fun f v => py_float (strip f) = Some v) fs vs ->
  mapM (fun x => Parser.float_of py_float (strip x)) fs = Ok vs.
Proof.
  induction 1 as [|f v fs vs Hf _ IH]; simpl; [reflexivity|].
  unfold Parser.float_of at 1. rewrite Hf. simpl. now rewrite IH.
Qed.

Lemma parse_values_well_formed line vs :
  well_formed py_float line vs ->
  Parser.parse_values py_float (strip line) = Ok vs.
Proof.
  intros [_ [_ H]]. unfold Parser.parse_values. now apply mapM_float_of.
Qed.

Lemma mkDataFrame_nine (rows : list (list float)) :
  (forall r, In r rows -> List.length r = 9%nat) ->
  Parser.mkDataFrame rows Parser.columns
  = Ok (map Parser.row_of_values rows).
Proof.
  intros H. destruct rows as [|r rows]; [reflexivity|].
  unfold Parser.mkDataFrame.
  rewrite (list_max_all 9); [reflexivity | discriminate |].
  intros x Hx. apply in_map_iff in Hx. destruct Hx as [r' [<- Hr']]. now apply H.
Qed.

(** The lines of a file that are kept, and what is made of them, when all
    of them are well formed. *)
Lemma parse_lines_well_formed (lines : list string) (rows : list (list float)) :
  Forall2 (well_formed py_float) (filter Parser.is_data_line lines) rows ->
  Parser.parse_lines py_float lines = Ok (map Parser.row_of_values rows).
Proof.
  intros H. unfold Parser.parse_lines.
  assert (Hm : mapM (Parser.parse_values py_float)
                 (map strip (filter Parser.is_data_line lines)) = Ok rows).
  { induction H as [|l r ls rs Hl _ IH]; simpl; [reflexivity|].
    rewrite (parse_values_well_formed _ _ Hl). simpl. now rewrite IH. }
  rewrite Hm. simpl. apply mkDataFrame_nine.
  intros r Hr. destruct (Forall2_in_right _ _ _ r H Hr) as [l [_ [_ [Hlen _]]]].
  exact Hlen.
Qed.

(** A file without a single data line gives the empty table. *)
Lemma parse_lines_no_data (lines : list string) :
  (forall line, In line lines -> ~ data_line line) ->
  Parser.parse_lines py_float lines = Ok [].
Proof.
  intros H. unfold Parser.parse_lines.
  assert (Hf : filter Parser.is_data_line lines = []).
  { induction lines as [|l ls IH]; simpl; [reflexivity|].
    destruct (Parser.is_data_line l) eqn:E.
    - apply is_data_line_iff in E. exfalso. apply (H l); [now left | exact E].
    - apply IH. intros x Hx. apply H. now right. }
  now rewrite Hf.
Qed.

End WithFloat.
End ParserFacts.

Module ParserTheorems.
Import Py Spec PyFacts ParserFacts.
Local Open Scope string_scope.

(** C3: a line is kept as a data line exactly when it is not blank, holds
    the separator and does not hold the text pitch; and a file made of a
    header holding pitch followed by three well-formed 9-field data lines is
    read as a table of exactly three rows, those of the three lines. *)
Theorem data_lines_and_header (py_float : string -> option float)
    (open_read : string -> result string) :
  (forall line, Parser.is_data_line line = true <-> data_line line)
  /\ (forall path text header l1 l2 l3 v1 v2 v3,
        open_read path = Ok text ->
        readlines text = [header; l1; l2; l3] ->
        occurs "pitch" header ->
        well_formed py_float l1 v1 ->
        well_formed py_float l2 v2 ->
        well_formed py_float l3 v3 ->
        exists table,
          Parser.read_xplane_data py_float open_read path = Ok table
          /\ table = map Parser.row_of_values [v1; v2; v3]
          /\ List.length table = 3%nat).
Proof.
  split; [exact is_data_line_iff|].
  intros path text header l1 l2 l3 v1 v2 v3 Hopen Hlines Hh H1 H2 H3.
  exists (map Parser.row_of_values [v1; v2; v3]).
  split; [|split; reflexivity].
  unfold Parser.read_xplane_data. rewrite Hopen. cbn [bind]. rewrite Hlines.
  apply parse_lines_well_formed.
  cbn [filter]. rewrite (header_is_not_data header Hh).
  rewrite (proj2 (is_data_line_iff l1) (proj1 H1)).
  rewrite (proj2 (is_data_line_iff l2) (proj1 H2)).
  rewrite (proj2 (is_data_line_iff l3) (proj1 H3)).
  repeat (apply Forall2_cons; [assumption|]). apply Forall2_nil.
Qed.

Ltac well_formed_by_computation :=
  split; [apply is_data_line_iff; vm_compute; reflexivity
         | split; [reflexivity
                  | unfold fields;
                    match goal with
                    | |- Forall2 _ ?fs _ =>
                        let fs' := eval vm_compute in fs in
                        change fs with fs'
                    end;
                    repeat (apply Forall2_cons; [vm_compute; reflexivity|]);
                    apply Forall2_nil]].

Lemma data_lines_and_header_witness :
  exists table,
    Parser.read_xplane_data Fixtures.decimal_float
      (Fixtures.files [("cruising_data.txt", Fixtures.three_line_file)])
      "cruising_data.txt" = Ok table
    /\ table = map Parser.row_of_values
         [[2.5; -1; 90; 88.5; 1.5; 89; 0.125; -0.25; 0];
          [3; -1.5; 91; 89.5; 1.5; 90; 0.25; -0.5; 0];
          [3.5; -2; 92; 90.5; 1.5; 91; 0.5; -0.75; 0]]%float
    /\ List.length table = 3%nat.
Proof.
  refine (proj2 (data_lines_and_header Fixtures.decimal_float
            (Fixtures.files [("cruising_data.txt", Fixtures.three_line_file)]))
          "cruising_data.txt" Fixtures.three_line_file
          _ _ _ _ _ _ _ _ _ _ _ _ _).
  - vm_compute. reflexivity.
  - vm_compute. reflexivity.
  - apply contains_occurs. vm_compute. reflexivity.
  - well_formed_by_computation.
  - well_formed_by_computation.
  - well_formed_by_computation.
Defined.

(** The separator stands between any two joined texts. *)
Lemma join_occurs_sep t1 t2 ts : occurs "|" (join "|" (t1 :: t2 :: ts)).
Proof. exists t1, (join "|" (t2 :: ts)). reflexivity. Qed.

Lemma chars_in_join sep t ts c :
  In t ts -> In c (chars t) -> In c (chars (join sep ts)).
Proof.
  induction ts as [|u ts IH]; [intros []|].
  intros Ht Hc. destruct ts as [|w ts].
  - destruct Ht as [-> | []]. exact Hc.
  - change (join sep (u :: w :: ts)) with (u ++ sep ++ join sep (w :: ts)).
    rewrite !chars_app, !in_app_iff. destruct Ht as [-> | Ht]; [now left|].
    right. right. now apply IH.
Qed.

Lemma filter_all {A : Type} (f : A -> bool) (l : list A) :
  (forall x, In x l -> f x = true) -> filter f l = l.
Proof.
  induction l as [|x l IH]; simpl; [reflexivity|].
  intros H. rewrite (H x (or_introl eq_refl)).
  f_equal. apply IH. intros y Hy. apply H. now right.
Qed.

Section Roundtrip.
Variable py_float : string -> option float.

(** The nine texts of a serialized sample make a well-formed line again. *)
Lemma serialize_well_formed (vs : list float) (texts : list string) :
  List.length vs = 9%nat ->
  Forall2 (fun v t => py_float t = Some v /\ float_text t) vs texts ->
  well_formed py_float (serialize texts) vs.
Proof.
  intros Hlen H.
  assert (Htext : forall t, In t texts -> float_text t).
  { intros t Ht.
    destruct (Forall2_in_right _ _ _ t H Ht) as [v [_ [_ Hft]]]. exact Hft. }
  assert (Hchars : forall c, In c (chars (serialize texts)) ->
            c = "|"%char \/ float_char c = true).
  { intros c Hc. apply chars_join in Hc. destruct Hc as [[<- | []] | [t [Ht Hc]]].
    - now left.
    - right. now apply (proj2 (Htext t Ht)). }
  assert (Hvis : forall c, In c (chars (serialize texts)) -> is_space c = false).
  { intros c Hc. destruct (Hchars c Hc) as [-> | Hf]; [reflexivity|].
    now apply float_char_visible. }
  pose proof (Forall2_length H) as Hl. rewrite Hlen in Hl.
  destruct texts as [|t1 [|t2 ts]]; try discriminate Hl.
  split; [|split; [exact Hlen|]].
  - (* a data line *)
    split; [|split].
    + intros Hb. destruct (Htext t1 (or_introl eq_refl)) as [Hne _].
      destruct t1 as [|c t1]; [congruence|].
      assert (Hc : In c (chars (serialize (String c t1 :: t2 :: ts)))).
      { apply (chars_in_join _ (String c t1)); now left. }
      specialize (Hb c Hc). rewrite (Hvis c Hc) in Hb. discriminate Hb.
    + apply join_occurs_sep.
    + intros Hp.
      assert (Hc : In "p"%char (chars (serialize (t1 :: t2 :: ts)))).
      { apply (occurs_chars _ _ _ Hp). now left. }
      destruct (Hchars _ Hc) as [E | E]; [discriminate E|].
      now apply float_char_not_p in E.
  - (* its fields are the texts *)
    unfold fields. rewrite (no_space_strip _ Hvis).
    unfold serialize. rewrite split_join; [|discriminate|].
    + rewrite filter_all.
      * clear Hl Hlen Hchars Hvis.
        induction H as [|v t vs' ts' [Hv Ht] _ IH]; constructor.
        -- now rewrite (float_text_strip t Ht).
        -- apply IH. intros u Hu. apply Htext. now right.
      * intros t Ht. rewrite (float_text_strip t (Htext t Ht)).
        destruct (Htext t Ht) as [Hne _]. now destruct t.
    + intros t Ht Hin. apply (float_char_not_sep "|"%char); [|reflexivity].
      now apply (proj2 (Htext t Ht)).
Qed.

(** A text without a line break is read as one line. *)
Lemma readlines_one_line (t : string) :
  t <> EmptyString ->
  (forall c, In c (chars t) -> c <> LF /\ c <> CR) ->
  readlines t = [t].
Proof.
  induction t as [|c t IH]; [congruence|]. intros _ H.
  destruct (H c (or_introl eq_refl)) as [Hlf Hcr].
  cbn [readlines].
  apply Ascii.eqb_neq in Hlf, Hcr. rewrite Hlf, Hcr.
  destruct t as [|c' t']; [reflexivity|].
  rewrite IH; [reflexivity | discriminate|].
  intros x Hx. apply H. now right.
Qed.

Lemma row_values_of_nine (vs : list float) :
  List.length vs = 9%nat -> row_values (Parser.row_of_values vs) = vs.
Proof.
  intros H.
  do 9 (destruct vs as [|? vs]; [discriminate H|]).
  destruct vs; [reflexivity | discriminate H].
Qed.

(** C4: a well-formed line is parsed into a table of one sample whose nine
    values are the numbers written on the line; when these nine values are
    written back as texts that [float] reads as the same values, and the
    texts are joined with the separator, the result is a data line again,
    and parsing it, as a list of lines or as the text of a file, gives the
    table of the same sample: the same nine values in the same columns. *)
Theorem parse_serialize_roundtrip (line : string) (vs : list float)
    (texts : list string) :
  well_formed py_float line vs ->
  Forall2 (fun v t => py_float t = Some v /\ float_text t) vs texts ->
  exists sample,
    Parser.parse_lines py_float [line] = Ok [sample]
    /\ row_values sample = vs
    /\ Parser.is_data_line (serialize texts) = true
    /\ Parser.parse_lines py_float [serialize texts] = Ok [sample]
    /\ forall (open_read : string -> result string) (path : string),
         open_read path = Ok (serialize texts) ->
         Parser.read_xplane_data py_float open_read path = Ok [sample].
Proof.
  intros Hline Htexts.
  pose proof (serialize_well_formed vs texts (proj1 (proj2 Hline)) Htexts) as Hs.
  pose proof (proj2 (is_data_line_iff _) (proj1 Hs)) as Hd.
  pose proof (proj2 (is_data_line_iff _) (proj1 Hline)) as Hd'.
  assert (Hre : Parser.parse_lines py_float [serialize texts]
                = Ok [Parser.row_of_values vs]).
  { rewrite (parse_lines_well_formed py_float [serialize texts] [vs]);
      [reflexivity|].
    cbn [filter]. rewrite Hd.
    apply Forall2_cons; [exact Hs | apply Forall2_nil]. }
  exists (Parser.row_of_values vs).
  split.
  { rewrite (parse_lines_well_formed py_float [line] [vs]); [reflexivity|].
    cbn [filter]. rewrite Hd'.
    apply Forall2_cons; [exact Hline | apply Forall2_nil]. }
  split; [apply row_values_of_nine; exact (proj1 (proj2 Hline))|].
  split; [exact Hd|]. split; [exact Hre|].
  intros open_read path Hopen. unfold Parser.read_xplane_data.
  rewrite Hopen. cbn [bind]. rewrite readlines_one_line; [exact Hre| |].
  - intros E. rewrite E in Hd. discriminate Hd.
  - intros c Hc. unfold serialize in Hc. apply chars_join in Hc.
    destruct Hc as [[<- | []] | [t [Ht Hc]]]; [split; discriminate|].
    destruct (Forall2_in_right _ _ _ t Htexts Ht) as [v [_ [_ [_ Hft]]]].
    specialize (Hft c Hc).
    split; intros ->; vm_compute in Hft; discriminate Hft.
Qed.

End Roundtrip.

Ltac float_text_by_computation :=
  split; [vm_compute; reflexivity
         | split; [discriminate
                  | intros c Hc; simpl in Hc;
                    repeat (destruct Hc as [<- | Hc]; [vm_compute; reflexivity|]);
                    destruct Hc]].

Lemma parse_serialize_roundtrip_witness :
  exists sample,
    Parser.parse_lines Fixtures.decimal_float
      ["  2.5 | -1.0 | 90.0 | 88.5 | 1.5 | 89.0 | 0.125 | -0.25 | 0.0 |"]
    = Ok [sample]
    /\ row_values sample = [2.5; -1; 90; 88.5; 1.5; 89; 0.125; -0.25; 0]%float
    /\ Parser.is_data_line
         (serialize ["2.5"; "-1.0"; "90.0"; "88.5"; "1.5"; "89.0"; "0.125";
                     "-0.25"; "0.0"]) = true
    /\ Parser.parse_lines Fixtures.decimal_float
         [serialize ["2.5"; "-1.0"; "90.0"; "88.5"; "1.5"; "89.0"; "0.125";
                     "-0.25"; "0.0"]]
       = Ok [sample]
    /\ forall (open_read : string -> result string) (path : string),
         open_read path
         = Ok (serialize ["2.5"; "-1.0"; "90.0"; "88.5"; "1.5"; "89.0";
                          "0.125"; "-0.25"; "0.0"]) ->
         Parser.read_xplane_data Fixtures.decimal_float open_read path
         = Ok [sample].
Proof.
  apply (parse_serialize_roundtrip Fixtures.decimal_float).
  - well_formed_by_computation.
  - repeat (apply Forall2_cons; [float_text_by_computation|]).
    apply Forall2_nil.
Defined.

End ParserTheorems.

(* ================================================================== *)
(** * Properties of the driver *)
(* ================================================================== *)

Module DriverFacts.
Import Py Driver.
Local Open Scope string_scope.

Lemma print_all_out (ls out : list string) :
  print_all ls out = ((out ++ ls)%list, Ok tt).
Proof.
  revert out. induction ls as [|l ls IH]; intros out.
  - simpl. unfold ret. now rewrite app_nil_r.
  - cbn [print_all]. unfold iobind, print. rewrite IH.
    now rewrite <- app_assoc.
Qed.

Section WithWorld.
Variable L : Libm.
Variable py_float : string -> option float.
Variable open_read : string -> result string.
Variable format_6f : float -> string.
Variable plot_and_save : Analyzer.Results float -> string -> result unit.

Abbreviation analyzer := (Analyzer.init (N := float_num L)).
Abbreviation turn_ := (turn L py_float open_read format_6f plot_and_save analyzer).

Abbreviation outcome := (outcome L py_float open_read format_6f plot_and_save).

(** A turn never raises: it prints its lines after what was printed, and
    leaves the dictionary as it was or with the scenario's results set. *)
Lemma turn_out (all : results_dict) (s p : string) (out : list string) :
  exists lines all',
    turn_ all s p out = ((out ++ lines)%list, Ok all')
    /\ outcome s p lines.
Proof.
  unfold turn, try_except, attempt, handler.
  unfold iobind, print, lift, ret.
  destruct (Parser.read_xplane_data py_float open_read p) as [data|e] eqn:Hread.
  - destruct (Analyzer.analyze_scenario analyzer data s) as [r|e] eqn:Han.
    + rewrite print_all_out.
      destruct (plot_and_save r (s ++ "_analysis.png")) as [[]|e] eqn:Hplot.
      * eexists _, _. split.
        -- rewrite <- app_assoc. reflexivity.
        -- eapply analyzed; eassumption.
      * pose proof (plot_failed L py_float open_read format_6f plot_and_save
                      s p data r e Hread Han Hplot) as Ho.
        destruct (is_FileNotFoundError e) eqn:He;
          (eexists _, _; split;
           [rewrite <- !app_assoc; reflexivity | exact Ho]).
    + destruct (is_FileNotFoundError e) eqn:He.
      * destruct e; try discriminate He.
        eexists _, _. split; [rewrite <- app_assoc; reflexivity|].
        eapply analysis_missing; eassumption.
      * eexists _, _. split; [rewrite <- app_assoc; reflexivity|].
        eapply analysis_failed; eassumption.
  - destruct (is_FileNotFoundError e) eqn:He.
    + destruct e; try discriminate He.
      eexists _, _. split; [rewrite <- app_assoc; reflexivity|].
      eapply read_missing; eassumption.
    + eexists _, _. split; [rewrite <- app_assoc; reflexivity|].
      eapply read_failed; eassumption.
Qed.

(** The loop never raises and prints the lines of its turns in order. *)
Lemma for_each_out (items : list (string * string)) (all : results_dict)
    (out : list string) :
  exists blocks all',
    for_each L py_float open_read format_6f plot_and_save analyzer items all out
      = ((out ++ List.concat blocks)%list, Ok all')
    /\ Forall2 (fun item b => outcome (fst item) (snd item) b) items blocks.
Proof.
  revert all out. induction items as [|[s p] items IH]; intros all out.
  - exists [], all. split; [|constructor].
    simpl. unfold ret. now rewrite app_nil_r.
  - cbn [for_each]. unfold iobind.
    destruct (turn_out all s p out) as [lines [all1 [Hturn Ho]]].
    rewrite Hturn.
    destruct (IH all1 (out ++ lines)%list) as [blocks [all' [Hrest Hf]]].
    exists (lines :: blocks), all'. split.
    + rewrite Hrest. simpl. now rewrite app_assoc.
    + constructor; assumption.
Qed.

Lemma outcome_starts (s p : string) (lines : list string) :
  outcome s p lines -> exists tail, lines = announce s :: tail.
Proof. intros H. destruct H; eexists; reflexivity. Qed.

Lemma outcome_missing (s p : string) (lines : list string) (msg : string) :
  open_read p = Raise (FileNotFoundError msg) ->
  outcome s p lines -> lines = [announce s; warning s].
Proof.
  intros Hopen H.
  assert (Hread : Parser.read_xplane_data py_float open_read p
                  = Raise (FileNotFoundError msg)).
  { unfold Parser.read_xplane_data. now rewrite Hopen. }
  destruct H as [m H|e H He|data m H _|data e H _ _|data r e H _ _|data r H _ _];
    rewrite Hread in H; try discriminate H; try reflexivity.
  injection H as <-. discriminate He.
Qed.

End WithWorld.
End DriverFacts.

Module DriverTheorems.
Import Py Driver DriverFacts.
Local Open Scope string_scope.

Lemma Forall2_weaken {A B : Type} (P Q : A -> B -> Prop) l r :
  (forall a b, P a b -> Q a b) -> Forall2 P l r -> Forall2 Q l r.
Proof. intros H. induction 1; constructor; auto. Qed.

Lemma Forall2_pick {A B : Type} (P : A -> B -> Prop) l r a :
  Forall2 P l r -> In a l ->
  exists r1 b r2, r = (r1 ++ b :: r2)%list /\ P a b.
Proof.
  induction 1 as [|x y l r Hxy _ IH]; simpl; [intros []|].
  intros [<- | Ha].
  - exists [], y, r. auto.
  - destruct (IH Ha) as [r1 [b [r2 [-> Hb]]]].
    exists (y :: r1), b, r2. auto.
Qed.



(** With no file at all the four scenarios are announced and skipped. *)
Example main_without_files :
  main Fixtures.taylor_libm Fixtures.decimal_float Fixtures.no_files
       (fun _ => "0.000000") (fun _ _ => Ok tt) []
  = ([announce "cruising"; warning "cruising";
      announce "climbing"; warning "climbing";
      announce "rolling"; warning "rolling";
      announce "descending"; warning "descending"], Ok []).
Proof. vm_compute. reflexivity. Qed.

Abbreviation too_many_indices := Np.too_many_indices.

Section EmptyTable.
Variable L : Libm.
Variable py_float : string -> option float.
Variable open_read : string -> result string.
Variable format_6f : float -> string.
Variable plot_and_save : Analyzer.Results float -> string -> result unit.

Lemma outcome_empty (s p : string) (lines : list string) :
  Parser.read_xplane_data py_float open_read p = Ok [] ->
  outcome L py_float open_read format_6f plot_and_save s p lines ->
  lines = [announce s; error_line s too_many_indices].
Proof.
  intros Hread H.
  destruct H as [m H|e H He|data m H Ha|data e H Ha _|data r e H Ha _|data r H Ha _];
    rewrite Hread in H; try discriminate H;
    injection H as <-;
    rewrite AnalyzerFacts.analyze_scenario_nil in Ha; try discriminate Ha.
  now injection Ha as <-.
Qed.


End EmptyTable.


End DriverTheorems.

(* ================================================================== *)
(** * Composition order and component order, for any arithmetic *)
(* ================================================================== *)

Module AnalyzerTheorems.
Section AnalyzerTheorems.
Context {F : Type} {N : Num F}.
Import Analyzer Closed.

(** C2 (as amended): for every sample the quaternion is built from the
    angles (roll, pitch, heading_true) in degrees, as rotations about x, y
    and z composed extrinsically, about the axes of the fixed frame: the
    rotation about x is applied first and stands rightmost in the product
    qz * (qy * qx).  Every table with at least one row is analyzed and the
    rows of its quaternion series are these products. *)
Theorem quaternion_is_extrinsic_xyz (self : FlightScenarioAnalyzer F)
    (s : Sample F) (rest : list (Sample F)) (name : string) :
  exists r,
    analyze_scenario self (s :: rest) name = Py.Ok r
    /\ quaternions r =
       Np.Arr2
         (map (fun row =>
                 Rotation.as_quat
                   (Rotation.compose_quat
                      (Rotation.make_elementary_quat Rotation.AxZ
                         (Rotation.deg2rad (heading_true row)))
                      (Rotation.compose_quat
                         (Rotation.make_elementary_quat Rotation.AxY
                            (Rotation.deg2rad (pitch row)))
                         (Rotation.make_elementary_quat Rotation.AxX
                            (Rotation.deg2rad (roll row))))))
              (s :: rest)).
Proof.
  rewrite AnalyzerFacts.analyze_scenario_cons.
  eexists. split; reflexivity.
Qed.

(** The four statistics named w, x, y, z are taken over the columns 0 to 3
    of rows that [as_quat] orders x, y, z, w. *)
Lemma quaternion_stats_by_column (self : FlightScenarioAnalyzer F)
    (s : Sample F) (rest : list (Sample F)) (name : string) :
  exists r,
    analyze_scenario self (s :: rest) name = Py.Ok r
    /\ w_std (quaternion (stats r))
       = Np.std (map (fun row => Rotation.qx (rotation_of row)) (s :: rest))
    /\ x_std (quaternion (stats r))
       = Np.std (map (fun row => Rotation.qy (rotation_of row)) (s :: rest))
    /\ y_std (quaternion (stats r))
       = Np.std (map (fun row => Rotation.qz (rotation_of row)) (s :: rest))
    /\ z_std (quaternion (stats r))
       = Np.std (map (fun row => Rotation.qw (rotation_of row)) (s :: rest)).
Proof.
  rewrite AnalyzerFacts.analyze_scenario_cons.
  eexists. repeat split; reflexivity.
Qed.

End AnalyzerTheorems.
End AnalyzerTheorems.

(* ================================================================== *)
(** * Laws of binary64 arithmetic *)
(* ================================================================== *)

Module FloatLaws.
Local Open Scope float_scope.

Lemma Prim2SF_nan : Prim2SF nan = S754_nan.
Proof. reflexivity. Qed.

Lemma mul_nan_l x : nan * x = nan.
Proof. apply Prim2SF_inj. now rewrite FloatAxioms.mul_spec, Prim2SF_nan. Qed.

Lemma mul_nan_r x : x * nan = nan.
Proof.
  apply Prim2SF_inj. rewrite FloatAxioms.mul_spec, Prim2SF_nan.
  now destruct (Prim2SF x).
Qed.

Lemma add_nan_l x : nan + x = nan.
Proof. apply Prim2SF_inj. now rewrite FloatAxioms.add_spec, Prim2SF_nan. Qed.

Lemma add_nan_r x : x + nan = nan.
Proof.
  apply Prim2SF_inj. rewrite FloatAxioms.add_spec, Prim2SF_nan.
  now destruct (Prim2SF x).
Qed.

Lemma sub_nan_l x : nan - x = nan.
Proof. apply Prim2SF_inj. now rewrite FloatAxioms.sub_spec, Prim2SF_nan. Qed.

Lemma sub_nan_r x : x - nan = nan.
Proof.
  apply Prim2SF_inj. rewrite FloatAxioms.sub_spec, Prim2SF_nan.
  now destruct (Prim2SF x).
Qed.

Lemma div_nan_l x : nan / x = nan.
Proof. apply Prim2SF_inj. now rewrite FloatAxioms.div_spec, Prim2SF_nan. Qed.

(** A finite double is a zero or has a mantissa and an exponent. *)
Lemma finite_cases x :
  is_finite x = true ->
  (exists s, Prim2SF x = S754_zero s)
  \/ (exists s m e, Prim2SF x = S754_finite s m e).
Proof.
  unfold is_finite, is_nan, is_infinity.
  rewrite negb_true_iff, orb_false_iff, negb_false_iff.
  rewrite !FloatAxioms.eqb_spec, FloatAxioms.abs_spec. intros [Hn Hi].
  destruct (Prim2SF x) as [s| s | |s m e] eqn:E.
  - left. now exists s.
  - simpl in Hi. change (Prim2SF infinity) with (S754_infinity false) in Hi.
    discriminate Hi.
  - discriminate Hn.
  - right. now exists s, m, e.
Qed.

(** A finite double minus itself is zero. *)
Lemma sub_diag x : is_finite x = true -> x - x = 0.
Proof.
  intros H. apply Prim2SF_inj. rewrite FloatAxioms.sub_spec.
  change (Prim2SF 0) with (S754_zero false).
  destruct (finite_cases x H) as [[s E] | [s [m [e E]]]]; rewrite E.
  - now destruct s.
  - unfold SF64sub, SFsub. rewrite Z.sub_diag. reflexivity.
Qed.

Lemma maximum_diag x : F64.maximum x x = x.
Proof. unfold F64.maximum. now destruct (is_nan x), (x <? x). Qed.

Lemma minimum_diag x : F64.minimum x x = x.
Proof. unfold F64.minimum. now destruct (is_nan x), (x <? x). Qed.

Lemma fold_diag (f : float -> float -> float) x n :
  f x x = x -> fold_left f (repeat x n) x = x.
Proof.
  intros H. induction n as [|n IH]; simpl; [reflexivity | now rewrite H].
Qed.

End FloatLaws.

(* ================================================================== *)
(** * Rounding on binary64 *)
(* ================================================================== *)

(** The error of one operation on doubles, from the definition of the
    operations in [SpecFloat]: as long as nothing overflows, the result is
    finite and within a relative [2^-50], or an absolute [2^-1073], of the
    exact value.  (The bounds are crude, the tolerance asked for is
    1e-6.) *)

Module Bpow.
Import Binary64.
Local Open Scope R_scope.

Lemma bpow_pos (e : Z) : 0 < bpow e.
Proof. apply powerRZ_lt. lra. Qed.

Lemma bpow_add (a b : Z) : bpow (a + b) = bpow a * bpow b.
Proof. apply powerRZ_add. lra. Qed.

Lemma bpow_1 : bpow 1 = 2.
Proof. unfold bpow, powerRZ. simpl. lra. Qed.

Lemma bpow_2 : bpow 2 = 4.
Proof. unfold bpow, powerRZ. simpl. lra. Qed.

Lemma bpow_IZR (k : Z) : (0 <= k)%Z -> bpow k = IZR (2 ^ k).
Proof.
  intros H. destruct k as [|p|p]; [reflexivity | | lia].
  unfold bpow. change (2 ^ Z.pos p)%Z with (Z.pow_pos 2 p).
  now rewrite Zpower_pos_powerRZ.
Qed.

Lemma bpow_ge_1 (k : Z) : (0 <= k)%Z -> 1 <= bpow k.
Proof.
  intros H. rewrite bpow_IZR by assumption. apply IZR_le.
  pose proof (Z.pow_pos_nonneg 2 k). lia.
Qed.

Lemma bpow_le (a b : Z) : (a <= b)%Z -> bpow a <= bpow b.
Proof.
  intros H. replace b with (a + (b - a))%Z by lia. rewrite bpow_add.
  pose proof (bpow_pos a).
  assert (1 <= bpow (b - a)) by (apply bpow_ge_1; lia). nra.
Qed.

Lemma bpow_lt (a b : Z) : (a < b)%Z -> bpow a < bpow b.
Proof.
  intros H. replace b with (a + 1 + (b - a - 1))%Z by lia.
  rewrite !bpow_add, bpow_1.
  pose proof (bpow_pos a).
  assert (1 <= bpow (b - a - 1)) by (apply bpow_ge_1; lia). nra.
Qed.

Lemma bpow_le_inv (a b : Z) : bpow a <= bpow b -> (a <= b)%Z.
Proof.
  intros H. destruct (Z.le_gt_cases a b) as [Hle | Hgt]; [exact Hle|].
  apply bpow_lt in Hgt. lra.
Qed.

Lemma Rabs_le_inv (a b : R) : Rabs a <= b -> - b <= a <= b.
Proof. unfold Rabs. destruct (Rcase_abs a); lra. Qed.

Lemma bpow_opp (a : Z) : bpow (- a) = / bpow a.
Proof. apply powerRZ_neg'. Qed.

End Bpow.

Module Rounding.
Import Binary64 Bpow.
Local Open Scope Z_scope.

Lemma digits2_bounds (p : positive) :
  2 ^ (Z.pos (digits2_pos p) - 1) <= Z.pos p < 2 ^ Z.pos (digits2_pos p).
Proof.
  induction p as [p IH|p IH|]; cbn [digits2_pos].
  - rewrite Pos2Z.inj_succ.
    replace (Z.succ (Z.pos (digits2_pos p)) - 1)
      with (Z.succ (Z.pos (digits2_pos p) - 1)) by lia.
    rewrite !Z.pow_succ_r by lia. lia.
  - rewrite Pos2Z.inj_succ.
    replace (Z.succ (Z.pos (digits2_pos p)) - 1)
      with (Z.succ (Z.pos (digits2_pos p) - 1)) by lia.
    rewrite !Z.pow_succ_r by lia. lia.
  - cbn. lia.
Qed.

Lemma pow2_xO (p : positive) : 2 ^ Z.pos p~0 = 2 ^ Z.pos p * 2 ^ Z.pos p.
Proof.
  rewrite (Pos2Z.inj_xO p). replace (2 * Z.pos p) with (Z.pos p + Z.pos p) by lia.
  apply Z.pow_add_r; lia.
Qed.

Lemma pow2_xI (p : positive) : 2 ^ Z.pos p~1 = 2 * (2 ^ Z.pos p * 2 ^ Z.pos p).
Proof.
  rewrite (Pos2Z.inj_xI p).
  replace (2 * Z.pos p + 1) with (Z.succ (Z.pos p + Z.pos p)) by lia.
  rewrite Z.pow_succ_r, Z.pow_add_r by lia. reflexivity.
Qed.

Lemma shr_1_m (r : shr_record) :
  0 <= shr_m r -> shr_m (shr_1 r) = shr_m r / 2.
Proof.
  destruct r as [m b s]. cbn [shr_m]. intros H.
  rewrite <- Z.div2_div.
  destruct m as [|[p|p|]|p]; try reflexivity. lia.
Qed.

Lemma iter_shr_m (p : positive) (r : shr_record) :
  0 <= shr_m r ->
  shr_m (iter_pos shr_1 p r) = shr_m r / 2 ^ Z.pos p.
Proof.
  revert r. induction p as [p IH|p IH|]; intros r H; cbn [iter_pos].
  - assert (H1 : 0 <= shr_m (shr_1 r)).
    { rewrite shr_1_m by assumption. apply Z.div_pos; lia. }
    assert (H2 : 0 <= shr_m (iter_pos shr_1 p (shr_1 r))).
    { rewrite IH by assumption. apply Z.div_pos; [lia|]. apply Z.pow_pos_nonneg; lia. }
    rewrite IH, IH, shr_1_m by assumption.
    assert (Hp : 0 < 2 ^ Z.pos p) by (apply Z.pow_pos_nonneg; lia).
    rewrite !Z.div_div by lia. f_equal.
    rewrite pow2_xI. lia.
  - assert (H2 : 0 <= shr_m (iter_pos shr_1 p r)).
    { rewrite IH by assumption. apply Z.div_pos; [lia|]. apply Z.pow_pos_nonneg; lia. }
    rewrite IH, IH by assumption.
    assert (Hp : 0 < 2 ^ Z.pos p) by (apply Z.pow_pos_nonneg; lia).
    rewrite !Z.div_div by lia. f_equal.
    rewrite pow2_xO. lia.
  - rewrite shr_1_m by assumption. reflexivity.
Qed.

Lemma fexp_eq (e : Z) : fexp prec emax e = Z.max (e - 53) (-1074).
Proof. reflexivity. Qed.

Lemma shr_m_of_loc (m : Z) (l : location) : shr_m (shr_record_of_loc m l) = m.
Proof. destruct l as [|[]]; reflexivity. Qed.

Lemma shr_fexp_spec (m e : Z) (l : location) :
  0 <= m ->
  let k := fexp prec emax (Zdigits2 m + e) - e in
  exists r,
    shr_fexp prec emax m e l = (r, e + Z.max 0 k)
    /\ shr_m r = m / 2 ^ Z.max 0 k
    /\ (k <= 0 -> r = shr_record_of_loc m l).
Proof.
  intros Hm k. unfold shr_fexp, shr. fold k.
  destruct k as [|p|p] eqn:E.
  - exists (shr_record_of_loc m l). cbn [Z.max Z.compare].
    rewrite Z.add_0_r, shr_m_of_loc, Z.div_1_r. auto.
  - exists (iter_pos shr_1 p (shr_record_of_loc m l)).
    replace (Z.max 0 (Z.pos p)) with (Z.pos p) by lia.
    split; [reflexivity|]. split; [|lia].
    rewrite iter_shr_m; rewrite shr_m_of_loc; [reflexivity | exact Hm].
  - exists (shr_record_of_loc m l).
    replace (Z.max 0 (Z.neg p)) with 0 by lia.
    rewrite Z.add_0_r, shr_m_of_loc, Z.div_1_r. auto.
Qed.

Lemma round_nearest_even_cases (m : Z) (l : location) :
  round_nearest_even m l = m \/ round_nearest_even m l = m + 1.
Proof. destruct l as [|[]]; cbn; [| destruct (Z.even m) | |]; auto. Qed.

Local Open Scope R_scope.

(** One shift: the mantissa is divided by a power of two and the exponent
    raised by as much, so the value is kept up to one unit of the new
    exponent. *)
Lemma shr_fexp_real (m e : Z) (l : location) :
  (0 <= m)%Z ->
  exists r e1,
    shr_fexp prec emax m e l = (r, e1)
    /\ (0 <= shr_m r)%Z
    /\ IZR (shr_m r) * bpow e1 <= IZR m * bpow e
    /\ (IZR m + 1) * bpow e <= (IZR (shr_m r) + 1) * bpow e1
    /\ ((e1 = e /\ r = shr_record_of_loc m l)
        \/ ((e < e1)%Z /\ e1 = fexp prec emax (Zdigits2 m + e))).
Proof.
  intros Hm. destruct (shr_fexp_spec m e l Hm) as [r [Hr [Hd Hk]]].
  set (k := (fexp prec emax (Zdigits2 m + e) - e)%Z) in *.
  exists r, (e + Z.max 0 k)%Z. split; [exact Hr|].
  assert (HK : (0 <= Z.max 0 k)%Z) by lia.
  assert (Hp : (0 < 2 ^ Z.max 0 k)%Z) by (apply Z.pow_pos_nonneg; lia).
  pose proof (Z.mul_div_le m _ Hp) as Hlo.
  pose proof (Z.mul_succ_div_gt m _ Hp) as Hhi.
  rewrite <- Hd in Hlo, Hhi.
  split; [rewrite Hd; apply Z.div_pos; lia|].
  rewrite bpow_add, (bpow_IZR (Z.max 0 k)) by exact HK.
  pose proof (bpow_pos e) as He.
  assert (Hhi' : (m + 1 <= 2 ^ Z.max 0 k * Z.succ (shr_m r))%Z) by lia.
  apply IZR_le in Hlo. apply IZR_le in Hhi'.
  rewrite mult_IZR in Hlo. rewrite mult_IZR, succ_IZR, plus_IZR in Hhi'.
  split; [nra|]. split; [nra|].
  destruct (Z.le_gt_cases k 0) as [Hle | Hgt].
  - left. split; [lia | now apply Hk].
  - right. unfold k in *. lia.
Qed.

Lemma bpow_digits (m : Z) (e : Z) :
  (0 < m)%Z ->
  bpow (Zdigits2 m + e - 53) <= IZR m * bpow e * bpow (-52).
Proof.
  intros H. destruct m as [|p|p]; try lia. cbn [Zdigits2].
  replace (Z.pos (digits2_pos p) + e - 53)%Z
    with ((Z.pos (digits2_pos p) - 1) + e + (-52))%Z by lia.
  rewrite !bpow_add.
  pose proof (digits2_bounds p) as [Hlo _]. apply IZR_le in Hlo.
  rewrite <- bpow_IZR in Hlo by lia.
  pose proof (bpow_pos e). pose proof (bpow_pos (-52)).
  apply Rmult_le_compat_r; [lra|]. apply Rmult_le_compat_r; lra.
Qed.

Lemma round_nearest_even_exact (m : Z) :
  round_nearest_even (shr_m (shr_record_of_loc m loc_Exact))
    (loc_of_shr_record (shr_record_of_loc m loc_Exact)) = m.
Proof. reflexivity. Qed.

Lemma small_powers :
  0 < bpow (-52) /\ bpow (-52) <= / 2
  /\ bpow (-50) = 4 * bpow (-52) /\ bpow (-1073) = 2 * bpow (-1074)
  /\ 0 < bpow (-1074) /\ bpow (-1074) <= bpow 900
  /\ bpow 903 = 8 * bpow 900
  /\ bpow 900 <= bpow 969
  /\ bpow 1022 * bpow (-52) = 2 * bpow 969
  /\ bpow 971 = 4 * bpow 969.
Proof.
  split; [apply bpow_pos|].
  split.
  { replace (/ 2) with (bpow (-1)).
    - apply bpow_le; lia.
    - change (-1)%Z with (- (1))%Z. now rewrite bpow_opp, bpow_1. }
  split; [change (-50)%Z with (2 + -52)%Z; now rewrite bpow_add, bpow_2|].
  split; [change (-1073)%Z with (1 + -1074)%Z; now rewrite bpow_add, bpow_1|].
  split; [apply bpow_pos|]. split; [apply bpow_le; lia|].
  split; [change 903%Z with (1 + (2 + 900))%Z;
          rewrite !bpow_add, bpow_1, bpow_2; ring|].
  split; [apply bpow_le; lia|].
  split; [rewrite <- bpow_add; change (1022 + -52)%Z with (1 + 969)%Z;
          now rewrite bpow_add, bpow_1|].
  change 971%Z with (2 + 969)%Z. now rewrite bpow_add, bpow_2.
Qed.

(** Rounding a mantissa and an exponent that stand for the value [z] (the
    mantissa is [z] truncated to the unit [2^e], exactly, or up to a unit
    that is small against [z]): as long as [z] stays below [2^1022] the
    result is finite and within a relative [2^-50], or an absolute
    [2^-1073], of [z]. *)
Lemma binary_round_aux_wide (s : bool) (m e : Z) (l : location) (z : R) :
  (0 <= m)%Z ->
  IZR m * bpow e <= z -> z <= (IZR m + 1) * bpow e ->
  z <= bpow 1022 ->
  (e <= 971)%Z \/ z <= bpow 900 ->
  (l = loc_Exact /\ z = IZR m * bpow e)
  \/ bpow e <= z * bpow (-52) + bpow (-1074) ->
  signed s (binary_round_aux prec emax s m e l)
  /\ Rabs (mag (binary_round_aux prec emax s m e l) - z)
     <= z * bpow (-50) + bpow (-1073).
Proof.
  intros Hm Hlo Hhi Hbig Hexp Hunit.
  destruct small_powers
    as (Hu0 & Hu1 & H50 & H1073 & Ht0 & Ht900 & H902 & H969 & H970 & H971).
  set (u := bpow (-52)) in *. set (t := bpow (-1074)) in *.
  assert (Hz0 : 0 <= z).
  { pose proof (bpow_pos e). apply IZR_le in Hm. nra. }
  assert (Hzu : z * u <= 2 * bpow 969).
  { rewrite <- H970. apply Rmult_le_compat_r; lra. }
  assert (Hzu0 : 0 <= z * u) by nra.
  pose proof (bpow_pos 969) as Hp969.
  unfold binary_round_aux.
  destruct (shr_fexp_real m e l Hm) as (r1 & e1 & E1 & HA & Hlo1 & Hhi1 & Hcase1).
  rewrite E1.
  set (A := shr_m r1) in *.
  set (m1 := round_nearest_even A (loc_of_shr_record r1)).
  (* the first stage *)
  assert (Hm1 : (0 <= m1)%Z).
  { unfold m1. destruct (round_nearest_even_cases A (loc_of_shr_record r1)) as [-> | ->]; lia. }
  assert (He1 : (-1074 <= e1)%Z).
  { destruct Hcase1 as [[-> _] | [_ ->]]; [|rewrite fexp_eq; lia].
    destruct (shr_fexp_spec m e l Hm) as [r [Hr _]].
    rewrite E1 in Hr. injection Hr as _ Hr. rewrite fexp_eq in Hr. lia. }
  assert (Herr1 : Rabs (IZR m1 * bpow e1 - z) <= z * u + t
                  /\ (e1 = e \/ bpow e1 <= z * u + t)).
  { destruct Hcase1 as [[-> ->] | [Hlt ->]].
    - split; [|now left].
      destruct Hunit as [[-> Hzq] | Hunit'].
      + unfold m1, A. rewrite round_nearest_even_exact, Hzq.
        replace (IZR m * bpow e - IZR m * bpow e) with 0 by ring.
        rewrite Rabs_R0. nra.
      + pose proof (bpow_pos e) as Hpe.
        unfold m1, A. rewrite shr_m_of_loc.
        destruct (round_nearest_even_cases m
                    (loc_of_shr_record (shr_record_of_loc m l))) as [-> | ->];
          rewrite ?plus_IZR; apply Rabs_le; nra.
    - assert (Hb : bpow (fexp prec emax (Zdigits2 m + e)) <= z * u + t).
      { rewrite fexp_eq. destruct (Z.max_spec (Zdigits2 m + e - 53) (-1074))
          as [[_ ->] | [Hmx ->]]; [fold t; nra|].
        destruct (Z.eq_dec m 0) as [-> | Hne].
        - cbn [Zdigits2] in *. rewrite fexp_eq in Hlt.
          exfalso. lia.
        - pose proof (bpow_digits m e ltac:(lia)) as Hd. fold u in Hd.
          pose proof (bpow_pos e). nra. }
      split; [|now right].
      set (E := fexp prec emax (Zdigits2 m + e)) in *.
      pose proof (bpow_pos E) as HpE. pose proof (bpow_pos e) as Hpe.
      unfold m1.
      destruct (round_nearest_even_cases A (loc_of_shr_record r1)) as [-> | ->];
        rewrite ?plus_IZR; apply Rabs_le; nra. }
  destruct Herr1 as [Herr1 Hexp1].
  (* the second stage *)
  destruct (shr_fexp_real m1 e1 loc_Exact Hm1)
    as (r2 & e2 & E2 & HM & Hlo2 & Hhi2 & Hcase2).
  rewrite E2. set (M := shr_m r2) in *.
  set (a1 := IZR m1 * bpow e1) in *.
  assert (Ha1 : 0 <= a1).
  { unfold a1. pose proof (bpow_pos e1). apply IZR_le in Hm1. nra. }
  assert (Ha1z : a1 <= z + (z * u + t)).
  { apply Rabs_le_inv in Herr1. lra. }
  assert (Herr2 : Rabs (IZR M * bpow e2 - a1) <= a1 * u
                  /\ (e2 = e1 \/ bpow e2 <= a1 * u)).
  { destruct Hcase2 as [[-> ->] | [Hlt ->]].
    - split; [|now left].
      unfold M. rewrite shr_m_of_loc. fold a1.
      replace (a1 - a1) with 0 by ring. rewrite Rabs_R0. nra.
    - assert (Hpos : (0 < m1)%Z).
      { destruct (Z.eq_dec m1 0) as [E0 | Hne]; [|lia].
        rewrite E0 in Hlt. cbn [Zdigits2] in Hlt. rewrite fexp_eq in Hlt. lia. }
      assert (Hb : bpow (fexp prec emax (Zdigits2 m1 + e1)) <= a1 * u).
      { rewrite fexp_eq in *.
        replace (Z.max (Zdigits2 m1 + e1 - 53) (-1074))
          with (Zdigits2 m1 + e1 - 53)%Z by lia.
        apply bpow_digits. exact Hpos. }
      split; [|now right].
      set (E := fexp prec emax (Zdigits2 m1 + e1)) in *.
      pose proof (bpow_pos E) as HpE. pose proof (bpow_pos e1) as Hpe.
      fold a1 in Hlo2.
      assert (Hhi2' : a1 <= (IZR M + 1) * bpow E) by (unfold a1; nra).
      apply Rabs_le. nra. }
  destruct Herr2 as [Herr2 Hexp2].
  assert (H1 : a1 * u <= (z + (z * u + t)) * u)
    by (apply Rmult_le_compat_r; lra).
  assert (H2 : z * u * u <= z * u * / 2).
  { apply Rmult_le_compat_l; lra. }
  assert (H3 : t * u <= t * / 2).
  { apply Rmult_le_compat_l; lra. }
  assert (Htot : Rabs (IZR M * bpow e2 - z) <= z * bpow (-50) + bpow (-1073)).
  { rewrite H50, H1073.
    replace (IZR M * bpow e2 - z)
      with ((IZR M * bpow e2 - a1) + (a1 - z)) by ring.
    eapply Rle_trans; [apply Rabs_triang|]. lra. }
  destruct M as [|p|p] eqn:EM; [| |lia].
  - split; [now left|]. cbn [mag]. rewrite Rmult_0_l in Htot. exact Htot.
  - assert (Hsmall : (e2 <= emax - prec)%Z).
    { change (emax - prec)%Z with 971%Z.
      assert (Hp1 : 1 <= IZR (Z.pos p)) by (apply IZR_le; lia).
      pose proof (bpow_pos e2) as Hp2.
      assert (Hval : bpow e2 <= z + (z * bpow (-50) + bpow (-1073))).
      { apply Rabs_le_inv in Htot. nra. }
      assert (Hlate : bpow e2 <= 4 * bpow 969 -> (e2 <= 971)%Z).
      { intros Hle. rewrite <- H971 in Hle. now apply bpow_le_inv in Hle. }
      destruct Hexp2 as [-> | Hb2]; [|apply Hlate; lra].
      destruct Hexp1 as [-> | Hb1]; [|apply Hlate; lra].
      destruct Hexp as [Hle | Hz900]; [exact Hle|].
      assert (Hle : bpow e <= bpow 903).
      { rewrite H902. rewrite H50, H1073 in Hval. nra. }
      apply bpow_le_inv in Hle. lia. }
    apply Z.leb_le in Hsmall. rewrite Hsmall.
    split; [right; now exists p, e2|]. cbn [mag]. exact Htot.
Qed.

Lemma binary_round_aux_error (s : bool) (m e : Z) (l : location) (z : R) :
  (0 <= m)%Z ->
  IZR m * bpow e <= z -> z <= (IZR m + 1) * bpow e ->
  z <= bpow 900 ->
  (l = loc_Exact /\ z = IZR m * bpow e)
  \/ bpow e <= z * bpow (-52) + bpow (-1074) ->
  signed s (binary_round_aux prec emax s m e l)
  /\ Rabs (mag (binary_round_aux prec emax s m e l) - z)
     <= z * bpow (-50) + bpow (-1073).
Proof.
  intros Hm Hlo Hhi Hbig Hunit.
  apply binary_round_aux_wide; auto.
  apply Rle_trans with (1 := Hbig). apply bpow_le. lia.
Qed.

End Rounding.

Module SpecError.
Import Binary64 Bpow Rounding.
Local Open Scope R_scope.

Lemma sgn_xorb (a b : bool) : sgn (xorb a b) = sgn a * sgn b.
Proof. destruct a, b; cbn; lra. Qed.

Lemma sgn_abs (s : bool) : Rabs (sgn s) = 1.
Proof. destruct s; cbn; [rewrite Rabs_left | rewrite Rabs_right]; lra. Qed.

Lemma signed_finite (s : bool) (f : spec_float) : signed s f -> SFfinite f.
Proof. intros [-> | [m [e ->]]]; exact I. Qed.

Lemma signed_value (s : bool) (f : spec_float) :
  signed s f -> SF2R f = sgn s * mag f.
Proof. intros [-> | [m [e ->]]]; cbn; ring. Qed.

Lemma mag_nonneg (f : spec_float) : 0 <= mag f.
Proof.
  destruct f as [| | |s m e]; cbn; try lra.
  pose proof (bpow_pos e). assert (0 < IZR (Z.pos m)) by (apply IZR_lt; lia). nra.
Qed.

Lemma SF2R_mag (f : spec_float) : Rabs (SF2R f) = mag f.
Proof.
  destruct f as [| | |s m e]; cbn; try apply Rabs_R0.
  rewrite Rabs_mult, sgn_abs, Rmult_1_l. apply Rabs_right.
  apply Rle_ge. apply (mag_nonneg (S754_finite s m e)).
Qed.

(** Rounding a signed value. *)
Lemma round_signed (s : bool) (m : positive) (e : Z) :
  IZR (Z.pos m) * bpow e <= bpow 900 ->
  let z := sgn s * (IZR (Z.pos m) * bpow e) in
  let r := binary_round_aux prec emax s (Z.pos m) e loc_Exact in
  SFfinite r
  /\ Rabs (SF2R r - z) <= Rabs z * bpow (-50) + bpow (-1073).
Proof.
  intros Hbig z r.
  destruct (binary_round_aux_error s (Z.pos m) e loc_Exact
              (IZR (Z.pos m) * bpow e)) as [Hs He]; try lra; try lia.
  - pose proof (bpow_pos e). nra.
  - left. split; reflexivity.
  - fold r in Hs, He. split; [exact (signed_finite s r Hs)|].
    rewrite (signed_value s r Hs). unfold z.
    set (z0 := IZR (Z.pos m) * bpow e) in *.
    replace (sgn s * mag r - sgn s * z0) with (sgn s * (mag r - z0)) by ring.
    rewrite !Rabs_mult, sgn_abs, !Rmult_1_l.
    rewrite (Rabs_right z0); [exact He|].
    apply Rle_ge. apply (mag_nonneg (S754_finite s m e)).
Qed.

Lemma SFmul_error (f g : spec_float) :
  SFfinite f -> SFfinite g ->
  Rabs (SF2R f * SF2R g) <= bpow 900 ->
  SFfinite (SF64mul f g)
  /\ Rabs (SF2R (SF64mul f g) - SF2R f * SF2R g)
     <= Rabs (SF2R f * SF2R g) * bpow (-50) + bpow (-1073).
Proof.
  intros Hf Hg Hbig.
  assert (H0 : 0 <= bpow (-1073)) by (pose proof (bpow_pos (-1073)); lra).
  destruct f as [s| | |s m e]; destruct g as [s'| | |s' m' e'];
    try contradiction; cbn [SF64mul SFmul SF2R];
    rewrite ?Rmult_0_l, ?Rmult_0_r, ?Rminus_0_r, ?Rabs_R0, ?Rmult_0_l;
    try (split; [exact I | lra]).
  assert (Hz : sgn s * (IZR (Z.pos m) * bpow e) * (sgn s' * (IZR (Z.pos m') * bpow e'))
               = sgn (xorb s s') * (IZR (Z.pos (m * m')) * bpow (e + e'))).
  { rewrite sgn_xorb, bpow_add, Pos2Z.inj_mul, mult_IZR. ring. }
  cbn [SF2R] in Hbig. rewrite Hz in *.
  apply round_signed.
  rewrite Rabs_mult, sgn_abs, Rmult_1_l in Hbig.
  rewrite Rabs_right in Hbig; [exact Hbig|].
  apply Rle_ge. apply (mag_nonneg (S754_finite s (m * m') (e + e'))).
Qed.

Lemma iter_xO_value (m d : positive) :
  Z.pos (Pos.iter xO m d) = (Z.pos m * 2 ^ Z.pos d)%Z.
Proof.
  induction d as [|d IH] using Pos.peano_ind.
  - cbn. lia.
  - rewrite Pos.iter_succ, Pos2Z.inj_succ, Z.pow_succ_r by lia.
    rewrite (Pos2Z.inj_xO (Pos.iter xO m d)), IH. ring.
Qed.

(** Aligning a mantissa to a lower exponent keeps the value. *)
Lemma shl_align_value (m : positive) (e e' : Z) :
  IZR (Z.pos (fst (shl_align m e e'))) * bpow (snd (shl_align m e e'))
  = IZR (Z.pos m) * bpow e.
Proof.
  unfold shl_align. destruct (e' - e)%Z as [|d|d] eqn:E; cbn [fst snd];
    try reflexivity.
  rewrite iter_xO_value, mult_IZR, <- bpow_IZR by lia.
  replace e with (Z.pos d + e')%Z by lia. rewrite bpow_add. ring.
Qed.

Lemma shl_align_snd (m : positive) (e e' : Z) :
  (e' <= e)%Z -> snd (shl_align m e e') = e'.
Proof.
  intros H. unfold shl_align.
  destruct (e' - e)%Z as [|d|d] eqn:E; cbn [snd]; lia.
Qed.

Lemma binary_normalize_error (n e : Z) :
  Rabs (IZR n * bpow e) <= bpow 900 ->
  let r := binary_normalize prec emax n e false in
  SFfinite r
  /\ Rabs (SF2R r - IZR n * bpow e)
     <= Rabs (IZR n * bpow e) * bpow (-50) + bpow (-1073).
Proof.
  intros Hbig r. unfold r, binary_normalize.
  assert (H0 : 0 <= bpow (-1073)) by (pose proof (bpow_pos (-1073)); lra).
  assert (Hround : forall s p,
            Rabs (sgn s * (IZR (Z.pos p) * bpow e)) <= bpow 900 ->
            SFfinite (binary_round prec emax s p e)
            /\ Rabs (SF2R (binary_round prec emax s p e)
                     - sgn s * (IZR (Z.pos p) * bpow e))
               <= Rabs (sgn s * (IZR (Z.pos p) * bpow e)) * bpow (-50)
                  + bpow (-1073)).
  { intros s p Hb. unfold binary_round.
    pose proof (shl_align_value p e
                  (fexp prec emax (Z.pos (digits2_pos p) + e))) as Hv.
    destruct (shl_align p e (fexp prec emax (Z.pos (digits2_pos p) + e)))
      as [mz ez]. cbn [fst snd] in Hv. rewrite <- Hv in *.
    apply round_signed.
    rewrite Rabs_mult, sgn_abs, Rmult_1_l in Hb.
    rewrite Rabs_right in Hb; [exact Hb|].
    apply Rle_ge. apply (mag_nonneg (S754_finite s mz ez)). }
  destruct n as [|p|p].
  - cbn [SF2R]. rewrite Rmult_0_l, Rminus_0_r, Rabs_R0, Rmult_0_l.
    split; [exact I | lra].
  - specialize (Hround false p). cbn [sgn] in Hround.
    rewrite Rmult_1_l in Hround. apply Hround. exact Hbig.
  - specialize (Hround true p). cbn [sgn] in Hround.
    replace (IZR (Z.neg p) * bpow e) with (-1 * (IZR (Z.pos p) * bpow e)).
    + apply Hround.
      replace (-1 * (IZR (Z.pos p) * bpow e)) with (IZR (Z.neg p) * bpow e);
        [exact Hbig|].
      change (Z.neg p) with (- Z.pos p)%Z. rewrite opp_IZR. ring.
    + change (Z.neg p) with (- Z.pos p)%Z. rewrite opp_IZR. ring.
Qed.

Lemma cond_Zopp_value (s : bool) (m : Z) : IZR (cond_Zopp s m) = sgn s * IZR m.
Proof. destruct s; cbn; [rewrite opp_IZR|]; ring. Qed.

Lemma aligned_value (s : bool) (m : positive) (e ez : Z) :
  (ez <= e)%Z ->
  IZR (cond_Zopp s (Z.pos (fst (shl_align m e ez)))) * bpow ez
  = SF2R (S754_finite s m e).
Proof.
  intros H. rewrite cond_Zopp_value. cbn [SF2R].
  pose proof (shl_align_value m e ez) as Hv.
  rewrite (shl_align_snd m e ez H) in Hv. rewrite Rmult_assoc, Hv. reflexivity.
Qed.

Lemma SFadd_error (f g : spec_float) :
  SFfinite f -> SFfinite g ->
  Rabs (SF2R f + SF2R g) <= bpow 900 ->
  SFfinite (SF64add f g)
  /\ Rabs (SF2R (SF64add f g) - (SF2R f + SF2R g))
     <= Rabs (SF2R f + SF2R g) * bpow (-50) + bpow (-1073).
Proof.
  intros Hf Hg Hbig.
  assert (H0 : 0 <= bpow (-1073)) by (pose proof (bpow_pos (-1073)); lra).
  assert (Hp : forall x, 0 <= Rabs x * bpow (-50) + bpow (-1073)).
  { intros x. pose proof (Rabs_pos x). pose proof (bpow_pos (-50)). nra. }
  destruct f as [s| | |s m e]; destruct g as [s'| | |s' m' e'];
    try contradiction; unfold SF64add, SFadd.
  - assert (E : SF2R (match s, s' with
                      | true, true | false, false => S754_zero s
                      | _, _ => S754_zero false end) = 0)
      by (destruct s, s'; reflexivity).
    split; [destruct s, s'; exact I|].
    rewrite E. cbn [SF2R]. replace (0 - (0 + 0)) with 0 by ring.
    rewrite Rabs_R0. apply Hp.
  - split; [exact I|]. cbn [SF2R].
    match goal with |- Rabs ?a <= _ => replace a with 0 by ring end.
    rewrite Rabs_R0. apply Hp.
  - split; [exact I|]. cbn [SF2R].
    match goal with |- Rabs ?a <= _ => replace a with 0 by ring end.
    rewrite Rabs_R0. apply Hp.
  - cbv zeta.
    rewrite <- (aligned_value s m e (Z.min e e')) by lia.
    rewrite <- (aligned_value s' m' e' (Z.min e e')) by lia.
    rewrite <- (aligned_value s m e (Z.min e e')) in Hbig by lia.
    rewrite <- (aligned_value s' m' e' (Z.min e e')) in Hbig by lia.
    rewrite <- Rmult_plus_distr_r, <- plus_IZR in *.
    apply binary_normalize_error. exact Hbig.
Qed.

Lemma SFsub_error (f g : spec_float) :
  SFfinite f -> SFfinite g ->
  Rabs (SF2R f - SF2R g) <= bpow 900 ->
  SFfinite (SF64sub f g)
  /\ Rabs (SF2R (SF64sub f g) - (SF2R f - SF2R g))
     <= Rabs (SF2R f - SF2R g) * bpow (-50) + bpow (-1073).
Proof.
  intros Hf Hg Hbig.
  assert (H0 : 0 <= bpow (-1073)) by (pose proof (bpow_pos (-1073)); lra).
  assert (Hp : forall x, 0 <= Rabs x * bpow (-50) + bpow (-1073)).
  { intros x. pose proof (Rabs_pos x). pose proof (bpow_pos (-50)). nra. }
  destruct f as [s| | |s m e]; destruct g as [s'| | |s' m' e'];
    try contradiction; unfold SF64sub, SFsub.
  - assert (E : SF2R (match s, s' with
                      | true, false | false, true => S754_zero s
                      | _, _ => S754_zero false end) = 0)
      by (destruct s, s'; reflexivity).
    split; [destruct s, s'; exact I|].
    rewrite E. cbn [SF2R]. replace (0 - (0 - 0)) with 0 by ring.
    rewrite Rabs_R0. apply Hp.
  - split; [exact I|]. cbn [SF2R].
    match goal with |- Rabs ?a <= _ =>
      replace a with 0 by (destruct s'; cbn; ring) end.
    rewrite Rabs_R0. apply Hp.
  - split; [exact I|]. cbn [SF2R].
    match goal with |- Rabs ?a <= _ => replace a with 0 by ring end.
    rewrite Rabs_R0. apply Hp.
  - cbv zeta.
    rewrite <- (aligned_value s m e (Z.min e e')) by lia.
    rewrite <- (aligned_value s' m' e' (Z.min e e')) by lia.
    rewrite <- (aligned_value s m e (Z.min e e')) in Hbig by lia.
    rewrite <- (aligned_value s' m' e' (Z.min e e')) in Hbig by lia.
    rewrite <- Rmult_minus_distr_r, <- minus_IZR in *.
    apply binary_normalize_error. exact Hbig.
Qed.

Lemma sqrt_bpow_double (e : Z) : R_sqrt.sqrt (bpow (2 * e)) = bpow e.
Proof.
  replace (2 * e)%Z with (e + e)%Z by lia. rewrite bpow_add.
  apply sqrt_square. pose proof (bpow_pos e). lra.
Qed.

Lemma sqrt_between (a q : R) :
  0 <= q -> q * q <= a -> a <= (q + 1) * (q + 1) ->
  q <= R_sqrt.sqrt a <= q + 1.
Proof.
  intros Hq Hlo Hhi. split.
  - rewrite <- (sqrt_square q Hq). apply sqrt_le_1_alt. exact Hlo.
  - rewrite <- (sqrt_square (q + 1)) by lra. apply sqrt_le_1_alt. exact Hhi.
Qed.

Lemma SFsqrt_core_value (m : positive) (e : Z) :
  let '(q, e', l) := SFsqrt_core_binary prec emax (Z.pos m) e in
  let z := R_sqrt.sqrt (IZR (Z.pos m) * bpow e) in
  (0 <= q)%Z
  /\ IZR q * bpow e' <= z /\ z <= (IZR q + 1) * bpow e'
  /\ bpow e' <= z * bpow (-52) + bpow (-1074).
Proof.
  unfold SFsqrt_core_binary.
  set (d := Zdigits2 (Z.pos m)).
  set (t := Z.div2 (d + e + 1)).
  set (e' := Z.min (fexp prec emax t) (Z.div2 e)).
  set (s := (e - 2 * e')%Z).
  assert (Hs : (0 <= s)%Z).
  { assert (2 * Z.div2 e <= e)%Z
      by (rewrite Z.div2_div; apply Z.mul_div_le; lia).
    unfold s, e'. lia. }
  set (m' := match s with
             | 0%Z => Z.pos m
             | Z.pos _ => Z.shiftl (Z.pos m) s
             | Z.neg _ => 0%Z
             end).
  assert (Hm' : m' = (Z.pos m * 2 ^ s)%Z).
  { unfold m'. destruct s as [|p|p]; [cbn; lia | | lia].
    apply Z.shiftl_mul_pow2. lia. }
  assert (Hm0 : (0 <= m')%Z).
  { rewrite Hm'. apply Z.mul_nonneg_nonneg; [lia|]. apply Z.pow_nonneg. lia. }
  pose proof (Z.sqrtrem_spec m' Hm0) as Hq.
  destruct (Z.sqrtrem m') as [q r]. destruct Hq as [Hq Hr].
  cbv zeta.
  assert (Hval : IZR (Z.pos m) * bpow e = IZR m' * bpow (2 * e')).
  { rewrite Hm', mult_IZR, <- bpow_IZR by exact Hs.
    rewrite Rmult_assoc, <- bpow_add. f_equal. f_equal. unfold s. lia. }
  assert (Hq0 : (0 <= q)%Z) by lia.
  assert (Hz : R_sqrt.sqrt (IZR (Z.pos m) * bpow e) = R_sqrt.sqrt (IZR m') * bpow e').
  { rewrite Hval, sqrt_mult_alt by (apply IZR_le; lia).
    now rewrite sqrt_bpow_double. }
  assert (Hbetween : IZR q <= R_sqrt.sqrt (IZR m') <= IZR q + 1).
  { apply sqrt_between.
    - apply IZR_le. exact Hq0.
    - rewrite <- mult_IZR. apply IZR_le. lia.
    - rewrite <- plus_IZR, <- mult_IZR. apply IZR_le. lia. }
  pose proof (bpow_pos e') as Hpe.
  split; [exact Hq0|]. rewrite Hz.
  split; [apply Rmult_le_compat_r; lra|].
  split; [apply Rmult_le_compat_r; lra|].
  rewrite <- Hz.
  (* the unit of the result is small against the root *)
  assert (He' : (e' <= fexp prec emax t)%Z) by (unfold e'; lia).
  rewrite fexp_eq in He'.
  pose proof (bpow_pos (-52)) as Hu. pose proof (bpow_pos (-1074)) as Ht.
  pose proof (sqrt_pos (IZR (Z.pos m) * bpow e)) as Hsp.
  destruct (Z.max_spec (t - 53) (-1074)) as [[_ E] | [_ E]]; rewrite E in He'.
  - apply (bpow_le e' (-1074)) in He'. nra.
  - apply (bpow_le e' (t - 53)) in He'.
    assert (Hroot : bpow (t - 1) <= R_sqrt.sqrt (IZR (Z.pos m) * bpow e)).
    { rewrite <- (sqrt_square (bpow (t - 1)))
        by (pose proof (bpow_pos (t - 1)); lra).
      apply sqrt_le_1_alt. rewrite <- bpow_add.
      apply Rle_trans with (bpow (d - 1 + e)).
      - apply bpow_le.
        assert (2 * Z.div2 (d + e + 1) <= d + e + 1)%Z
          by (rewrite Z.div2_div; apply Z.mul_div_le; lia).
        unfold t. lia.
      - rewrite bpow_add.
        apply Rmult_le_compat_r; [pose proof (bpow_pos e); lra|].
        unfold d. cbn [Zdigits2].
        rewrite bpow_IZR by (pose proof (Pos2Z.is_pos (digits2_pos m)); lia).
        apply IZR_le. apply digits2_bounds. }
    replace (t - 53)%Z with ((t - 1) + -52)%Z in He' by lia.
    rewrite bpow_add in He'. nra.
Qed.

Lemma SFsqrt_error (f : spec_float) :
  SFfinite f -> 0 <= SF2R f -> SF2R f <= bpow 900 ->
  SFfinite (SF64sqrt f)
  /\ Rabs (SF2R (SF64sqrt f) - R_sqrt.sqrt (SF2R f))
     <= R_sqrt.sqrt (SF2R f) * bpow (-50) + bpow (-1073).
Proof.
  intros Hf Hpos Hbig.
  assert (H0 : 0 <= bpow (-1073)) by (pose proof (bpow_pos (-1073)); lra).
  destruct f as [s| | |s m e]; try contradiction; unfold SF64sqrt, SFsqrt.
  - split; [exact I|]. cbn [SF2R]. rewrite sqrt_0, Rminus_0_r, Rabs_R0. lra.
  - destruct s.
    + exfalso. cbn in Hpos.
      pose proof (mag_nonneg (S754_finite true m e)) as Hm. cbn in Hm.
      assert (0 < IZR (Z.pos m) * bpow e).
      { pose proof (bpow_pos e). assert (0 < IZR (Z.pos m)) by (apply IZR_lt; lia). nra. }
      lra.
    + cbn [SF2R sgn] in *. rewrite Rmult_1_l in *.
      pose proof (SFsqrt_core_value m e) as Hc.
      destruct (SFsqrt_core_binary prec emax (Z.pos m) e) as [[q e'] l].
      cbv zeta in Hc. destruct Hc as (Hq & Hlo & Hhi & Hunit).
      set (z := R_sqrt.sqrt (IZR (Z.pos m) * bpow e)) in *.
      assert (Hz900 : z <= bpow 900).
      { destruct (Rle_lt_dec z (bpow 900)) as [H | H]; [exact H|].
        exfalso. assert (H1 : 1 <= bpow 900) by (apply bpow_ge_1; lia).
        assert (Hsq : z * z = IZR (Z.pos m) * bpow e) by (apply sqrt_def; exact Hpos).
        nra. }
      destruct (binary_round_aux_error false q e' l z Hq Hlo Hhi Hz900
                  (or_intror Hunit)) as [Hs He].
      split; [exact (signed_finite _ _ Hs)|].
      rewrite (signed_value _ _ Hs). cbn [sgn]. rewrite Rmult_1_l. exact He.
Qed.

Lemma SFabs_value (f : spec_float) :
  SFfinite f -> SFfinite (SFabs f) /\ SF2R (SFabs f) = Rabs (SF2R f).
Proof.
  destruct f as [s| | |s m e]; try contradiction; intros _; cbn [SFabs SF2R].
  - split; [exact I|]. now rewrite Rabs_R0.
  - split; [exact I|]. rewrite Rabs_mult, sgn_abs. cbn [sgn].
    rewrite Rabs_right; [reflexivity|].
    apply Rle_ge. apply (mag_nonneg (S754_finite s m e)).
Qed.

(** ** A wider range, for scaling and halving an angle *)

Lemma round_signed_wide (s : bool) (m : positive) (e : Z) :
  IZR (Z.pos m) * bpow e <= bpow 1022 -> (e <= 971)%Z ->
  let z := sgn s * (IZR (Z.pos m) * bpow e) in
  let r := binary_round_aux prec emax s (Z.pos m) e loc_Exact in
  SFfinite r
  /\ Rabs (SF2R r - z) <= Rabs z * bpow (-50) + bpow (-1073).
Proof.
  intros Hbig He z r.
  destruct (binary_round_aux_wide s (Z.pos m) e loc_Exact
              (IZR (Z.pos m) * bpow e)) as [Hs Hr]; try lra; try lia.
  - pose proof (bpow_pos e). nra.
  - left. split; reflexivity.
  - fold r in Hs, Hr. split; [exact (signed_finite s r Hs)|].
    rewrite (signed_value s r Hs). unfold z.
    set (z0 := IZR (Z.pos m) * bpow e) in *.
    replace (sgn s * mag r - sgn s * z0) with (sgn s * (mag r - z0)) by ring.
    rewrite !Rabs_mult, sgn_abs, !Rmult_1_l.
    rewrite (Rabs_right z0); [exact Hr|].
    apply Rle_ge. apply (mag_nonneg (S754_finite s m e)).
Qed.

(** What [valid_binary] says of a finite double: the mantissa has at most
    53 digits and the exponent is at most 971. *)
Lemma valid_finite_bounds (s : bool) (m : positive) (e : Z) :
  SpecFloat.valid_binary prec emax (S754_finite s m e) = true ->
  (e <= 971)%Z /\ (-1074 <= e)%Z
  /\ IZR (Z.pos m) * bpow e <= bpow 53 * bpow e
  /\ ((e = -1074)%Z \/ bpow 52 <= IZR (Z.pos m)).
Proof.
  cbn [SpecFloat.valid_binary]. unfold bounded, canonical_mantissa.
  rewrite andb_true_iff. intros [Hc He].
  apply Z.leb_le in He. change (emax - prec)%Z with 971%Z in He.
  apply Z.eqb_eq in Hc. rewrite fexp_eq in Hc.
  pose proof (digits2_bounds m) as [Hlo Hhi].
  assert (Hd : (Z.pos (digits2_pos m) <= 53)%Z) by lia.
  split; [exact He|]. split; [lia|]. split.
  - apply Rmult_le_compat_r; [pose proof (bpow_pos e); lra|].
    rewrite bpow_IZR by lia. apply IZR_le.
    apply Z.le_trans with (2 ^ Z.pos (digits2_pos m))%Z; [lia|].
    apply Z.pow_le_mono_r; lia.
  - destruct (Z.eq_dec e (-1074)) as [E | N]; [now left|right].
    assert (Z.pos (digits2_pos m) = 53)%Z by lia.
    rewrite bpow_IZR by lia. apply IZR_le.
    replace 52%Z with (Z.pos (digits2_pos m) - 1)%Z by lia. exact Hlo.
Qed.

Lemma SFmul_wide (f g : spec_float) :
  SFfinite f -> SFfinite g ->
  Rabs (SF2R f * SF2R g) <= bpow 1022 ->
  (forall s m e s' m' e',
     f = S754_finite s m e -> g = S754_finite s' m' e' -> (e + e' <= 971)%Z) ->
  SFfinite (SF64mul f g)
  /\ Rabs (SF2R (SF64mul f g) - SF2R f * SF2R g)
     <= Rabs (SF2R f * SF2R g) * bpow (-50) + bpow (-1073).
Proof.
  intros Hf Hg Hbig Hexp.
  assert (H0 : 0 <= bpow (-1073)) by (pose proof (bpow_pos (-1073)); lra).
  destruct f as [s| | |s m e]; destruct g as [s'| | |s' m' e'];
    try contradiction; cbn [SF64mul SFmul SF2R];
    rewrite ?Rmult_0_l, ?Rmult_0_r, ?Rminus_0_r, ?Rabs_R0, ?Rmult_0_l;
    try (split; [exact I | lra]).
  assert (Hz : sgn s * (IZR (Z.pos m) * bpow e) * (sgn s' * (IZR (Z.pos m') * bpow e'))
               = sgn (xorb s s') * (IZR (Z.pos (m * m')) * bpow (e + e'))).
  { rewrite sgn_xorb, bpow_add, Pos2Z.inj_mul, mult_IZR. ring. }
  cbn [SF2R] in Hbig. rewrite Hz in *.
  apply round_signed_wide; [|now apply (Hexp s m e s' m' e')].
  rewrite Rabs_mult, sgn_abs, Rmult_1_l in Hbig.
  rewrite Rabs_right in Hbig; [exact Hbig|].
  apply Rle_ge. apply (mag_nonneg (S754_finite s (m * m') (e + e'))).
Qed.

(** Division: the quotient and the exponent that are handed to the
    rounding. *)
Lemma SFdiv_core_value (m1 m2 : positive) (e1 e2 : Z) :
  let '(q, e', l) := SFdiv_core_binary prec emax (Z.pos m1) e1 (Z.pos m2) e2 in
  let z := (IZR (Z.pos m1) * bpow e1) / (IZR (Z.pos m2) * bpow e2) in
  (0 <= q)%Z
  /\ IZR q * bpow e' <= z /\ z <= (IZR q + 1) * bpow e'
  /\ bpow e' <= z * bpow (-52) + bpow (-1074).
Proof.
  unfold SFdiv_core_binary.
  set (d1 := Zdigits2 (Z.pos m1)). set (d2 := Zdigits2 (Z.pos m2)).
  set (e' := Z.min (fexp prec emax (d1 + e1 - (d2 + e2))) (e1 - e2)).
  set (s := (e1 - e2 - e')%Z).
  assert (Hs : (0 <= s)%Z) by (unfold s, e'; lia).
  set (m' := match s with
             | 0%Z => Z.pos m1
             | Z.pos _ => Z.shiftl (Z.pos m1) s
             | Z.neg _ => 0%Z
             end).
  assert (Hm' : m' = (Z.pos m1 * 2 ^ s)%Z).
  { unfold m'. destruct s as [|p|p]; [cbn; lia | | lia].
    apply Z.shiftl_mul_pow2. lia. }
  assert (Hm0 : (0 <= m')%Z).
  { rewrite Hm'. apply Z.mul_nonneg_nonneg; [lia|]. apply Z.pow_nonneg. lia. }
  pose proof (Z_div_mod m' (Z.pos m2) ltac:(lia)) as Hq.
  destruct (Z.div_eucl m' (Z.pos m2)) as [q r]. destruct Hq as [Hq Hr].
  cbv zeta.
  assert (Hq0 : (0 <= q)%Z) by nia.
  pose proof (bpow_pos e') as Hpe. pose proof (bpow_pos e1) as Hpe1.
  pose proof (bpow_pos e2) as Hpe2.
  assert (Hm2 : 0 < IZR (Z.pos m2)) by (apply IZR_lt; lia).
  assert (Hm1 : 0 < IZR (Z.pos m1)) by (apply IZR_lt; lia).
  assert (HY : 0 < IZR (Z.pos m2) * bpow e2) by nra.
  set (Y := IZR (Z.pos m2) * bpow e2) in *.
  set (z := IZR (Z.pos m1) * bpow e1 / Y).
  assert (HzY : z * Y = IZR (Z.pos m1) * bpow e1).
  { unfold z. field. lra. }
  assert (Hval : IZR (Z.pos m1) * bpow e1 = IZR m' * bpow e' * bpow e2).
  { rewrite Hm', mult_IZR, <- bpow_IZR by exact Hs.
    rewrite !Rmult_assoc, <- !bpow_add. f_equal. f_equal. unfold s. lia. }
  assert (Hlo : IZR (Z.pos m2) * IZR q <= IZR m').
  { rewrite <- mult_IZR. apply IZR_le. lia. }
  assert (Hhi : IZR m' <= IZR (Z.pos m2) * (IZR q + 1)).
  { rewrite <- plus_IZR, <- mult_IZR. apply IZR_le. lia. }
  assert (Hz1 : IZR q * bpow e' * Y <= z * Y).
  { rewrite HzY, Hval. unfold Y.
    replace (IZR q * bpow e' * (IZR (Z.pos m2) * bpow e2))
      with (IZR (Z.pos m2) * IZR q * (bpow e' * bpow e2)) by ring.
    replace (IZR m' * bpow e' * bpow e2) with (IZR m' * (bpow e' * bpow e2)) by ring.
    apply Rmult_le_compat_r; [nra | exact Hlo]. }
  assert (Hz2 : z * Y <= (IZR q + 1) * bpow e' * Y).
  { rewrite HzY, Hval. unfold Y.
    replace ((IZR q + 1) * bpow e' * (IZR (Z.pos m2) * bpow e2))
      with (IZR (Z.pos m2) * (IZR q + 1) * (bpow e' * bpow e2)) by ring.
    replace (IZR m' * bpow e' * bpow e2) with (IZR m' * (bpow e' * bpow e2)) by ring.
    apply Rmult_le_compat_r; [nra | exact Hhi]. }
  split; [exact Hq0|].
  split; [apply (Rmult_le_reg_r Y); assumption|].
  split; [apply (Rmult_le_reg_r Y); assumption|].
  (* the unit of the quotient is small against the quotient *)
  assert (He' : (e' <= fexp prec emax (d1 + e1 - (d2 + e2)))%Z) by (unfold e'; lia).
  rewrite fexp_eq in He'.
  pose proof (bpow_pos (-52)) as Hu. pose proof (bpow_pos (-1074)) as Ht.
  assert (Hz0 : 0 < z).
  { unfold z. apply Rdiv_lt_0_compat; [nra | exact HY]. }
  destruct (Z.max_spec (d1 + e1 - (d2 + e2) - 53) (-1074)) as [[_ E] | [_ E]];
    rewrite E in He'.
  - apply (bpow_le e' (-1074)) in He'. nra.
  - apply (bpow_le e' (d1 + e1 - (d2 + e2) - 53)) in He'.
    assert (Hquot : bpow (d1 + e1 - (d2 + e2) - 1) <= z).
    { apply (Rmult_le_reg_r Y); [exact HY|]. rewrite HzY.
      apply Rle_trans with (bpow (d1 + e1 - (d2 + e2) - 1) * (bpow d2 * bpow e2)).
      - apply Rmult_le_compat_l; [pose proof (bpow_pos (d1 + e1 - (d2 + e2) - 1)); lra|].
        unfold Y. apply Rmult_le_compat_r; [lra|].
        unfold d2. cbn [Zdigits2].
        rewrite bpow_IZR by (pose proof (Pos2Z.is_pos (digits2_pos m2)); lia).
        apply IZR_le. pose proof (digits2_bounds m2). lia.
      - rewrite <- !bpow_add.
        replace (d1 + e1 - (d2 + e2) - 1 + (d2 + e2))%Z with ((d1 - 1) + e1)%Z by lia.
        rewrite bpow_add. apply Rmult_le_compat_r; [lra|].
        unfold d1. cbn [Zdigits2].
        rewrite bpow_IZR by (pose proof (Pos2Z.is_pos (digits2_pos m1)); lia).
        apply IZR_le. apply digits2_bounds. }
    replace (d1 + e1 - (d2 + e2) - 53)%Z
      with ((d1 + e1 - (d2 + e2) - 1) + -52)%Z in He' by lia.
    rewrite bpow_add in He'. nra.
Qed.

Lemma SFdiv_error (f g : spec_float) :
  SFfinite f -> SFfinite g -> SF2R g <> 0 ->
  Rabs (SF2R f / SF2R g) <= bpow 1022 ->
  SFfinite (SF64div f g)
  /\ Rabs (SF2R (SF64div f g) - SF2R f / SF2R g)
     <= Rabs (SF2R f / SF2R g) * bpow (-50) + bpow (-1073).
Proof.
  intros Hf Hg Hne Hbig.
  assert (H0 : 0 <= bpow (-1073)) by (pose proof (bpow_pos (-1073)); lra).
  destruct g as [s'| | |s' m' e']; try contradiction;
    try (exfalso; apply Hne; reflexivity).
  destruct f as [s| | |s m e]; try contradiction; unfold SF64div, SFdiv.
  - split; [exact I|]. cbn [SF2R]. unfold Rdiv.
    rewrite !Rmult_0_l, Rminus_0_r, Rabs_R0. lra.
  - pose proof (SFdiv_core_value m m' e e') as Hc.
    destruct (SFdiv_core_binary prec emax (Z.pos m) e (Z.pos m') e') as [[q e2] l].
    cbv zeta in Hc. destruct Hc as (Hq & Hlo & Hhi & Hunit).
    set (z := IZR (Z.pos m) * bpow e / (IZR (Z.pos m') * bpow e')) in *.
    assert (HY : 0 < IZR (Z.pos m') * bpow e').
    { pose proof (bpow_pos e'). assert (0 < IZR (Z.pos m')) by (apply IZR_lt; lia). nra. }
    assert (Hz0 : 0 <= z).
    { unfold z. apply Rlt_le. apply Rdiv_lt_0_compat; [|exact HY].
      pose proof (bpow_pos e). assert (0 < IZR (Z.pos m)) by (apply IZR_lt; lia). nra. }
    assert (Hsz : sgn s * (IZR (Z.pos m) * bpow e) / (sgn s' * (IZR (Z.pos m') * bpow e'))
                  = sgn (xorb s s') * z).
    { pose proof (bpow_pos e') as Hb'.
      assert (Hm' : 0 < IZR (Z.pos m')) by (apply IZR_lt; lia).
      unfold z. rewrite sgn_xorb.
      destruct s, s'; cbn [sgn]; field; repeat split; lra. }
    cbn [SF2R] in *. rewrite Hsz in *.
    rewrite Rabs_mult, sgn_abs, Rmult_1_l, (Rabs_right z) in * by lra.
    assert (He2 : (e2 <= 971)%Z \/ z <= bpow 900).
    { left. pose proof (bpow_pos (-52)) as Hu.
      destruct small_powers as (_ & Hu1 & _ & _ & Ht0 & Ht900 & _ & H969 & H970 & H971).
      assert (bpow e2 <= bpow 971).
      { rewrite H971. pose proof (bpow_pos 969).
        assert (z * bpow (-52) <= 2 * bpow 969).
        { rewrite <- H970. apply Rmult_le_compat_r; lra. }
        lra. }
      now apply bpow_le_inv. }
    destruct (binary_round_aux_wide (xorb s s') q e2 l z Hq Hlo Hhi Hbig He2
                (or_intror Hunit)) as [Hs He].
    split; [exact (signed_finite _ _ Hs)|].
    rewrite (signed_value _ _ Hs).
    replace (sgn (xorb s s') * mag (binary_round_aux prec emax (xorb s s') q e2 l)
             - sgn (xorb s s') * z)
      with (sgn (xorb s s') * (mag (binary_round_aux prec emax (xorb s s') q e2 l) - z))
      by ring.
    rewrite Rabs_mult, sgn_abs, Rmult_1_l. exact He.
Qed.

End SpecError.

Module FloatError.
Import Binary64 Bpow Rounding SpecError.
Local Open Scope R_scope.

Lemma is_finite_SF (x : float) : is_finite x = true <-> SFfinite (Prim2SF x).
Proof.
  unfold is_finite, is_nan, is_infinity.
  rewrite negb_true_iff, orb_false_iff, negb_false_iff.
  rewrite !FloatAxioms.eqb_spec, FloatAxioms.abs_spec.
  change (Prim2SF infinity) with (S754_infinity false).
  destruct (Prim2SF x) as [s|s| |s m e]; cbn [SFfinite SFabs]; unfold SFeqb;
    cbn [SFcompare].
  - tauto.
  - split; [|contradiction]. intros [_ H]. destruct s; discriminate H.
  - split; [|contradiction]. intros [H _]. discriminate H.
  - split; [trivial|]. intros _. split; [|reflexivity].
    rewrite Z.compare_refl, Pos.compare_cont_refl. now destruct s.
Qed.

Lemma to_R_one : to_R 1 = 1.
Proof.
  unfold to_R. change (Prim2SF 1) with (S754_finite false 4503599627370496 (-52)).
  cbn [SF2R sgn]. change 4503599627370496%Z with (2 ^ 52)%Z.
  rewrite <- bpow_IZR by lia. rewrite <- bpow_add. cbn. lra.
Qed.

Lemma to_R_zero : to_R 0 = 0.
Proof. reflexivity. Qed.

Lemma mul_error (x y : float) :
  is_finite x = true -> is_finite y = true ->
  Rabs (to_R x * to_R y) <= bpow 900 ->
  is_finite (x * y) = true
  /\ Rabs (to_R (x * y) - to_R x * to_R y)
     <= Rabs (to_R x * to_R y) * bpow (-50) + bpow (-1073).
Proof.
  rewrite !is_finite_SF. unfold to_R. rewrite FloatAxioms.mul_spec.
  apply SFmul_error.
Qed.

Lemma add_error (x y : float) :
  is_finite x = true -> is_finite y = true ->
  Rabs (to_R x + to_R y) <= bpow 900 ->
  is_finite (x + y) = true
  /\ Rabs (to_R (x + y) - (to_R x + to_R y))
     <= Rabs (to_R x + to_R y) * bpow (-50) + bpow (-1073).
Proof.
  rewrite !is_finite_SF. unfold to_R. rewrite FloatAxioms.add_spec.
  apply SFadd_error.
Qed.

Lemma sub_error (x y : float) :
  is_finite x = true -> is_finite y = true ->
  Rabs (to_R x - to_R y) <= bpow 900 ->
  is_finite (x - y) = true
  /\ Rabs (to_R (x - y) - (to_R x - to_R y))
     <= Rabs (to_R x - to_R y) * bpow (-50) + bpow (-1073).
Proof.
  rewrite !is_finite_SF. unfold to_R. rewrite FloatAxioms.sub_spec.
  apply SFsub_error.
Qed.

Lemma div_error (x y : float) :
  is_finite x = true -> is_finite y = true -> to_R y <> 0 ->
  Rabs (to_R x / to_R y) <= bpow 1022 ->
  is_finite (x / y) = true
  /\ Rabs (to_R (x / y) - to_R x / to_R y)
     <= Rabs (to_R x / to_R y) * bpow (-50) + bpow (-1073).
Proof.
  rewrite !is_finite_SF. unfold to_R. rewrite FloatAxioms.div_spec.
  apply SFdiv_error.
Qed.

Lemma sqrt_error (x : float) :
  is_finite x = true -> 0 <= to_R x -> to_R x <= bpow 900 ->
  is_finite (PrimFloat.sqrt x) = true
  /\ Rabs (to_R (PrimFloat.sqrt x) - R_sqrt.sqrt (to_R x))
     <= R_sqrt.sqrt (to_R x) * bpow (-50) + bpow (-1073).
Proof.
  rewrite !is_finite_SF. unfold to_R. rewrite FloatAxioms.sqrt_spec.
  apply SFsqrt_error.
Qed.

Lemma abs_value (x : float) :
  is_finite x = true ->
  is_finite (abs x) = true /\ to_R (abs x) = Rabs (to_R x).
Proof.
  rewrite !is_finite_SF. unfold to_R. rewrite FloatAxioms.abs_spec.
  apply SFabs_value.
Qed.

Lemma mul_wide (x y : float) :
  is_finite x = true -> is_finite y = true ->
  Rabs (to_R x * to_R y) <= bpow 1022 ->
  (forall s m e s' m' e',
     Prim2SF x = S754_finite s m e -> Prim2SF y = S754_finite s' m' e' ->
     (e + e' <= 971)%Z) ->
  is_finite (x * y) = true
  /\ Rabs (to_R (x * y) - to_R x * to_R y)
     <= Rabs (to_R x * to_R y) * bpow (-50) + bpow (-1073).
Proof.
  rewrite !is_finite_SF. unfold to_R. rewrite FloatAxioms.mul_spec.
  apply SFmul_wide.
Qed.

(** The exponent of a finite double is at most 971. *)
Lemma exponent_bound (x : float) (s : bool) (m : positive) (e : Z) :
  Prim2SF x = S754_finite s m e -> (e <= 971)%Z.
Proof.
  intros E. pose proof (FloatAxioms.Prim2SF_valid x) as Hv. rewrite E in Hv.
  now destruct (valid_finite_bounds s m e Hv).
Qed.

(** The magnitude of a finite double is below [2^1024]. *)
Lemma to_R_bound (x : float) : Rabs (to_R x) <= bpow 1024.
Proof.
  unfold to_R. rewrite SF2R_mag.
  pose proof (FloatAxioms.Prim2SF_valid x) as Hv.
  pose proof (bpow_pos 1024) as Hp.
  destruct (Prim2SF x) as [s|s| |s m e]; cbn [mag]; try lra.
  destruct (valid_finite_bounds s m e Hv) as (He & _ & Hm & _).
  apply Rle_trans with (1 := Hm). rewrite <- bpow_add. apply bpow_le. lia.
Qed.

(** A finite double of at most [2^-21] is below the double nearest to
    [1e-6]: its exponent is the smaller one. *)
Lemma leb_small (a : float) :
  is_finite a = true -> to_R a <= bpow (-21) -> (a <=? 1e-6)%float = true.
Proof.
  intros Hf Hle. rewrite FloatAxioms.leb_spec.
  pose proof (FloatAxioms.Prim2SF_valid a) as Hv.
  apply is_finite_SF in Hf. unfold to_R in Hle.
  change (Prim2SF 1e-6) with (S754_finite false 4722366482869645 (-72)).
  destruct (Prim2SF a) as [s|s| |s m e]; try contradiction; [reflexivity|].
  destruct s; [reflexivity|].
  destruct (valid_finite_bounds false m e Hv) as (_ & _ & _ & Hc).
  assert (He : (e < -72)%Z).
  { destruct Hc as [-> | Hc]; [lia|].
    cbn [SF2R sgn] in Hle. rewrite Rmult_1_l in Hle.
    assert (H : bpow (52 + e) <= bpow (-21)).
    { rewrite bpow_add. apply Rle_trans with (2 := Hle).
      apply Rmult_le_compat_r; [pose proof (bpow_pos e); lra | exact Hc]. }
    apply bpow_le_inv in H. lia. }
  unfold SFleb. cbn [SFcompare].
  apply Z.compare_lt_iff in He. now rewrite He.
Qed.

(** ** Propagation of errors *)

Lemma units :
  0 < bpow (-38)
  /\ 2048 * bpow (-50) + bpow (-1073) <= bpow (-38)
  /\ 2048 <= bpow 900.
Proof.
  split; [apply bpow_pos|]. split.
  - assert (H1 : bpow (-1073) <= bpow (-50)) by (apply bpow_le; lia).
    assert (H2 : bpow (-38) = 4096 * bpow (-50)).
    { change (-38)%Z with (12 + -50)%Z. rewrite bpow_add, (bpow_IZR 12) by lia.
      reflexivity. }
    pose proof (bpow_pos (-50)). lra.
  - apply Rle_trans with (bpow 11); [|apply bpow_le; lia].
    rewrite (bpow_IZR 11) by lia. apply IZR_le. reflexivity.
Qed.

Lemma near_weaken (x : float) (a M d M' d' : R) :
  near x a M d -> M <= M' -> d <= d' -> near x a M' d'.
Proof. intros (Hf & Hd & HM) H1 H2. repeat split; [exact Hf | lra | lra]. Qed.

Lemma near_self (x : float) (M : R) :
  is_finite x = true -> Rabs (to_R x) <= M -> near x (to_R x) M 0.
Proof.
  intros Hf HM. repeat split; [exact Hf | | exact HM].
  replace (to_R x - to_R x) with 0 by ring. rewrite Rabs_R0. lra.
Qed.

Lemma near_bound (x : float) (a M d : R) :
  near x a M d -> 0 <= M /\ 0 <= d /\ Rabs (to_R x) <= M + d.
Proof.
  intros (_ & Hd & HM).
  pose proof (Rabs_pos a). pose proof (Rabs_pos (to_R x - a)).
  repeat split; try lra.
  replace (to_R x) with (a + (to_R x - a)) by ring.
  eapply Rle_trans; [apply Rabs_triang|]. lra.
Qed.

Lemma near_mul (x y : float) (a b Ma Mb da db : R) :
  near x a Ma da -> near y b Mb db ->
  da <= 1 -> db <= 1 -> (Ma + 1) * (Mb + 1) <= 2048 ->
  near (x * y) (a * b) (Ma * Mb) (Mb * da + Ma * db + da + bpow (-38)).
Proof.
  intros Hx Hy Hda Hdb HM.
  destruct (near_bound _ _ _ _ Hx) as (HMa & Hda0 & HX).
  destruct (near_bound _ _ _ _ Hy) as (HMb & Hdb0 & HY).
  destruct Hx as (Hfx & Hex & Hax). destruct Hy as (Hfy & Hey & Hby).
  destruct units as (Hu0 & Hu & Hbig).
  set (X := to_R x) in *. set (Y := to_R y) in *.
  assert (HXY : Rabs (X * Y) <= 2048).
  { rewrite Rabs_mult. apply Rle_trans with ((Ma + 1) * (Mb + 1)); [|exact HM].
    apply Rmult_le_compat; try apply Rabs_pos; lra. }
  destruct (mul_error x y Hfx Hfy) as [Hf He]; [fold X Y; lra|].
  fold X Y in He.
  assert (Hab : Rabs (X * Y - a * b) <= Mb * da + Ma * db + da).
  { replace (X * Y - a * b) with ((X - a) * Y + a * (Y - b)) by ring.
    eapply Rle_trans; [apply Rabs_triang|]. rewrite !Rabs_mult.
    assert (H1 : Rabs (X - a) * Rabs Y <= da * (Mb + db)).
    { apply Rmult_le_compat; try apply Rabs_pos; lra. }
    assert (H2 : Rabs a * Rabs (Y - b) <= Ma * db).
    { apply Rmult_le_compat; try apply Rabs_pos; lra. }
    assert (H3 : da * db <= da * 1) by (apply Rmult_le_compat_l; lra).
    lra. }
  repeat split; [exact Hf | |].
  - replace (to_R (x * y) - a * b)
      with ((to_R (x * y) - X * Y) + (X * Y - a * b)) by ring.
    eapply Rle_trans; [apply Rabs_triang|].
    pose proof (bpow_pos (-50)) as H50.
    assert (Rabs (X * Y) * bpow (-50) <= 2048 * bpow (-50))
      by (apply Rmult_le_compat_r; lra).
    lra.
  - rewrite Rabs_mult. apply Rmult_le_compat; try apply Rabs_pos; lra.
Qed.

Lemma near_add (x y : float) (a b Ma Mb da db : R) :
  near x a Ma da -> near y b Mb db ->
  Ma + da + (Mb + db) <= 2048 ->
  near (x + y) (a + b) (Ma + Mb) (da + db + bpow (-38)).
Proof.
  intros Hx Hy HM.
  destruct (near_bound _ _ _ _ Hx) as (HMa & Hda0 & HX).
  destruct (near_bound _ _ _ _ Hy) as (HMb & Hdb0 & HY).
  destruct Hx as (Hfx & Hex & Hax). destruct Hy as (Hfy & Hey & Hby).
  destruct units as (Hu0 & Hu & Hbig).
  set (X := to_R x) in *. set (Y := to_R y) in *.
  assert (HXY : Rabs (X + Y) <= 2048).
  { eapply Rle_trans; [apply Rabs_triang|]. lra. }
  destruct (add_error x y Hfx Hfy) as [Hf He]; [fold X Y; lra|].
  fold X Y in He.
  repeat split; [exact Hf | |].
  - replace (to_R (x + y) - (a + b))
      with ((to_R (x + y) - (X + Y)) + ((X - a) + (Y - b))) by ring.
    eapply Rle_trans; [apply Rabs_triang|].
    pose proof (Rabs_triang (X - a) (Y - b)).
    pose proof (bpow_pos (-50)) as H50.
    assert (Rabs (X + Y) * bpow (-50) <= 2048 * bpow (-50))
      by (apply Rmult_le_compat_r; lra).
    lra.
  - eapply Rle_trans; [apply Rabs_triang|]. lra.
Qed.

Lemma near_sub (x y : float) (a b Ma Mb da db : R) :
  near x a Ma da -> near y b Mb db ->
  Ma + da + (Mb + db) <= 2048 ->
  near (x - y) (a - b) (Ma + Mb) (da + db + bpow (-38)).
Proof.
  intros Hx Hy HM.
  destruct (near_bound _ _ _ _ Hx) as (HMa & Hda0 & HX).
  destruct (near_bound _ _ _ _ Hy) as (HMb & Hdb0 & HY).
  destruct Hx as (Hfx & Hex & Hax). destruct Hy as (Hfy & Hey & Hby).
  destruct units as (Hu0 & Hu & Hbig).
  set (X := to_R x) in *. set (Y := to_R y) in *.
  assert (Htri : forall p q, Rabs (p - q) <= Rabs p + Rabs q).
  { intros p q. unfold Rminus. eapply Rle_trans; [apply Rabs_triang|].
    rewrite Rabs_Ropp. lra. }
  assert (HXY : Rabs (X - Y) <= 2048).
  { eapply Rle_trans; [apply Htri|]. lra. }
  destruct (sub_error x y Hfx Hfy) as [Hf He]; [fold X Y; lra|].
  fold X Y in He.
  repeat split; [exact Hf | |].
  - replace (to_R (x - y) - (a - b))
      with ((to_R (x - y) - (X - Y)) + ((X - a) - (Y - b))) by ring.
    eapply Rle_trans; [apply Rabs_triang|].
    pose proof (Htri (X - a) (Y - b)).
    pose proof (bpow_pos (-50)) as H50.
    assert (Rabs (X - Y) * bpow (-50) <= 2048 * bpow (-50))
      by (apply Rmult_le_compat_r; lra).
    lra.
  - eapply Rle_trans; [apply Htri|]. lra.
Qed.

End FloatError.

(* ================================================================== *)
(** * The order of doubles *)
(* ================================================================== *)

Module FloatOrder.
Import Binary64.
Local Open Scope Z_scope.

Lemma SFcompare_rank (f g : spec_float) :
  f <> S754_nan -> g <> S754_nan ->
  match SFcompare f g with
  | Some Lt => lex_lt (rank f) (rank g)
  | Some Eq => rank f = rank g
  | Some Gt => lex_lt (rank g) (rank f)
  | None => False
  end.
Proof.
  intros Hf Hg.
  destruct f as [s|s| |s m e]; destruct g as [s'|s'| |s' m' e'];
    try congruence; try destruct s; try destruct s'; cbn; try lia; try reflexivity.
  - destruct (Z.compare_spec e e'); cbn; try lia.
    rewrite Pos.compare_cont_spec. cbn.
    destruct (Pos.compare_spec m m'); cbn; subst; try reflexivity; lia.
  - destruct (Z.compare_spec e e'); cbn; try lia.
    rewrite Pos.compare_cont_spec. cbn.
    destruct (Pos.compare_spec m m'); cbn; subst; try reflexivity; lia.
Qed.

Local Open Scope float_scope.

Lemma is_nan_spec (x : float) :
  is_nan x = false <-> Prim2SF x <> S754_nan.
Proof.
  unfold is_nan. rewrite negb_false_iff, FloatAxioms.eqb_spec. unfold SFeqb.
  split.
  - intros H E. rewrite E in H. discriminate H.
  - intros H. pose proof (SFcompare_rank _ _ H H) as Hc.
    destruct (SFcompare (Prim2SF x) (Prim2SF x)) as [[ | | ]|];
      [reflexivity | | | destruct Hc];
      exfalso; destruct (rank (Prim2SF x)) as [[a b] c]; cbn in Hc; lia.
Qed.

Lemma leb_rank (x y : float) :
  is_nan x = false -> is_nan y = false ->
  ((x <=? y) = true <-> lex_le (rank (Prim2SF x)) (rank (Prim2SF y))).
Proof.
  intros Hx Hy. apply is_nan_spec in Hx, Hy.
  rewrite FloatAxioms.leb_spec. unfold SFleb.
  pose proof (SFcompare_rank _ _ Hx Hy) as Hc.
  destruct (SFcompare (Prim2SF x) (Prim2SF y)) as [[ | | ]|];
    [ | | | destruct Hc];
    destruct (rank (Prim2SF x)) as [[a b] c];
    destruct (rank (Prim2SF y)) as [[a' b'] c']; cbn in *.
  - injection Hc as -> -> ->. split; [lia | reflexivity].
  - split; [lia | reflexivity].
  - split; [discriminate | lia].
Qed.

Lemma ltb_rank (x y : float) :
  is_nan x = false -> is_nan y = false ->
  ((x <? y) = true <-> lex_lt (rank (Prim2SF x)) (rank (Prim2SF y))).
Proof.
  intros Hx Hy. apply is_nan_spec in Hx, Hy.
  rewrite FloatAxioms.ltb_spec. unfold SFltb.
  pose proof (SFcompare_rank _ _ Hx Hy) as Hc.
  destruct (SFcompare (Prim2SF x) (Prim2SF y)) as [[ | | ]|];
    [ | | | destruct Hc];
    destruct (rank (Prim2SF x)) as [[a b] c];
    destruct (rank (Prim2SF y)) as [[a' b'] c']; cbn in *.
  - injection Hc as -> -> ->. split; [discriminate | lia].
  - split; [lia | reflexivity].
  - split; [discriminate | lia].
Qed.

Lemma leb_refl (x : float) : is_nan x = false -> (x <=? x) = true.
Proof.
  intros H. apply (leb_rank x x H H).
  destruct (rank (Prim2SF x)) as [[a b] c]. cbn. lia.
Qed.

Lemma leb_trans (x y z : float) :
  is_nan x = false -> is_nan y = false -> is_nan z = false ->
  (x <=? y) = true -> (y <=? z) = true -> (x <=? z) = true.
Proof.
  intros Hx Hy Hz. rewrite (leb_rank x y), (leb_rank y z), (leb_rank x z) by assumption.
  destruct (rank (Prim2SF x)) as [[a b] c];
    destruct (rank (Prim2SF y)) as [[a' b'] c'];
    destruct (rank (Prim2SF z)) as [[a'' b''] c'']. cbn. lia.
Qed.

Lemma not_ltb_leb (x y : float) :
  is_nan x = false -> is_nan y = false ->
  (y <? x) = false -> (x <=? y) = true.
Proof.
  intros Hx Hy H. apply (leb_rank x y Hx Hy).
  assert (Hn : ~ lex_lt (rank (Prim2SF y)) (rank (Prim2SF x))).
  { intros Hl. apply (ltb_rank y x Hy Hx) in Hl. congruence. }
  destruct (rank (Prim2SF x)) as [[a b] c];
    destruct (rank (Prim2SF y)) as [[a' b'] c']. cbn in *. lia.
Qed.

Lemma ltb_leb (x y : float) :
  is_nan x = false -> is_nan y = false ->
  (x <? y) = true -> (x <=? y) = true.
Proof.
  intros Hx Hy H. apply (leb_rank x y Hx Hy). apply (ltb_rank x y Hx Hy) in H.
  destruct (rank (Prim2SF x)) as [[a b] c];
    destruct (rank (Prim2SF y)) as [[a' b'] c']. cbn in *. lia.
Qed.

Lemma abs_not_nan (x : float) : is_nan x = false -> is_nan (abs x) = false.
Proof.
  rewrite !is_nan_spec, FloatAxioms.abs_spec.
  destruct (Prim2SF x); cbn; congruence.
Qed.

(** [np.maximum] and [np.minimum] of two doubles that are not NaN: one of
    the two, above (below) both. *)
Lemma maximum_spec (a b : float) :
  is_nan a = false -> is_nan b = false ->
  (F64.maximum a b = a \/ F64.maximum a b = b)
  /\ (a <=? F64.maximum a b) = true /\ (b <=? F64.maximum a b) = true.
Proof.
  intros Ha Hb. unfold F64.maximum. rewrite Ha.
  destruct (b <? a) eqn:E.
  - split; [now left|]. split; [now apply leb_refl | now apply ltb_leb].
  - split; [now right|]. split; [now apply not_ltb_leb | now apply leb_refl].
Qed.

Lemma minimum_spec (a b : float) :
  is_nan a = false -> is_nan b = false ->
  (F64.minimum a b = a \/ F64.minimum a b = b)
  /\ (F64.minimum a b <=? a) = true /\ (F64.minimum a b <=? b) = true.
Proof.
  intros Ha Hb. unfold F64.minimum. rewrite Ha.
  destruct (a <? b) eqn:E.
  - split; [now left|]. split; [now apply leb_refl | now apply ltb_leb].
  - split; [now right|]. split; [now apply not_ltb_leb | now apply leb_refl].
Qed.

Lemma fold_maximum (l : list float) (x : float) :
  is_nan x = false -> Forall (fun y => is_nan y = false) l ->
  In (fold_left F64.maximum l x) (x :: l)
  /\ forall y, In y (x :: l) -> (y <=? fold_left F64.maximum l x) = true.
Proof.
  revert x. induction l as [|a l IH]; intros x Hx Hl.
  - split; [now left|]. intros y [<- | []]. now apply leb_refl.
  - inversion Hl as [|? ? Ha Hl']; subst. cbn [fold_left].
    destruct (maximum_spec x a Hx Ha) as [Hin [Hxa Haa]].
    assert (Hm : is_nan (F64.maximum x a) = false) by
      (destruct Hin as [-> | ->]; assumption).
    destruct (IH _ Hm Hl') as [Hr Hb]. split.
    + destruct Hr as [Hr | Hr].
      * rewrite <- Hr. destruct Hin as [-> | ->]; [now left | right; now left].
      * right. now right.
    + assert (Hrn : is_nan (fold_left F64.maximum l (F64.maximum x a)) = false).
      { destruct Hr as [<- | Hr]; [exact Hm|].
        rewrite Forall_forall in Hl'. now apply Hl'. }
      intros y [<- | [<- | Hy]].
      * apply (leb_trans x (F64.maximum x a)); try assumption.
        apply Hb. now left.
      * apply (leb_trans a (F64.maximum x a)); try assumption.
        apply Hb. now left.
      * apply Hb. now right.
Qed.

Lemma fold_minimum (l : list float) (x : float) :
  is_nan x = false -> Forall (fun y => is_nan y = false) l ->
  In (fold_left F64.minimum l x) (x :: l)
  /\ forall y, In y (x :: l) -> (fold_left F64.minimum l x <=? y) = true.
Proof.
  revert x. induction l as [|a l IH]; intros x Hx Hl.
  - split; [now left|]. intros y [<- | []]. now apply leb_refl.
  - inversion Hl as [|? ? Ha Hl']; subst. cbn [fold_left].
    destruct (minimum_spec x a Hx Ha) as [Hin [Hxa Haa]].
    assert (Hm : is_nan (F64.minimum x a) = false) by
      (destruct Hin as [-> | ->]; assumption).
    destruct (IH _ Hm Hl') as [Hr Hb]. split.
    + destruct Hr as [Hr | Hr].
      * rewrite <- Hr. destruct Hin as [-> | ->]; [now left | right; now left].
      * right. now right.
    + assert (Hrn : is_nan (fold_left F64.minimum l (F64.minimum x a)) = false).
      { destruct Hr as [<- | Hr]; [exact Hm|].
        rewrite Forall_forall in Hl'. now apply Hl'. }
      intros y [<- | [<- | Hy]].
      * apply (leb_trans _ (F64.minimum x a)); try assumption.
        apply Hb. now left.
      * apply (leb_trans _ (F64.minimum x a)); try assumption.
        apply Hb. now left.
      * apply Hb. now right.
Qed.

End FloatOrder.

(* ================================================================== *)
(** * Constant tables and non-finite samples on binary64 *)
(* ================================================================== *)

Module FloatCases.
Import Analyzer Closed FloatLaws.
Local Open Scope float_scope.

Lemma constant_repeat {A : Type} (a : A) n : Spec.constant (repeat a n).
Proof.
  intros x y Hx Hy. apply repeat_spec in Hx, Hy. congruence.
Qed.

Lemma constant_is_repeat {A : Type} (a : A) (rest : list A) :
  Spec.constant (a :: rest) -> rest = repeat a (List.length rest).
Proof.
  intros H. apply Forall_eq_repeat. apply Forall_forall.
  intros x Hx. apply H; [now left | now right].
Qed.

(** C5, against the claim as stated: three identical samples with a pitch
    of 0.1 have the pitch standard deviation 2^-56, not zero (the mean of
    three times 0.1 is rounded away from 0.1); and two identical samples
    with an infinite pitch have the pitch range NaN, not zero. *)
Lemma constant_dataset_std_not_zero :
  (exists data : DataFrame float,
     data <> [] /\ Spec.constant data /\
     forall (L : Libm) (name : string),
     exists r,
       analyze_scenario (N := float_num L) (init (N := float_num L)) data name
         = Py.Ok r
       /\ pitch_std (euler (stats r)) = 0x1p-56
       /\ PrimFloat.eqb (pitch_std (euler (stats r))) 0 = false)
  /\ (exists data : DataFrame float,
        data <> [] /\ Spec.constant data /\
        forall (L : Libm) (name : string),
        exists r,
          analyze_scenario (N := float_num L) (init (N := float_num L)) data name
            = Py.Ok r
          /\ pitch_range (euler (stats r)) = nan).
Proof.
  split.
  - exists (repeat Fixtures.tenth 3). split; [discriminate|].
    split; [apply constant_repeat|].
    intros L name. cbn [repeat]. rewrite AnalyzerFacts.analyze_scenario_cons.
    eexists. split; [reflexivity|].
    cbn [stats euler pitch_std analysis]. split; vm_compute; reflexivity.
  - exists (repeat Fixtures.climbing_forever 2). split; [discriminate|].
    split; [apply constant_repeat|].
    intros L name. cbn [repeat]. rewrite AnalyzerFacts.analyze_scenario_cons.
    eexists. split; [reflexivity|].
    cbn [stats euler pitch_range analysis]. vm_compute. reflexivity.
Qed.

(** The rotation of a sample whose pitch is NaN has four NaN components,
    whatever [sin] and [cos] return elsewhere. *)
Lemma rotation_of_nan (L : Libm) :
  rotation_of (N := float_num L) Fixtures.not_a_number
  = Rotation.mkQuat nan nan nan nan.
Proof.
  unfold rotation_of, extrinsic_xyz, Rotation.compose_quat,
    Rotation.make_elementary_quat, Rotation.deg2rad.
  cbn [pitch roll heading_true Fixtures.not_a_number
       Rotation.qx Rotation.qy Rotation.qz Rotation.qw
       fadd fsub fmul fdiv fsin fcos fpi of_int float_num].
  rewrite !mul_nan_l, !div_nan_l, libm_sin_nan, libm_cos_nan.
  repeat rewrite ?mul_nan_l, ?mul_nan_r, ?add_nan_l, ?add_nan_r,
    ?sub_nan_l, ?sub_nan_r.
  reflexivity.
Qed.

(** C9, against the claim as stated: the sample read from the line
    [nan|0|0|0|0|0|0|0|0] is converted to a quaternion whose four
    components are NaN, and its norm is not within 1e-6 of one. *)
Lemma nan_sample_quaternion_not_unit :
  exists data : DataFrame float,
    data = [Fixtures.not_a_number] /\
    forall (L : Libm) (name : string),
    exists r,
      analyze_scenario (N := float_num L) (init (N := float_num L)) data name
        = Py.Ok r
      /\ quaternions r = Np.Arr2 [[nan; nan; nan; nan]]
      /\ Spec.unit_within L 1e-6 [nan; nan; nan; nan] = false.
Proof.
  exists [Fixtures.not_a_number]. split; [reflexivity|]. intros L name.
  rewrite AnalyzerFacts.analyze_scenario_cons.
  eexists. split; [reflexivity|].
  cbn [quaternions analysis map]. unfold quat_row. rewrite rotation_of_nan.
  split; reflexivity.
Qed.

End FloatCases.

(* ================================================================== *)
(** * The conversion in exact arithmetic *)
(* ================================================================== *)

Module RealFacts.
Import Closed Spec.
Local Open Scope R_scope.

Lemma norm_sq_compose (p q : Rotation.quat R) :
  norm_sq (Rotation.compose_quat p q) = norm_sq p * norm_sq q.
Proof. destruct p, q. unfold norm_sq, Rotation.compose_quat. simpl. ring. Qed.

Lemma norm_sq_elementary (a : Rotation.axis) (angle : R) :
  norm_sq (Rotation.make_elementary_quat a angle) = 1.
Proof.
  unfold norm_sq, Rotation.make_elementary_quat. simpl.
  set (h := angle / 2).
  pose proof (sin2_cos2 h) as H. unfold Rsqr in H.
  destruct a; simpl; lra.
Qed.

(** Half angles, in radians, of 0, 90 and 180 degrees. *)
Lemma no_turn : 0 * (PI / 180) / 2 = 0.
Proof. field. Qed.

Lemma quarter_turn : 90 * (PI / 180) / 2 = PI / 4.
Proof. field. Qed.

Lemma half_turn : 180 * (PI / 180) / 2 = PI / 2.
Proof. field. Qed.

Lemma sin_quarter_pos : 0 < sin (PI / 4).
Proof. apply sin_gt_0; pose proof PI_RGT_0; lra. Qed.

Lemma rotation_of_level :
  rotation_of Fixtures.level = Rotation.mkQuat 0 0 0 1.
Proof.
  unfold rotation_of, extrinsic_xyz,
    Rotation.compose_quat, Rotation.make_elementary_quat, Rotation.deg2rad.
  simpl. rewrite !no_turn, sin_0, cos_0.
  f_equal; ring.
Qed.

Lemma rotation_of_nose_over :
  rotation_of Fixtures.nose_over = Rotation.mkQuat 0 1 0 0.
Proof.
  unfold rotation_of, extrinsic_xyz,
    Rotation.compose_quat, Rotation.make_elementary_quat, Rotation.deg2rad.
  simpl. rewrite !no_turn, !half_turn, sin_0, cos_0, sin_PI2, cos_PI2.
  f_equal; ring.
Qed.

Lemma std_pair_equal (a : R) : Np.std [a; a] = 0.
Proof.
  unfold Np.std, Np.mean, Np.sum, Np.count. simpl.
  replace ((0 + (a - (0 + a + a) / 2) * (a - (0 + a + a) / 2)
            + (a - (0 + a + a) / 2) * (a - (0 + a + a) / 2)) / 2)
    with 0 by field.
  apply sqrt_0.
Qed.

Lemma std_one_zero : Np.std [1; 0] = 1 / 2.
Proof.
  unfold Np.std, Np.mean, Np.sum, Np.count. simpl.
  replace ((0 + (1 - (0 + 1 + 0) / 2) * (1 - (0 + 1 + 0) / 2)
            + (0 - (0 + 1 + 0) / 2) * (0 - (0 + 1 + 0) / 2)) / 2)
    with ((1 / 2) * (1 / 2)) by field.
  apply sqrt_square. lra.
Qed.

(** C1, the code at a failing input: for level flight followed by a pitch
    of 180 degrees the quaternion rows are (0, 0, 0, 1) and (0, 1, 0, 0),
    scalar part last.  The scalar parts 1 and 0 have the population
    standard deviation 1/2, which the analyzer files under z_std; what it
    files under w_std is 0, the standard deviation of the x components. *)
Theorem w_std_reports_the_x_components :
  exists r,
    Analyzer.analyze_scenario (N := real_num) (Analyzer.init (N := real_num))
      [Fixtures.level; Fixtures.nose_over] "cruising" = Py.Ok r
    /\ Analyzer.quaternions r = Np.Arr2 [[0; 0; 0; 1]; [0; 1; 0; 0]]
    /\ Analyzer.w_std (Analyzer.quaternion (Analyzer.stats r)) = 0
    /\ Analyzer.z_std (Analyzer.quaternion (Analyzer.stats r)) = 1 / 2.
Proof.
  rewrite AnalyzerFacts.analyze_scenario_cons. eexists. split; [reflexivity|].
  cbn [Analyzer.quaternions Analyzer.stats Analyzer.quaternion Analyzer.w_std
       Analyzer.z_std analysis map].
  unfold quat_row. rewrite rotation_of_level, rotation_of_nose_over.
  cbn [Rotation.as_quat Rotation.qx Rotation.qy Rotation.qz Rotation.qw].
  repeat split.
  - apply std_pair_equal.
  - apply std_one_zero.
Qed.

(** C2, against the claim as stated: for a roll of 180 and a pitch of 90
    degrees the quaternion the analyzer builds is not the intrinsic
    x-then-y-then-z composition (their z components are opposite and not
    zero). *)
Lemma extrinsic_differs_from_intrinsic :
  Analyzer.to_quat (N := real_num) (90, 180, 0)
  <> intrinsic_xyz (N := real_num) 180 90 0.
Proof.
  rewrite AnalyzerFacts.to_quat_extrinsic.
  unfold intrinsic_xyz, extrinsic_xyz. cbn [Rotation.from_euler].
  simpl.
  intros H. injection H as _ _ Hz _.
  rewrite ?no_turn, ?half_turn, ?quarter_turn, ?sin_0, ?cos_0,
    ?sin_PI2, ?cos_PI2 in Hz.
  ring_simplify in Hz. pose proof sin_quarter_pos. lra.
Qed.

(** The extrinsic x-y-z composition is the intrinsic z-y-x composition of
    the same three rotations (yaw, then pitch, then roll about the axes of
    the aircraft). *)
Lemma extrinsic_xyz_is_intrinsic_zyx (roll pitch yaw : R) :
  Rotation.from_euler "ZYX" [yaw; pitch; roll] true
  = Py.Ok (extrinsic_xyz roll pitch yaw).
Proof.
  unfold extrinsic_xyz. cbn [Rotation.from_euler]. simpl.
  apply (f_equal Py.Ok).
  unfold Rotation.elementary_quat_compose. simpl.
  unfold Rotation.compose_quat. simpl.
  f_equal; ring.
Qed.

End RealFacts.

(* ================================================================== *)
(** * The truncated series, where they are accurate *)
(* ================================================================== *)

Module TaylorFacts.
Import Binary64 Bpow FloatError Spec.
Local Open Scope R_scope.

Lemma pow_drop (a : R) (n : nat) : 0 <= a <= 1 -> 0 <= a ^ (n + 2) <= a ^ n.
Proof.
  intros [H0 H1]. pose proof (pow_le a n H0) as Hn.
  replace (a ^ (n + 2)) with (a ^ n * (a * a)) by (rewrite pow_add; simpl; ring).
  assert (0 <= a * a <= 1) by nra. nra.
Qed.

Lemma INR_fact (n : nat) : INR (fact n) = IZR (Z.of_nat (fact n)).
Proof. apply INR_IZR_INZ. Qed.

(** The sine and the cosine of a small angle, between two polynomials. *)
Lemma sin_cubic (a : R) :
  0 <= a <= 1 -> a - a ^ 3 / 6 <= sin a <= a - a ^ 3 / 6 + a ^ 5 / 120.
Proof.
  intros Ha. pose proof PI2_1 as Hpi.
  destruct (SIN a) as [Hlo Hhi]; [lra | lra |].
  unfold sin_lb, sin_ub, sin_approx, sin_term in *.
  cbn [sum_f_R0 Nat.mul Nat.add] in *.
  rewrite !INR_fact in *.
  change (Z.of_nat (fact 1)) with 1%Z in *.
  change (Z.of_nat (fact 3)) with 6%Z in *.
  change (Z.of_nat (fact 5)) with 120%Z in *.
  change (Z.of_nat (fact 7)) with 5040%Z in *.
  change (Z.of_nat (fact 9)) with 362880%Z in *.
  pose proof (pow_drop a 5 Ha) as H7. pose proof (pow_drop a 7 Ha) as H9.
  cbn [Nat.add] in H7, H9.
  pose proof (pow_le a 5 (proj1 Ha)) as H5.
  lra.
Qed.

Lemma cos_quartic (a : R) :
  0 <= a <= 1 -> 1 - a ^ 2 / 2 <= cos a <= 1 - a ^ 2 / 2 + a ^ 4 / 24.
Proof.
  intros Ha. pose proof PI2_1 as Hpi.
  destruct (COS a) as [Hlo Hhi]; [lra | lra |].
  unfold cos_lb, cos_ub, cos_approx, cos_term in *.
  cbn [sum_f_R0 Nat.mul Nat.add] in *.
  rewrite !INR_fact in *.
  change (Z.of_nat (fact 0)) with 1%Z in *.
  change (Z.of_nat (fact 2)) with 2%Z in *.
  change (Z.of_nat (fact 4)) with 24%Z in *.
  change (Z.of_nat (fact 6)) with 720%Z in *.
  change (Z.of_nat (fact 8)) with 40320%Z in *.
  pose proof (pow_drop a 4 Ha) as H6. pose proof (pow_drop a 6 Ha) as H8.
  cbn [Nat.add] in H6, H8.
  pose proof (pow_le a 4 (proj1 Ha)) as H4.
  lra.
Qed.

(** The truncated series are accurate at the half angle of a pitch of 0.1
    degrees. *)
Lemma taylor_accurate_tenth :
  accurate Fixtures.taylor_libm (half_angle Fixtures.taylor_libm 0.1).
Proof.
  unfold accurate. set (h := half_angle Fixtures.taylor_libm 0.1).
  assert (Hh : Prim2SF h = S754_finite false 8048910508974581 (-63))
    by (vm_compute; reflexivity).
  assert (Hs : Prim2SF (libm_sin Fixtures.taylor_libm h)
               = S754_finite false 8048909487375307 (-63))
    by (vm_compute; reflexivity).
  assert (Hc : Prim2SF (libm_cos Fixtures.taylor_libm h)
               = S754_finite false 9007195825053964 (-53))
    by (vm_compute; reflexivity).
  split; [vm_compute; reflexivity|]. split; [vm_compute; reflexivity|].
  unfold to_R. rewrite Hh, Hs, Hc. cbn [SF2R sgn]. rewrite !Rmult_1_l.
  assert (E63 : bpow (-63) = / 9223372036854775808).
  { change (-63)%Z with (- (63))%Z. rewrite bpow_opp, (bpow_IZR 63) by lia.
    reflexivity. }
  assert (E53 : bpow (-53) = / 9007199254740992).
  { change (-53)%Z with (- (53))%Z. rewrite bpow_opp, (bpow_IZR 53) by lia.
    reflexivity. }
  assert (E40 : bpow (-40) = / 1099511627776).
  { change (-40)%Z with (- (40))%Z. rewrite bpow_opp, (bpow_IZR 40) by lia.
    reflexivity. }
  rewrite E63, E53, E40.
  set (r := 8048910508974581 * / 9223372036854775808).
  assert (Hr : 0 <= r <= 1) by (unfold r; lra).
  pose proof (sin_cubic r Hr) as Hsin. pose proof (cos_quartic r Hr) as Hcos.
  assert (H2 : r ^ 2 = r * r) by ring.
  assert (H3 : r ^ 3 = r * r * r) by ring.
  assert (H4 : r ^ 4 = r * r * r * r) by ring.
  assert (H5 : r ^ 5 = r * r * r * r * r) by ring.
  rewrite H2, H3, H4, H5 in *.
  set (s := sin r) in *. set (c := cos r) in *.
  unfold r in Hsin, Hcos.
  split; apply Rabs_le; lra.
Qed.

(** They are exact at zero. *)
Lemma taylor_accurate_zero : accurate Fixtures.taylor_libm 0%float.
Proof.
  unfold accurate.
  change (libm_sin Fixtures.taylor_libm 0) with 0%float.
  change (libm_cos Fixtures.taylor_libm 0) with 1%float.
  rewrite to_R_zero, to_R_one, sin_0, cos_0.
  replace (0 - 0) with 0 by ring. replace (1 - 1) with 0 by ring.
  rewrite Rabs_R0. pose proof (bpow_pos (-40)).
  repeat split; try reflexivity; lra.
Qed.

End TaylorFacts.

(* ================================================================== *)
(** * The norm of the quaternions, on binary64 *)
(* ================================================================== *)

Module UnitNorm.
Import Binary64 Bpow Rounding SpecError FloatError Spec.
Local Open Scope R_scope.

Lemma powers :
  0 < bpow (-40) /\ bpow (-40) <= / 1000000
  /\ bpow (-38) = 4 * bpow (-40)
  /\ bpow (-21) = 524288 * bpow (-40)
  /\ 1024 * bpow (-50) = bpow (-40)
  /\ bpow (-1073) <= bpow (-50).
Proof.
  split; [apply bpow_pos|].
  assert (H20 : bpow (-20) = / 1048576).
  { change (-20)%Z with (- (20))%Z. rewrite bpow_opp, (bpow_IZR 20) by lia.
    reflexivity. }
  split.
  { apply Rle_trans with (bpow (-20)); [apply bpow_le; lia|]. rewrite H20. lra. }
  split.
  { change (-38)%Z with (2 + -40)%Z. now rewrite bpow_add, bpow_2. }
  split.
  { change (-21)%Z with (19 + -40)%Z. rewrite bpow_add, (bpow_IZR 19) by lia.
    reflexivity. }
  split.
  { change (-40)%Z with (10 + -50)%Z. rewrite bpow_add, (bpow_IZR 10) by lia.
    reflexivity. }
  apply bpow_le. lia.
Qed.

Section Products.
Variable L : Libm.
Variables Mp Mq dp dq : R.
Hypothesis HMp : Mp <= 4.
Hypothesis HMq : Mq <= 4.
Hypothesis Hdp : dp <= 1.
Hypothesis Hdq : dq <= 1.

Local Abbreviation K := (Mp * Mq).
Local Abbreviation D := (Mq * dp + Mp * dq + dp + dq + bpow (-38)).

Lemma prod_pq (x y : float) (a b : R) :
  near x a Mp dp -> near y b Mq dq -> near (x * y) (a * b) K D.
Proof.
  intros Hx Hy.
  destruct (near_bound _ _ _ _ Hx) as (H1 & H2 & _).
  destruct (near_bound _ _ _ _ Hy) as (H3 & H4 & _).
  apply near_weaken with (Mp * Mq) (Mq * dp + Mp * dq + dp + bpow (-38)).
  - apply near_mul; try assumption. nra.
  - lra.
  - lra.
Qed.

Lemma prod_qp (x y : float) (a b : R) :
  near x a Mq dq -> near y b Mp dp -> near (x * y) (a * b) K D.
Proof.
  intros Hx Hy.
  destruct (near_bound _ _ _ _ Hx) as (H1 & H2 & _).
  destruct (near_bound _ _ _ _ Hy) as (H3 & H4 & _).
  apply near_weaken with (Mq * Mp) (Mp * dq + Mq * dp + dq + bpow (-38)).
  - apply near_mul; try assumption. nra.
  - lra.
  - lra.
Qed.

Lemma KD_bounds :
  forall x a, near x a Mp dp ->
  forall y b, near y b Mq dq ->
  0 <= K /\ K <= 16 /\ 0 <= D /\ D <= 11.
Proof.
  intros x a Hx y b Hy.
  destruct (near_bound _ _ _ _ Hx) as (H1 & H2 & _).
  destruct (near_bound _ _ _ _ Hy) as (H3 & H4 & _).
  destruct units as (Hu0 & _ & _).
  destruct powers as (He0 & He1 & Hu & _).
  repeat split; nra.
Qed.

(** The shape of the vector part: two products added, and the difference of
    two more added to them. *)
Lemma sum_vector (A B C E : float) (a b c e : R) :
  0 <= K -> K <= 16 -> 0 <= D -> D <= 11 ->
  near A a K D -> near B b K D -> near C c K D -> near E e K D ->
  near (A + B + (C - E)) (a + b + (c - e)) (4 * K) (4 * D + 3 * bpow (-38)).
Proof.
  intros HK0 HK HD0 HD HA HB HC HE.
  destruct powers as (He0 & He1 & Hu & _).
  apply near_weaken with (K + K + (K + K)) (D + D + bpow (-38) + (D + D + bpow (-38)) + bpow (-38));
    [|lra|lra].
  apply near_add; [apply near_add | apply near_sub |]; try assumption; lra.
Qed.

(** The shape of the scalar part: three products subtracted from one. *)
Lemma sum_scalar (A B C E : float) (a b c e : R) :
  0 <= K -> K <= 16 -> 0 <= D -> D <= 11 ->
  near A a K D -> near B b K D -> near C c K D -> near E e K D ->
  near (A - B - C - E) (a - b - c - e) (4 * K) (4 * D + 3 * bpow (-38)).
Proof.
  intros HK0 HK HD0 HD HA HB HC HE.
  destruct powers as (He0 & He1 & Hu & _).
  apply near_weaken with (K + K + K + K) (D + D + bpow (-38) + D + bpow (-38) + D + bpow (-38));
    [|lra|lra].
  apply near_sub; [apply near_sub; [apply near_sub| |] | |]; try assumption; lra.
Qed.

(** The Hamilton product on doubles stands for the Hamilton product of the
    quaternions its factors stand for. *)
Lemma near_compose (p q : Rotation.quat float) (P Q : Rotation.quat R) :
  near_quat p P Mp dp -> near_quat q Q Mq dq ->
  near_quat (Rotation.compose_quat (N := float_num L) p q)
            (Rotation.compose_quat (N := real_num) P Q)
            (4 * K) (4 * D + 3 * bpow (-38)).
Proof.
  intros (Hpx & Hpy & Hpz & Hpw) (Hqx & Hqy & Hqz & Hqw).
  destruct (KD_bounds _ _ Hpx _ _ Hqx) as (HK0 & HK & HD0 & HD).
  unfold near_quat, Rotation.compose_quat.
  cbn [Rotation.qx Rotation.qy Rotation.qz Rotation.qw
       fadd fsub fmul float_num real_num].
  refine (conj _ (conj _ (conj _ _))).
  - apply sum_vector; auto using prod_pq, prod_qp.
  - apply sum_vector; auto using prod_pq, prod_qp.
  - apply sum_vector; auto using prod_pq, prod_qp.
  - apply sum_scalar; auto using prod_pq, prod_qp.
Qed.

End Products.

Lemma near_quat_weaken (p : Rotation.quat float) (P : Rotation.quat R)
    (M d M' d' : R) :
  near_quat p P M d -> M <= M' -> d <= d' -> near_quat p P M' d'.
Proof.
  intros (Hx & Hy & Hz & Hw) HM Hd.
  refine (conj _ (conj _ (conj _ _))); eapply near_weaken; eassumption.
Qed.

Lemma axis_turn_components (a : Rotation.axis) (r : R) :
  axis_turn a r = match a with
             | Rotation.AxX => Rotation.mkQuat (sin r) 0 0 (cos r)
             | Rotation.AxY => Rotation.mkQuat 0 (sin r) 0 (cos r)
             | Rotation.AxZ => Rotation.mkQuat 0 0 (sin r) (cos r)
             end.
Proof.
  unfold axis_turn, Rotation.make_elementary_quat.
  cbn [fdiv fsin fcos of_int real_num].
  replace (2 * r / 2) with r by field. now destruct a.
Qed.

Lemma near_zero (M d : R) : 0 <= M -> 0 <= d -> near 0%float 0 M d.
Proof.
  intros HM Hd. split; [reflexivity|].
  split; rewrite ?to_R_zero, ?Rminus_0_r, Rabs_R0; assumption.
Qed.

(** An elementary rotation built from an accurate [sin] and [cos]. *)
Lemma near_elementary (L : Libm) (a : Rotation.axis) (deg : float) :
  accurate L (half_angle L deg) ->
  near_quat
    (Rotation.make_elementary_quat (N := float_num L) a
       (Rotation.deg2rad (N := float_num L) deg))
    (axis_turn a (to_R (half_angle L deg))) 1 (bpow (-40)).
Proof.
  intros (Hs & Hc & Es & Ec). rewrite axis_turn_components.
  unfold Rotation.make_elementary_quat.
  change (fdiv (Rotation.deg2rad (N := float_num L) deg) (of_int 2))
    with (half_angle L deg).
  set (h := half_angle L deg) in *.
  cbn [fsin fcos of_int float_num].
  change (F64.of_Z 0) with 0%float.
  destruct powers as (He0 & _).
  assert (Hsin : near (libm_sin L h) (sin (to_R h)) 1 (bpow (-40))).
  { split; [exact Hs|]. split; [exact Es|].
    apply Rabs_le. apply SIN_bound. }
  assert (Hcos : near (libm_cos L h) (cos (to_R h)) 1 (bpow (-40))).
  { split; [exact Hc|]. split; [exact Ec|].
    apply Rabs_le. apply COS_bound. }
  assert (H0 : near 0%float 0 1 (bpow (-40))) by (apply near_zero; lra).
  destruct a; refine (conj _ (conj _ (conj _ _))); assumption.
Qed.

(** Scaling a finite angle to radians and halving it gives a finite
    double: the factor is below one and nothing can overflow. *)
Lemma half_angle_finite (L : Libm) (deg : float) :
  is_finite deg = true -> is_finite (half_angle L deg) = true.
Proof.
  intros Hf. unfold half_angle, Rotation.deg2rad.
  cbn [fdiv fmul fpi of_int float_num].
  change (F64.of_Z 2) with 2%float.
  set (k := (F64.pi / F64.of_Z 180)%float).
  assert (Hk : Prim2SF k = S754_finite false 5030569068109113 (-58))
    by (vm_compute; reflexivity).
  assert (Hkf : is_finite k = true) by (vm_compute; reflexivity).
  assert (Hk0 : 0 <= to_R k <= bpow (-5)).
  { unfold to_R. rewrite Hk. cbn [SF2R sgn]. rewrite Rmult_1_l.
    pose proof (bpow_pos (-58)) as Hp.
    assert (H53 : IZR 5030569068109113 <= bpow 53).
    { rewrite (bpow_IZR 53) by lia. apply IZR_le. vm_compute. discriminate. }
    assert (0 <= IZR 5030569068109113) by (apply IZR_le; lia).
    split; [nra|].
    change (-5)%Z with (53 + -58)%Z. rewrite bpow_add.
    apply Rmult_le_compat_r; lra. }
  pose proof (to_R_bound deg) as Hd.
  assert (Hprod : Rabs (to_R deg * to_R k) <= bpow 1019).
  { rewrite Rabs_mult, (Rabs_right (to_R k)) by lra.
    change 1019%Z with (1024 + -5)%Z. rewrite bpow_add.
    apply Rmult_le_compat; try apply Rabs_pos; lra. }
  assert (H1022 : bpow 1019 <= bpow 1022) by (apply bpow_le; lia).
  destruct (mul_wide deg k Hf Hkf) as [Hm Hme];
    [exact (Rle_trans _ _ _ Hprod H1022) | |].
  { intros s m e s' m' e' E E'. rewrite Hk in E'. injection E' as _ _ <-.
    pose proof (exponent_bound deg s m e E). lia. }
  assert (Htwo : to_R 2 = 2).
  { unfold to_R. change (Prim2SF 2) with (S754_finite false 4503599627370496 (-51)).
    cbn [SF2R sgn]. change 4503599627370496%Z with (2 ^ 52)%Z.
    rewrite <- bpow_IZR by lia. rewrite <- bpow_add, Rmult_1_l.
    change (52 + -51)%Z with 1%Z. apply bpow_1. }
  destruct (div_error (deg * k) 2 Hm) as [Hq _]; try exact Hq.
  - reflexivity.
  - rewrite Htwo. lra.
  - rewrite Htwo.
    assert (H50 : bpow (-50) <= 1) by (apply (bpow_le (-50) 0); lia).
    assert (Ht : bpow (-1073) <= bpow 1019) by (apply bpow_le; lia).
    assert (H20 : bpow 1022 = 8 * bpow 1019).
    { change 1022%Z with (3 + 1019)%Z. rewrite bpow_add, (bpow_IZR 3) by lia.
      reflexivity. }
    pose proof (bpow_pos 1019) as Hp.
    set (X := to_R (deg * k)%float) in *. set (Z0 := to_R deg * to_R k) in *.
    assert (HX : Rabs X <= 3 * bpow 1019).
    { replace X with ((X - Z0) + Z0) by ring.
      eapply Rle_trans; [apply Rabs_triang|].
      assert (Rabs Z0 * bpow (-50) <= bpow 1019 * 1).
      { apply Rmult_le_compat; try apply Rabs_pos; try lra.
        pose proof (bpow_pos (-50)); lra. }
      lra. }
    unfold Rdiv. rewrite Rabs_mult, (Rabs_right (/ 2)) by lra. lra.
Qed.

(** The norm computed on doubles of a quaternion that stands for a unit
    quaternion is within [1e-6] of one. *)
Lemma norm_near (L : Libm) (q : Rotation.quat float) (Q : Rotation.quat R) :
  near_quat q Q 16 (400 * bpow (-40)) -> norm_sq Q = 1 ->
  unit_within L 1e-6 (Rotation.as_quat q) = true.
Proof.
  intros (Hx & Hy & Hz & Hw) Hunit.
  destruct powers as (He0 & He1 & Hu & H21 & H50 & Ht).
  set (eps := bpow (-40)) in *.
  assert (Hsq : forall x a, near x a 16 (400 * eps) ->
            near (x * x) (a * a) 256 (13204 * eps)).
  { intros x a H.
    apply near_weaken with (16 * 16)
      (16 * (400 * eps) + 16 * (400 * eps) + 400 * eps + bpow (-38));
      [|lra|lra].
    apply near_mul; try assumption; lra. }
  apply Hsq in Hx, Hy, Hz, Hw.
  unfold unit_within, norm, Rotation.as_quat.
  cbn [map fold_left fadd fmul fsqrt of_int float_num].
  change (F64.of_Z 0) with 0%float.
  set (x := Rotation.qx q) in *. set (y := Rotation.qy q) in *.
  set (z := Rotation.qz q) in *. set (w := Rotation.qw q) in *.
  assert (H0 : near 0%float 0 0 0) by (apply near_zero; lra).
  pose proof (near_add _ _ _ _ _ _ _ _ H0 Hx ltac:(lra)) as H1.
  pose proof (near_add _ _ _ _ _ _ _ _ H1 Hy ltac:(lra)) as H2.
  pose proof (near_add _ _ _ _ _ _ _ _ H2 Hz ltac:(lra)) as H3.
  pose proof (near_add _ _ _ _ _ _ _ _ H3 Hw ltac:(lra)) as H4.
  set (v := (0 + x * x + y * y + z * z + w * w)%float) in *.
  destruct H4 as (Hvf & Hv & _).
  replace (0 + Rotation.qx Q * Rotation.qx Q + Rotation.qy Q * Rotation.qy Q
           + Rotation.qz Q * Rotation.qz Q + Rotation.qw Q * Rotation.qw Q)
    with (norm_sq Q) in Hv by (unfold norm_sq; cbn; ring).
  rewrite Hunit in Hv.
  set (V := to_R v) in *.
  assert (HV : Rabs (V - 1) <= 52832 * eps) by lra.
  apply Rabs_le_inv in HV.
  assert (H900 : 2 <= bpow 900).
  { destruct units as (_ & _ & Hb). lra. }
  destruct (sqrt_error v Hvf) as [Hsf Hs]; [fold V; lra | fold V; lra |].
  fold V in Hs. set (S := to_R (PrimFloat.sqrt v)) in *.
  set (r := R_sqrt.sqrt V) in *.
  assert (Hr0 : 0 <= r) by apply sqrt_pos.
  assert (Hrr : r * r = V) by (apply sqrt_sqrt; lra).
  assert (Hr1 : Rabs (r - 1) <= 52832 * eps).
  { apply Rabs_le. split; nra. }
  assert (Hr2 : r <= 2) by nra.
  pose proof (bpow_pos (-50)) as Hp50. pose proof (bpow_pos (-1073)) as Hp1073.
  assert (HS : Rabs (S - 1) <= 52833 * eps).
  { replace (S - 1) with ((S - r) + (r - 1)) by ring.
    eapply Rle_trans; [apply Rabs_triang|].
    assert (r * bpow (-50) <= 2 * bpow (-50)) by (apply Rmult_le_compat_r; lra).
    lra. }
  destruct (sub_error (PrimFloat.sqrt v) 1 Hsf eq_refl) as [Htf Hte].
  { rewrite to_R_one. fold S. lra. }
  rewrite to_R_one in Hte. fold S in Hte.
  destruct (abs_value _ Htf) as [Haf Ha].
  apply leb_small; [exact Haf|]. rewrite Ha.
  set (T := to_R (PrimFloat.sqrt v - 1)%float) in *.
  replace T with ((T - (S - 1)) + (S - 1)) by ring.
  eapply Rle_trans; [apply Rabs_triang|].
  assert (Rabs (S - 1) * bpow (-50) <= 52833 * eps * 1).
  { apply Rmult_le_compat; try apply Rabs_pos; lra. }
  rewrite H21. lra.
Qed.

(** Every sample with finite angles, converted with an accurate C library,
    gives a quaternion of norm one within [1e-6]. *)
Lemma quat_row_unit_within (L : Libm) (s : Analyzer.Sample float) :
  finite_angles s -> accurate_on L s ->
  unit_within L 1e-6 (Closed.quat_row (N := float_num L) s) = true.
Proof.
  intros Hf Ha.
  assert (Hac : forall deg, In deg (angles s) -> accurate L (half_angle L deg)).
  { intros deg Hin. apply Ha; [exact Hin|]. apply half_angle_finite. now apply Hf. }
  unfold Closed.quat_row, Closed.rotation_of, Closed.extrinsic_xyz.
  destruct powers as (He0 & He1 & Hu & _).
  set (eps := bpow (-40)) in *.
  pose proof (near_elementary L Rotation.AxX _ (Hac _ (or_introl eq_refl))) as HX.
  pose proof (near_elementary L Rotation.AxY _
                (Hac _ (or_intror (or_introl eq_refl)))) as HY.
  pose proof (near_elementary L Rotation.AxZ _
                (Hac _ (or_intror (or_intror (or_introl eq_refl))))) as HZ.
  fold eps in HX, HY, HZ.
  pose proof (near_compose L 1 1 eps eps ltac:(lra) ltac:(lra) ltac:(lra)
                ltac:(lra) _ _ _ _ HY HX) as HYX.
  apply near_quat_weaken with (M' := 4) (d' := 44 * eps) in HYX; [|lra|lra].
  pose proof (near_compose L 1 4 eps (44 * eps) ltac:(lra) ltac:(lra) ltac:(lra)
                ltac:(lra) _ _ _ _ HZ HYX) as HZYX.
  apply near_quat_weaken with (M' := 16) (d' := 400 * eps) in HZYX; [|lra|lra].
  eapply norm_near; [exact HZYX|].
  rewrite !RealFacts.norm_sq_compose. unfold axis_turn.
  rewrite !RealFacts.norm_sq_elementary. ring.
Qed.

(** C9 (as amended): on binary64, every table with at least one row is
    analyzed, and every row of its quaternion series has a norm within 1e-6
    of one, provided that in every row the roll, the pitch and the true
    heading are finite and that the C library's [sin] and [cos] return
    finite doubles within [2^-40] of the sine and the cosine at the three
    half angles the conversion hands to them. *)
Theorem quaternion_rows_have_unit_norm (L : Libm)
    (self : Analyzer.FlightScenarioAnalyzer float)
    (s : Analyzer.Sample float) (rest : list (Analyzer.Sample float))
    (name : string) :
  (forall row, In row (s :: rest) -> finite_angles row /\ accurate_on L row) ->
  exists r rows,
    Analyzer.analyze_scenario (N := float_num L) self (s :: rest) name = Py.Ok r
    /\ Analyzer.quaternions r = Np.Arr2 rows
    /\ List.length rows = List.length (s :: rest)
    /\ forall q, In q rows -> unit_within L 1e-6 q = true.
Proof.
  intros Hrows. rewrite AnalyzerFacts.analyze_scenario_cons.
  eexists. eexists. split; [reflexivity|]. split; [reflexivity|].
  split; [now rewrite length_map|].
  intros q Hq. apply in_map_iff in Hq. destruct Hq as [row [<- Hin]].
  destruct (Hrows row Hin) as [Hf Ha]. now apply quat_row_unit_within.
Qed.

Lemma quaternion_rows_have_unit_norm_witness :
  exists r rows,
    Analyzer.analyze_scenario (N := float_num Fixtures.taylor_libm)
      (Analyzer.init (N := float_num Fixtures.taylor_libm))
      [Fixtures.tenth; Fixtures.level_flight] "climbing" = Py.Ok r
    /\ Analyzer.quaternions r = Np.Arr2 rows
    /\ List.length rows = 2%nat
    /\ forall q, In q rows -> unit_within Fixtures.taylor_libm 1e-6 q = true.
Proof.
  apply (quaternion_rows_have_unit_norm Fixtures.taylor_libm
           (Analyzer.init (N := float_num Fixtures.taylor_libm))
           Fixtures.tenth [Fixtures.level_flight] "climbing"%string).
  intros row Hrow. destruct Hrow as [<- | [<- | []]]; split.
  - intros deg Hdeg.
    destruct Hdeg as [<- | [<- | [<- | []]]]; reflexivity.
  - intros deg Hdeg _.
    destruct Hdeg as [<- | [<- | [<- | []]]].
    + exact TaylorFacts.taylor_accurate_zero.
    + exact TaylorFacts.taylor_accurate_tenth.
    + exact TaylorFacts.taylor_accurate_zero.
  - intros deg Hdeg.
    destruct Hdeg as [<- | [<- | [<- | []]]]; reflexivity.
  - intros deg Hdeg _.
    destruct Hdeg as [<- | [<- | [<- | []]]];
      exact TaylorFacts.taylor_accurate_zero.
Defined.

End UnitNorm.

(* ================================================================== *)
(** * Tables of identical samples *)
(* ================================================================== *)

(* ================================================================== *)
(** * Tables of identical samples *)
(* ================================================================== *)

Module StdFacts.
Import Analyzer Closed FloatLaws.
Local Open Scope float_scope.

(** What rounding returns carries the sign it was given, or is NaN. *)
Lemma binary_round_aux_sign (s : bool) (m e : Z) (l : location) :
  let r := binary_round_aux prec emax s m e l in
  r = S754_zero s \/ r = S754_infinity s \/ r = S754_nan
  \/ exists m' e', r = S754_finite s m' e'.
Proof.
  unfold binary_round_aux.
  destruct (shr_fexp prec emax m e l) as [mrs' e'].
  destruct (shr_fexp prec emax _ e' loc_Exact) as [mrs'' e''].
  destruct (shr_m mrs'') as [|p|p]; [now left | | now right; right; left].
  destruct (e'' <=? emax - prec)%Z.
  - right. right. right. now exists p, e''.
  - right. now left.
Qed.

(** The count of a list, as a double, is never negative. *)
Lemma count_sign (n : nat) :
  let c := Prim2SF (F64.of_Z (Z.of_nat n)) in
  c = S754_zero false \/ c = S754_infinity false \/ c = S754_nan
  \/ exists m e, c = S754_finite false m e.
Proof.
  unfold F64.of_Z.
  destruct (Z.ltb_spec (Z.of_nat n) 0) as [H | _]; [lia|].
  rewrite FloatAxioms.of_uint63_spec. unfold binary_normalize.
  pose proof (Uint63.to_Z_bounded (Uint63.of_Z (Z.of_nat n))) as Hb.
  destruct (Uint63.to_Z (Uint63.of_Z (Z.of_nat n))) as [|p|p]; [now left | | lia].
  unfold binary_round.
  destruct (shl_align p 0 _) as [mz ez].
  apply binary_round_aux_sign.
Qed.

Lemma sum_zeros (L : Libm) (n : nat) :
  Np.sum (N := float_num L) (repeat 0 n) = 0.
Proof.
  apply (NpFacts.sum_closed (N := float_num L) (fun x => x = 0)).
  - reflexivity.
  - intros a b -> ->. reflexivity.
  - apply Forall_forall. intros x Hx. now apply repeat_spec in Hx.
Qed.

(** Two doubles that compare equal, one of them finite, differ by a
    zero. *)
Lemma sub_of_equal (v m : float) :
  is_finite v = true -> (m =? v) = true ->
  exists s, Prim2SF (v - m) = S754_zero s.
Proof.
  intros Hv He. rewrite FloatAxioms.eqb_spec in He. unfold SFeqb in He.
  rewrite FloatAxioms.sub_spec.
  destruct (finite_cases v Hv) as [[s E] | [s [mv [e E]]]]; rewrite E in *.
  - destruct (Prim2SF m) as [[]|[]| |[] m' e']; try discriminate He;
      destruct s; eexists; reflexivity.
  - destruct (Prim2SF m) as [[]|[]| |s' m' e']; cbn [SFcompare] in He;
      try (destruct s; discriminate He).
    + assert (Hs : s = s') by (destruct s, s'; try reflexivity; discriminate He).
      subst s'.
      assert (Hee : e' = e).
      { destruct s; destruct (Z.compare_spec e' e); try discriminate He; assumption. }
      subst e'.
      rewrite Z.compare_refl in He.
      assert (Hm : m' = mv).
      { apply Pos.compare_eq. rewrite Pos.compare_cont_spec in He. cbn in He.
        destruct s; destruct (Pos.compare m' mv); try discriminate He; reflexivity. }
      subst m'.
      exists false. unfold SF64sub, SFsub. rewrite Z.sub_diag.
      destruct s; reflexivity.
Qed.

(** A constant column whose computed mean compares equal to the common
    value has the standard deviation zero. *)
Lemma std_of_equal_mean (L : Libm) (v : float) (k : nat) :
  is_finite v = true ->
  (Np.mean (N := float_num L) (repeat v (S k)) =? v) = true ->
  Np.std (N := float_num L) (repeat v (S k)) = 0.
Proof.
  intros Hv Hmean. unfold Np.std.
  destruct (sub_of_equal v _ Hv Hmean) as [sd Hd].
  rewrite !map_repeat. cbn [fsub fmul float_num].
  set (d := v - Np.mean (N := float_num L) (repeat v (S k))) in *.
  assert (Hdd : d * d = 0).
  { apply Prim2SF_inj. rewrite FloatAxioms.mul_spec, Hd. now destruct sd. }
  rewrite Hdd, sum_zeros.
  unfold Np.mean in Hmean. unfold Np.count in *.
  cbn [fdiv fsqrt of_int float_num] in *.
  set (c := F64.of_Z (Z.of_nat (List.length (repeat v (S k))))) in *.
  assert (Hz : 0 / c = 0).
  { apply Prim2SF_inj. rewrite FloatAxioms.div_spec.
    rewrite FloatAxioms.eqb_spec, FloatAxioms.div_spec in Hmean.
    pose proof (count_sign (List.length (repeat v (S k)))) as Hc.
    cbv zeta in Hc. fold c in Hc.
    change (Prim2SF 0) with (S754_zero false).
    assert (Hv' : forall x, SFeqb (SF64div x (S754_zero false)) (Prim2SF v) = false
                            /\ SFeqb (SF64div x S754_nan) (Prim2SF v) = false).
    { intros x.
      destruct (finite_cases v Hv) as [[s E] | [s [m [e E]]]]; rewrite E;
        split; destruct x as [[]|[]| |[] ? ?]; destruct s; reflexivity. }
    destruct Hc as [Hc | [Hc | [Hc | [m [e Hc]]]]]; rewrite Hc in *.
    - exfalso. rewrite (proj1 (Hv' _)) in Hmean. discriminate Hmean.
    - reflexivity.
    - exfalso. rewrite (proj2 (Hv' _)) in Hmean. discriminate Hmean.
    - reflexivity. }
  rewrite Hz. reflexivity.
Qed.

End StdFacts.

Module ConstantTable.
Import Analyzer Closed Spec FloatLaws.
Local Open Scope float_scope.

(** C5 (as amended): on binary64, for every non-empty table of identical
    samples whose three Euler angles are finite, the analysis succeeds, the
    three range statistics are exactly zero and every row of the quaternion
    series is the same row; the standard deviation of an Euler angle is
    exactly zero whenever the computed mean of that angle compares equal to
    the common value, and so is the standard deviation of a quaternion
    component that is finite and whose computed mean compares equal to it.
    (The analyzer files the deviations of the x, y, z and scalar components
    under [w_std], [x_std], [y_std] and [z_std].) *)
Theorem constant_dataset_statistics (L : Libm) (s : Sample float)
    (rest : list (Sample float)) (name : string) :
  constant (s :: rest) ->
  is_finite (pitch s) = true ->
  is_finite (roll s) = true ->
  is_finite (heading_true s) = true ->
  exists r rows,
    analyze_scenario (N := float_num L) (init (N := float_num L))
      (s :: rest) name = Py.Ok r
    /\ pitch_range (euler (stats r)) = 0
    /\ roll_range (euler (stats r)) = 0
    /\ heading_range (euler (stats r)) = 0
    /\ quaternions r = Np.Arr2 rows
    /\ List.length rows = List.length (s :: rest)
    /\ (forall row, In row rows -> row = quat_row (N := float_num L) s)
    /\ ((pitch_mean (euler (stats r)) =? pitch s) = true ->
        pitch_std (euler (stats r)) = 0)
    /\ ((roll_mean (euler (stats r)) =? roll s) = true ->
        roll_std (euler (stats r)) = 0)
    /\ ((heading_mean (euler (stats r)) =? heading_true s) = true ->
        heading_std (euler (stats r)) = 0)
    /\ Forall (fun '(component, deviation) =>
                 let c := component (rotation_of (N := float_num L) s) in
                 is_finite c = true ->
                 (Np.mean (N := float_num L)
                    (repeat c (List.length (s :: rest))) =? c) = true ->
                 deviation (quaternion (stats r)) = 0)
              [(@Rotation.qx float, @w_std float); (@Rotation.qy float, @x_std float);
               (@Rotation.qz float, @y_std float); (@Rotation.qw float, @z_std float)].
Proof.
  intros Hc Hp Hr Hh. rewrite AnalyzerFacts.analyze_scenario_cons.
  exists (analysis (N := float_num L) (init (N := float_num L)) s rest name),
         (map (quat_row (N := float_num L)) (s :: rest)).
  split; [reflexivity|].
  cbn [stats euler quaternion quaternions analysis
       pitch_range roll_range heading_range
       pitch_mean roll_mean heading_mean pitch_std roll_std heading_std
       w_std x_std y_std z_std].
  assert (Hrest : rest = repeat s (List.length rest))
    by (apply FloatCases.constant_is_repeat; exact Hc).
  remember (List.length rest) as n eqn:Hn.
  assert (Hmap : forall (f : Sample float -> float),
            map f (s :: rest) = repeat (f s) (S n)).
  { intros f. rewrite Hrest. cbn [map repeat]. now rewrite map_repeat. }
  assert (Hmap' : forall (f : Sample float -> float),
            map f rest = repeat (f s) n).
  { intros f. rewrite Hrest. now rewrite map_repeat. }
  unfold range_of. rewrite !Hmap, !Hmap'.
  cbn [fmax fmin fsub float_num].
  rewrite !(fold_diag F64.maximum) by apply maximum_diag.
  rewrite !(fold_diag F64.minimum) by apply minimum_diag.
  rewrite !sub_diag by assumption.
  split; [reflexivity|]. split; [reflexivity|]. split; [reflexivity|].
  split; [reflexivity|]. split; [now rewrite length_map|].
  split.
  { intros row Hrow. apply in_map_iff in Hrow. destruct Hrow as [x [<- Hx]].
    f_equal. symmetry. apply Hc; [now left | exact Hx]. }
  split; [now apply StdFacts.std_of_equal_mean|].
  split; [now apply StdFacts.std_of_equal_mean|].
  split; [now apply StdFacts.std_of_equal_mean|].
  cbn [List.length]. rewrite <- Hn.
  repeat (apply Forall_cons;
          [cbv zeta; intros Hfin Hmean;
           now apply StdFacts.std_of_equal_mean|]).
  apply Forall_nil.
Qed.

Lemma constant_dataset_statistics_witness :
  exists r rows,
    analyze_scenario (N := float_num Fixtures.taylor_libm)
      (init (N := float_num Fixtures.taylor_libm))
      [Fixtures.tenth; Fixtures.tenth; Fixtures.tenth] "cruising" = Py.Ok r
    /\ pitch_range (euler (stats r)) = 0
    /\ roll_range (euler (stats r)) = 0
    /\ heading_range (euler (stats r)) = 0
    /\ quaternions r = Np.Arr2 rows
    /\ List.length rows = 3%nat
    /\ (forall row, In row rows ->
          row = quat_row (N := float_num Fixtures.taylor_libm) Fixtures.tenth)
    /\ roll_std (euler (stats r)) = 0
    /\ heading_std (euler (stats r)) = 0.
Proof.
  destruct (constant_dataset_statistics Fixtures.taylor_libm Fixtures.tenth
              [Fixtures.tenth; Fixtures.tenth] "cruising"%string)
    as (r & rows & Hr & Hpr & Hrr & Hhr & Hq & Hl & Hrows & _ & Hrs & Hhs & _).
  - apply (FloatCases.constant_repeat Fixtures.tenth 3).
  - vm_compute. reflexivity.
  - vm_compute. reflexivity.
  - vm_compute. reflexivity.
  - exists r, rows. repeat (split; [assumption|]).
    pose proof Hr as Hr'.
    rewrite AnalyzerFacts.analyze_scenario_cons in Hr'. injection Hr' as Er.
    split; [apply Hrs | apply Hhs]; rewrite <- Er; vm_compute; reflexivity.
Defined.

End ConstantTable.

(* ================================================================== *)
(** * More on [read_xplane_data] *)
(* ================================================================== *)

Module ParserMore.
Import Py Spec PyFacts ParserFacts.
Local Open Scope string_scope.

Lemma mapM_ok_Forall2 {A B : Type} (f : A -> result B) xs ys :
  mapM f xs = Ok ys -> Forall2 (fun x y => f x = Ok y) xs ys.
Proof.
  revert ys. induction xs as [|x xs IH]; simpl; intros ys H.
  - injection H as <-. constructor.
  - destruct (f x) as [y|e] eqn:Hx; simpl in H; [|discriminate].
    destruct (mapM f xs) as [ys'|e] eqn:Hxs; simpl in H; [|discriminate].
    injection H as <-. constructor; auto.
Qed.

Lemma Forall2_mapM_ok {A B : Type} (f : A -> result B) xs ys :
  Forall2 (fun x y => f x = Ok y) xs ys -> mapM f xs = Ok ys.
Proof.
  induction 1 as [|x y xs ys Hx _ IH]; simpl; [reflexivity|].
  now rewrite Hx, IH.
Qed.

Lemma mapM_first_failure {A B : Type} (f : A -> result B) xs1 ys1 x e xs2 :
  Forall2 (fun x y => f x = Ok y) xs1 ys1 -> f x = Raise e ->
  mapM f (xs1 ++ x :: xs2) = Raise e.
Proof.
  induction 1 as [|a b xs ys Ha _ IH]; simpl; intros Hx.
  - now rewrite Hx.
  - rewrite Ha. simpl. now rewrite IH.
Qed.

Lemma Forall2_map_left {A B C : Type} (g : A -> B) (P : B -> C -> Prop) l r :
  Forall2 P (map g l) r -> Forall2 (fun x y => P (g x) y) l r.
Proof.
  revert r. induction l as [|x l IH]; intros r H; inversion H; subst;
    constructor; auto.
Qed.

Lemma Forall2_map_left_intro {A B C : Type} (g : A -> B) (P : B -> C -> Prop) l r :
  Forall2 (fun x y => P (g x) y) l r -> Forall2 P (map g l) r.
Proof. induction 1; constructor; auto. Qed.

Lemma list_max_attained (l : list nat) :
  list_max l <> 0%nat -> In (list_max l) l.
Proof.
  induction l as [|x l IH]; simpl; [congruence|].
  intros H. destruct (Nat.max_spec x (list_max l)) as [[Hlt ->] | [Hle ->]].
  - right. apply IH. lia.
  - now left.
Qed.

Section Reading.
Variable py_float : string -> option float.

(** The numbers read on a line of the file. *)
Local Abbreviation parsed :=
  (fun line vs => Parser.parse_values py_float (strip line) = Ok vs).

Lemma mkDataFrame_ok_inv (data : list (list float)) table :
  Parser.mkDataFrame data Parser.columns = Ok table ->
  table = map Parser.row_of_values data
  /\ (data <> [] ->
      (forall r, In r data -> (List.length r <= 9)%nat)
      /\ exists r, In r data /\ List.length r = 9%nat).
Proof.
  destruct data as [|r0 data]; simpl.
  - intros [= <-]. split; [reflexivity | congruence].
  - change (Nat.max (Datatypes.length r0) (list_max (map (@List.length float) data)))
      with (list_max (map (@List.length float) (r0 :: data))).
    destruct (list_max (map (@List.length float) (r0 :: data)) =? 9)%nat eqn:E;
      [|discriminate].
    intros [= <-]. apply Nat.eqb_eq in E. split; [reflexivity|].
    intros _. split.
    + intros r Hr.
      assert (Hle : (list_max (map (@List.length float) (r0 :: data)) <= 9)%nat) by lia.
      apply list_max_le in Hle. rewrite Forall_forall in Hle.
      apply Hle. now apply in_map.
    + assert (Hin : In 9%nat (map (@List.length float) (r0 :: data))).
      { rewrite <- E. apply list_max_attained. lia. }
      apply in_map_iff in Hin. destruct Hin as [r [Hl Hr]]. now exists r.
Qed.

(** When no row is wider than nine values and one row has nine, the table
    is built, one row per data line. *)
Lemma parse_lines_padded (lines : list string) (rows : list (list float)) :
  Forall2 parsed (filter Parser.is_data_line lines) rows ->
  (forall r, In r rows -> (List.length r <= 9)%nat) ->
  (exists r, In r rows /\ List.length r = 9%nat) ->
  Parser.parse_lines py_float lines = Ok (map Parser.row_of_values rows).
Proof.
  intros Hrows Hle [r9 [Hin9 Hlen9]]. unfold Parser.parse_lines.
  rewrite (Forall2_mapM_ok _ (map strip (filter Parser.is_data_line lines)) rows).
  - cbn [bind]. unfold Parser.mkDataFrame.
    destruct rows as [|r rows]; [destruct Hin9|].
    assert (Hmax : list_max (map (@List.length float) (r :: rows)) = 9%nat).
    { apply Nat.le_antisymm.
      - apply list_max_le, Forall_forall. intros n Hn.
        apply in_map_iff in Hn. destruct Hn as [x [<- Hx]]. now apply Hle.
      - rewrite <- Hlen9.
        assert (H := proj1 (list_max_le (map (@List.length float) (r :: rows)) _)
                       (Nat.le_refl _)).
        rewrite Forall_forall in H. apply H. now apply in_map. }
    rewrite Hmax. reflexivity.
  - now apply Forall2_map_left_intro.
Qed.

(** X1: when [read_xplane_data] returns a table, the file was opened, every
    data line of it was read into a list of numbers, in the order of the
    file, and the table holds one row per data line, made from that line's
    numbers; no line gave more than nine numbers and, unless there was no
    data line at all, some line gave exactly nine. *)
Theorem table_has_one_row_per_data_line
    (open_read : string -> result string) (path : string)
    (table : Analyzer.DataFrame float) :
  Parser.read_xplane_data py_float open_read path = Ok table ->
  exists text rows,
    open_read path = Ok text
    /\ Forall2 parsed (filter Parser.is_data_line (readlines text)) rows
    /\ table = map Parser.row_of_values rows
    /\ List.length table
       = List.length (filter Parser.is_data_line (readlines text))
    /\ (forall r, In r rows -> (List.length r <= 9)%nat)
    /\ (rows <> [] -> exists r, In r rows /\ List.length r = 9%nat).
Proof.
  unfold Parser.read_xplane_data.
  destruct (open_read path) as [text|e] eqn:Hopen; simpl; [|discriminate].
  unfold Parser.parse_lines.
  destruct (mapM (Parser.parse_values py_float)
              (map strip (filter Parser.is_data_line (readlines text))))
    as [rows|e] eqn:Hm; simpl; [|discriminate].
  intros Hdf. apply mkDataFrame_ok_inv in Hdf. destruct Hdf as [-> Hw].
  apply mapM_ok_Forall2 in Hm.
  assert (Hf : Forall2 parsed (filter Parser.is_data_line (readlines text)) rows).
  { exact (Forall2_map_left strip _ _ _ Hm). }
  exists text, rows. split; [reflexivity|]. split; [exact Hf|].
  split; [reflexivity|]. split.
  - rewrite length_map. symmetry. exact (Forall2_length Hf).
  - split.
    + intros r Hr. apply Hw; [|exact Hr]. intros ->. destruct Hr.
    + intros Hne. now apply Hw.
Qed.

(** X2: lines that are not data lines (blank lines, lines without a
    separator, lines that contain [pitch]) can be put anywhere in the file
    or taken out of it: the result of the parse, table or exception, is the
    same. *)
Theorem other_lines_are_ignored (before junk after : list string) :
  (forall line, In line junk -> ~ data_line line) ->
  Parser.parse_lines py_float (before ++ junk ++ after)%list
  = Parser.parse_lines py_float (before ++ after)%list.
Proof.
  intros H. unfold Parser.parse_lines. rewrite !filter_app.
  assert (Hj : filter Parser.is_data_line junk = []).
  { induction junk as [|j js IH]; simpl; [reflexivity|].
    destruct (Parser.is_data_line j) eqn:E.
    - apply is_data_line_iff in E. exfalso. apply (H j); [now left | exact E].
    - apply IH. intros x Hx. apply H. now right. }
  now rewrite Hj.
Qed.

(** X3: the parse stops at the first field, in the order of the file, that
    [float] rejects: when the data lines before a line are all read, and the
    fields before a field of that line are all numbers, and [float] rejects
    the field, the parse raises [ValueError] with Python's message naming
    the stripped field (a field that [repr] writes between apostrophes as it
    is); what follows in the file is not looked at. *)
Theorem first_bad_number_is_reported (lines good rest : list string)
    (rows : list (list float)) (bad : string)
    (fs1 fs2 : list string) (f : string) :
  filter Parser.is_data_line lines = (good ++ bad :: rest)%list ->
  Forall2 parsed good rows ->
  fields bad = (fs1 ++ f :: fs2)%list ->
  Forall (fun x => py_float (strip x) <> None) fs1 ->
  py_float (strip f) = None ->
  Repr.plain (strip f) ->
  Parser.parse_lines py_float lines
  = Raise (ValueError ("could not convert string to float: '" ++ strip f ++ "'")).
Proof.
  intros Hfilter Hgood Hfields Hfs1 Hf _. unfold Parser.parse_lines.
  rewrite Hfilter, map_app. cbn [map].
  rewrite (mapM_first_failure _ (map strip good) rows (strip bad)
             (ValueError ("could not convert string to float: '" ++ strip f ++ "'"))).
  - reflexivity.
  - now apply Forall2_map_left_intro.
  - unfold Parser.parse_values. fold (fields bad). rewrite Hfields.
    assert (Hok : exists vs, Forall2
              (fun x y => Parser.float_of py_float (strip x) = Ok y) fs1 vs).
    { clear Hfields. induction Hfs1 as [|x xs Hx _ IH].
      - exists []. constructor.
      - destruct IH as [vs IH].
        destruct (py_float (strip x)) as [v|] eqn:E; [|congruence].
        exists (v :: vs). constructor; [|exact IH].
        unfold Parser.float_of. now rewrite E. }
    destruct Hok as [vs Hok].
    apply (mapM_first_failure _ fs1 vs); [exact Hok|].
    unfold Parser.float_of. now rewrite Hf.
Qed.

(** X4: when every data line is read and the longest list of numbers does
    not have nine of them, building the table raises [ValueError] with
    pandas' message, which names that length. *)
Theorem wrong_width_is_rejected (lines : list string)
    (rows : list (list float)) :
  Forall2 parsed (filter Parser.is_data_line lines) rows ->
  rows <> [] ->
  list_max (map (@List.length float) rows) <> 9%nat ->
  Parser.parse_lines py_float lines
  = Raise (ValueError
      ("9 columns passed, passed data had "
       ++ str_nat (list_max (map (@List.length float) rows)) ++ " columns")).
Proof.
  intros Hrows Hne Hw. unfold Parser.parse_lines.
  rewrite (Forall2_mapM_ok _ (map strip (filter Parser.is_data_line lines)) rows).
  - cbn [bind]. unfold Parser.mkDataFrame.
    destruct rows as [|r rows]; [congruence|].
    apply Nat.eqb_neq in Hw. cbn [List.length Parser.columns].
    rewrite Hw. reflexivity.
  - now apply Forall2_map_left_intro.
Qed.


End Reading.

(** X6: the blanks around a field and the fields that are blank do not
    count: two lines whose non-blank fields are the same once stripped are
    read the same, numbers or exception. *)
Theorem blank_fields_and_padding_are_insignificant
    (py_float : string -> option float) (fs fs' : list string) :
  fs <> [] -> fs' <> [] ->
  (forall f, In f fs -> ~ In "|"%char (chars f)) ->
  (forall f, In f fs' -> ~ In "|"%char (chars f)) ->
  map strip (filter (fun x => truthy (strip x)) fs)
  = map strip (filter (fun x => truthy (strip x)) fs') ->
  Parser.parse_values py_float (join "|" fs)
  = Parser.parse_values py_float (join "|" fs').
Proof.
  intros Hne Hne' Hs Hs' Heq. unfold Parser.parse_values.
  rewrite !split_join by assumption.
  assert (Hm : forall l : list string,
            mapM (fun x => Parser.float_of py_float (strip x)) l
            = mapM (Parser.float_of py_float) (map strip l)).
  { induction l as [|x l IH]; simpl; [reflexivity | now rewrite IH]. }
  now rewrite !Hm, Heq.
Qed.

Lemma table_has_one_row_per_data_line_witness :
  exists text rows,
    Fixtures.files [("cruising_data.txt", Fixtures.three_line_file)]
      "cruising_data.txt" = Ok text
    /\ Forall2 (fun line vs =>
                  Parser.parse_values Fixtures.decimal_float (strip line) = Ok vs)
               (filter Parser.is_data_line (readlines text)) rows
    /\ Cases.three_samples = map Parser.row_of_values rows
    /\ List.length Cases.three_samples
       = List.length (filter Parser.is_data_line (readlines text))
    /\ (forall r, In r rows -> (List.length r <= 9)%nat)
    /\ (rows <> [] -> exists r, In r rows /\ List.length r = 9%nat).
Proof.
  apply (table_has_one_row_per_data_line Fixtures.decimal_float
           (Fixtures.files [("cruising_data.txt", Fixtures.three_line_file)])
           "cruising_data.txt" Cases.three_samples).
  vm_compute. reflexivity.
Defined.

Lemma other_lines_are_ignored_witness :
  Parser.parse_lines Fixtures.decimal_float
    ([Cases.first_line]
     ++ [Fixtures.header_line; "   "; "recorded at 5 writes/sec"]
     ++ [Cases.second_line])%list
  = Parser.parse_lines Fixtures.decimal_float
      ([Cases.first_line] ++ [Cases.second_line])%list.
Proof.
  apply (other_lines_are_ignored Fixtures.decimal_float).
  intros line Hl Hd. apply is_data_line_iff in Hd.
  vm_compute in Hl.
  repeat (destruct Hl as [<- | Hl]; [vm_compute in Hd; discriminate Hd|]).
  destruct Hl.
Defined.

Lemma first_bad_number_is_reported_witness :
  Parser.parse_lines Fixtures.decimal_float (readlines Cases.malformed_file)
  = Raise (ValueError "could not convert string to float: 'n/a'").
Proof.
  apply (first_bad_number_is_reported Fixtures.decimal_float
           (readlines Cases.malformed_file)
           [Cases.first_line] [Cases.worse_line] [Cases.first_values]
           Cases.bad_line ["3.0 "; " -1.5 "]
           [" 89.5 "; " 1.5 "; " 90.0 "; " 0.25 "; " -0.5 "; " 0.0 "] " n/a ").
  - vm_compute. reflexivity.
  - apply Forall2_cons; [vm_compute; reflexivity | apply Forall2_nil].
  - vm_compute. reflexivity.
  - repeat (apply Forall_cons; [vm_compute; discriminate|]). apply Forall_nil.
  - vm_compute. reflexivity.
  - intros c Hc. vm_compute in Hc.
    repeat (destruct Hc as [<- | Hc]; [reflexivity|]). destruct Hc.
Defined.

Lemma wrong_width_is_rejected_witness :
  Parser.parse_lines Fixtures.decimal_float (readlines Cases.eight_field_file)
  = Raise (ValueError "9 columns passed, passed data had 8 columns").
Proof.
  apply (wrong_width_is_rejected Fixtures.decimal_float
           (readlines Cases.eight_field_file)
           [Cases.shorter_values; Cases.short_values]).
  - apply Forall2_cons; [vm_compute; reflexivity|].
    apply Forall2_cons; [vm_compute; reflexivity | apply Forall2_nil].
  - discriminate.
  - vm_compute. discriminate.
Defined.


Lemma blank_fields_and_padding_are_insignificant_witness :
  Parser.parse_values Fixtures.decimal_float "  2.5 | -1.0 |"
  = Parser.parse_values Fixtures.decimal_float "2.5|   |-1.0".
Proof.
  apply (blank_fields_and_padding_are_insignificant
           Fixtures.decimal_float ["  2.5 "; " -1.0 "; ""] ["2.5"; "   "; "-1.0"]).
  - discriminate.
  - discriminate.
  - intros f Hf Hc. vm_compute in Hf.
    repeat (destruct Hf as [<- | Hf];
            [vm_compute in Hc;
             repeat (destruct Hc as [Hc | Hc]; [discriminate Hc|]);
             destruct Hc|]).
    destruct Hf.
  - intros f Hf Hc. vm_compute in Hf.
    repeat (destruct Hf as [<- | Hf];
            [vm_compute in Hc;
             repeat (destruct Hc as [Hc | Hc]; [discriminate Hc|]);
             destruct Hc|]).
    destruct Hf.
  - vm_compute. reflexivity.
Defined.

End ParserMore.

(* ================================================================== *)
(** * More on [analyze_scenario] *)
(* ================================================================== *)

Module AnalyzerMore.
Import Py Analyzer Closed.
Local Open Scope string_scope.

Section Generic.
Context {F : Type} {N : Num F}.

(** X7: the analysis of a table with at least one row succeeds whatever the
    numbers are, and what it returns is rectangular: the time axis and the
    three series have one entry per row of the table, the rows of the Euler
    and of the rate series hold three numbers and those of the quaternion
    series four; the scenario name is handed through. *)
Theorem results_are_rectangular (self : FlightScenarioAnalyzer F)
    (s : Sample F) (rest : list (Sample F)) (name : string) :
  exists r e q a,
    analyze_scenario self (s :: rest) name = Ok r
    /\ euler_data r = Np.Arr2 e
    /\ quaternions r = Np.Arr2 q
    /\ angular_rates r = Np.Arr2 a
    /\ List.length (time r) = S (List.length rest)
    /\ List.length e = S (List.length rest)
    /\ List.length q = S (List.length rest)
    /\ List.length a = S (List.length rest)
    /\ (forall row, In row e -> List.length row = 3%nat)
    /\ (forall row, In row q -> List.length row = 4%nat)
    /\ (forall row, In row a -> List.length row = 3%nat)
    /\ scenario r = name.
Proof.
  rewrite AnalyzerFacts.analyze_scenario_cons.
  eexists. eexists. eexists. eexists.
  split; [reflexivity|]. split; [reflexivity|]. split; [reflexivity|].
  split; [reflexivity|].
  cbn [time analysis scenario]. unfold time_axis, Np.arange.
  rewrite !length_map, length_seq.
  repeat split; try reflexivity;
    intros row Hrow; apply in_map_iff in Hrow;
    destruct Hrow as [x [<- _]]; reflexivity.
Qed.

(** X8: the analysis reads six of the nine columns.  Two tables that agree,
    row by row, on pitch, roll, true heading and the three rates are
    analyzed alike whatever their magnetic heading, variation and compass
    columns hold: both analyses raise the same exception, or their results
    differ in the scenario name only. *)
Theorem unused_columns_and_name_do_not_matter
    (self : FlightScenarioAnalyzer F) (d1 d2 : DataFrame F)
    (name1 name2 : string) :
  Forall2 (fun a b =>
             pitch a = pitch b /\ roll a = roll b
             /\ heading_true a = heading_true b
             /\ P a = P b /\ Q a = Q b /\ R a = R b) d1 d2 ->
  analyze_scenario self d2 name2 =
  match analyze_scenario self d1 name1 with
  | Ok r =>
      Ok {| time := time r; euler_data := euler_data r;
            quaternions := quaternions r;
            angular_rates := angular_rates r;
            stats := stats r; scenario := name2 |}
  | Raise e => Raise e
  end.
Proof.
  intros H.
  assert (Hcol : forall (B : Type) (f : Sample F -> B),
            (forall a b,
               pitch a = pitch b /\ roll a = roll b
               /\ heading_true a = heading_true b
               /\ P a = P b /\ Q a = Q b /\ R a = R b -> f a = f b) ->
            map f d1 = map f d2).
  { intros B f Hf. induction H as [|a b l1 l2 Hab _ IH]; simpl;
      [reflexivity | now rewrite (Hf a b Hab), IH]. }
  pose proof (Forall2_length H) as Hl.
  destruct d1 as [|s1 r1]; destruct d2 as [|s2 r2]; try discriminate Hl.
  - reflexivity.
  - rewrite !AnalyzerFacts.analyze_scenario_cons. f_equal.
    unfold analysis, time_axis, range_of, max_abs.
    rewrite <- Hl.
    rewrite <- (Hcol _ (fun row => [pitch row; roll row; heading_true row]))
      by (intros a b (-> & -> & -> & _); reflexivity).
    rewrite <- (Hcol _ (fun row => [P row; Q row; R row]))
      by (intros a b (_ & _ & _ & -> & -> & ->); reflexivity).
    assert (Hrot : forall a b,
              pitch a = pitch b /\ roll a = roll b
              /\ heading_true a = heading_true b
              /\ P a = P b /\ Q a = Q b /\ R a = R b ->
              rotation_of a = rotation_of b).
    { intros a b (Hp & Hr & Hh & _). unfold rotation_of. now rewrite Hp, Hr, Hh. }
    rewrite <- (Hcol _ quat_row)
      by (intros a b Hab; unfold quat_row; now rewrite (Hrot a b Hab)).
    rewrite <- (Hcol _ (fun r => Rotation.qx (rotation_of r)))
      by (intros a b Hab; now rewrite (Hrot a b Hab)).
    rewrite <- (Hcol _ (fun r => Rotation.qy (rotation_of r)))
      by (intros a b Hab; now rewrite (Hrot a b Hab)).
    rewrite <- (Hcol _ (fun r => Rotation.qz (rotation_of r)))
      by (intros a b Hab; now rewrite (Hrot a b Hab)).
    rewrite <- (Hcol _ (fun r => Rotation.qw (rotation_of r)))
      by (intros a b Hab; now rewrite (Hrot a b Hab)).
    assert (Htail : forall f : Sample F -> F,
              (forall a b,
                 pitch a = pitch b /\ roll a = roll b
                 /\ heading_true a = heading_true b
                 /\ P a = P b /\ Q a = Q b /\ R a = R b -> f a = f b) ->
              f s2 = f s1 /\ map f r2 = map f r1).
    { intros f Hf. pose proof (Hcol _ f Hf) as E. cbn [map] in E.
      injection E as E1 E2. now rewrite E1, E2. }
    cbn [map].
    destruct (Htail pitch) as [-> ->];
      [intros a b (-> & _); reflexivity|].
    destruct (Htail roll) as [-> ->];
      [intros a b (_ & -> & _); reflexivity|].
    destruct (Htail heading_true) as [-> ->];
      [intros a b (_ & _ & -> & _); reflexivity|].
    destruct (Htail P) as [-> ->];
      [intros a b (_ & _ & _ & -> & _); reflexivity|].
    destruct (Htail Q) as [-> ->];
      [intros a b (_ & _ & _ & _ & -> & _); reflexivity|].
    destruct (Htail R) as [-> ->];
      [intros a b (_ & _ & _ & _ & _ & ->); reflexivity|].
    reflexivity.
Qed.

End Generic.

Lemma unused_columns_and_name_do_not_matter_witness :
  analyze_scenario (N := float_num Fixtures.taylor_libm)
    (init (N := float_num Fixtures.taylor_libm))
    Cases.four_rows_other_compass "climbing"
  = match analyze_scenario (N := float_num Fixtures.taylor_libm)
            (init (N := float_num Fixtures.taylor_libm))
            Fixtures.four_rows "cruising" with
    | Ok r =>
        Ok {| time := time r; euler_data := euler_data r;
              quaternions := quaternions r;
              angular_rates := angular_rates r;
              stats := stats r; scenario := "climbing" |}
    | Raise e => Raise e
    end.
Proof.
  apply (unused_columns_and_name_do_not_matter
           (N := float_num Fixtures.taylor_libm)).
  unfold Fixtures.four_rows, Cases.four_rows_other_compass. cbn [map].
  repeat (apply Forall2_cons; [repeat split; reflexivity|]).
  apply Forall2_nil.
Defined.

End AnalyzerMore.

(* ================================================================== *)
(** * A reading that is not a number *)
(* ================================================================== *)

Module NanFacts.
Import Py Analyzer Closed FloatLaws.
Local Open Scope float_scope.

Lemma ltb_nan_l x : (nan <? x) = false.
Proof. rewrite FloatAxioms.ltb_spec, Prim2SF_nan. reflexivity. Qed.

Lemma ltb_nan_r x : (x <? nan) = false.
Proof.
  rewrite FloatAxioms.ltb_spec, Prim2SF_nan. unfold SFltb, SFcompare.
  now destruct (Prim2SF x).
Qed.

Lemma maximum_nan_l x : F64.maximum nan x = nan.
Proof. reflexivity. Qed.

Lemma maximum_nan_r x : F64.maximum x nan = nan.
Proof.
  unfold F64.maximum. destruct (is_nan x) eqn:E.
  - unfold is_nan in E. apply negb_true_iff in E.
    rewrite FloatAxioms.eqb_spec in E. apply Prim2SF_inj. rewrite Prim2SF_nan.
    destruct (Prim2SF x) as [s|s| |s m e]; try reflexivity;
      unfold SFeqb, SFcompare in E.
    + discriminate E.
    + now destruct s.
    + destruct s; rewrite ?Z.compare_refl, ?Pos.compare_cont_refl in E;
        discriminate E.
  - now rewrite ltb_nan_l.
Qed.

(** A reduction that NaN absorbs on both sides gives NaN as soon as NaN is
    among what it reduces. *)
Lemma fold_absorbs (f : float -> float -> float) (l : list float) (a : float) :
  (forall x, f nan x = nan) -> (forall x, f x nan = nan) ->
  a = nan \/ In nan l -> fold_left f l a = nan.
Proof.
  intros Hl Hr. revert a. induction l as [|x l IH]; intros a H; simpl.
  - destruct H as [H | []]. exact H.
  - apply IH. destruct H as [-> | [-> | H]].
    + left. apply Hl.
    + left. apply Hr.
    + now right.
Qed.

Section WithLibm.
Variable L : Libm.

Local Abbreviation N64 := (float_num L).

Lemma sum_nan l : In nan l -> Np.sum (N := N64) l = nan.
Proof.
  intros H.
  exact (NpFacts.sum_sticks (N := N64) nan add_nan_l add_nan_r l H).
Qed.

Lemma mean_nan l : In nan l -> Np.mean (N := N64) l = nan.
Proof. intros H. unfold Np.mean. rewrite (sum_nan l H). apply div_nan_l. Qed.

Lemma std_nan l : In nan l -> Np.std (N := N64) l = nan.
Proof.
  intros H. unfold Np.std. rewrite (mean_nan l H).
  rewrite sum_nan.
  - cbn [fdiv fsqrt float_num]. rewrite div_nan_l. reflexivity.
  - destruct l as [|x l]; [destruct H|].
    left. cbn [fsub fmul float_num]. now rewrite sub_nan_r, mul_nan_l.
Qed.

Lemma range_nan x l : In nan (x :: l) -> range_of (N := N64) x l = nan.
Proof.
  intros H. unfold range_of. cbn [fmax fmin fsub float_num].
  rewrite (fold_absorbs F64.maximum l x maximum_nan_l maximum_nan_r).
  - apply sub_nan_l.
  - destruct H as [-> | H]; [now left | now right].
Qed.

Lemma max_abs_nan x l : In nan (x :: l) -> max_abs (N := N64) x l = nan.
Proof.
  intros H. unfold max_abs. cbn [fmax fabs float_num].
  apply (fold_absorbs F64.maximum _ _ maximum_nan_l maximum_nan_r).
  destruct H as [-> | H]; [now left|].
  right. change nan with (abs nan). now apply in_map.
Qed.

Lemma rotation_of_nan_angle (row : Sample float) :
  pitch row = nan \/ roll row = nan \/ heading_true row = nan ->
  rotation_of (N := N64) row = Rotation.mkQuat nan nan nan nan.
Proof.
  intros H.
  unfold rotation_of, extrinsic_xyz, Rotation.compose_quat,
    Rotation.make_elementary_quat, Rotation.deg2rad.
  cbn [Rotation.qx Rotation.qy Rotation.qz Rotation.qw
       fadd fsub fmul fdiv fsin fcos fpi of_int float_num].
  destruct H as [-> | [-> | ->]];
    rewrite !mul_nan_l, !div_nan_l, libm_sin_nan, libm_cos_nan;
    repeat rewrite ?mul_nan_l, ?mul_nan_r, ?add_nan_l, ?add_nan_r,
      ?sub_nan_l, ?sub_nan_r;
    reflexivity.
Qed.

(** X9: one reading that is not a number spoils every statistic of its
    column: the analysis still succeeds, and if a row of the table has a
    NaN pitch, roll or heading then the mean, the standard deviation and the
    range reported for that angle are NaN; if it has a NaN rate then the
    maximum and the mean reported for that rate are NaN. *)
Theorem nan_spoils_the_statistics_of_its_column (s : Sample float)
    (rest : list (Sample float)) (name : string) (row : Sample float) :
  In row (s :: rest) ->
  exists r,
    analyze_scenario (N := N64) (init (N := N64)) (s :: rest) name = Ok r
    /\ (pitch row = nan ->
        pitch_mean (euler (stats r)) = nan
        /\ pitch_std (euler (stats r)) = nan
        /\ pitch_range (euler (stats r)) = nan)
    /\ (roll row = nan ->
        roll_mean (euler (stats r)) = nan
        /\ roll_std (euler (stats r)) = nan
        /\ roll_range (euler (stats r)) = nan)
    /\ (heading_true row = nan ->
        heading_mean (euler (stats r)) = nan
        /\ heading_std (euler (stats r)) = nan
        /\ heading_range (euler (stats r)) = nan)
    /\ (P row = nan ->
        P_max (rates (stats r)) = nan /\ P_mean (rates (stats r)) = nan)
    /\ (Q row = nan ->
        Q_max (rates (stats r)) = nan /\ Q_mean (rates (stats r)) = nan)
    /\ (R row = nan ->
        R_max (rates (stats r)) = nan /\ R_mean (rates (stats r)) = nan).
Proof.
  intros Hin. rewrite AnalyzerFacts.analyze_scenario_cons.
  eexists. split; [reflexivity|].
  assert (Hcol : forall f : Sample float -> float,
            f row = nan -> In nan (map f (s :: rest))).
  { intros f <-. now apply in_map. }
  cbn [stats euler rates analysis pitch_mean pitch_std pitch_range
       roll_mean roll_std roll_range heading_mean heading_std heading_range
       P_max P_mean Q_max Q_mean R_max R_mean].
  repeat split;
    first [ apply mean_nan | apply std_nan | apply range_nan
          | apply max_abs_nan ];
    match goal with
    | H : ?f row = nan |- In nan (map ?g (s :: rest)) => exact (Hcol g H)
    | H : ?f row = nan |- In nan (_ :: map ?g rest) => exact (Hcol g H)
    end.
Qed.

(** X10: an angle that is not a number spoils the quaternion of its row and
    with it the four quaternion statistics: if a row of the table has a NaN
    pitch, roll or heading, the analysis succeeds, the quaternion series
    holds a row of four NaN, and the four standard deviations reported for
    the quaternion are NaN. *)
Theorem nan_angle_spoils_the_quaternion_statistics (s : Sample float)
    (rest : list (Sample float)) (name : string) (row : Sample float) :
  In row (s :: rest) ->
  pitch row = nan \/ roll row = nan \/ heading_true row = nan ->
  exists r rows,
    analyze_scenario (N := N64) (init (N := N64)) (s :: rest) name = Ok r
    /\ quaternions r = Np.Arr2 rows
    /\ In [nan; nan; nan; nan] rows
    /\ w_std (quaternion (stats r)) = nan
    /\ x_std (quaternion (stats r)) = nan
    /\ y_std (quaternion (stats r)) = nan
    /\ z_std (quaternion (stats r)) = nan.
Proof.
  intros Hin Hnan. rewrite AnalyzerFacts.analyze_scenario_cons.
  eexists. eexists. split; [reflexivity|]. split; [reflexivity|].
  pose proof (rotation_of_nan_angle row Hnan) as Hrot.
  split.
  - apply in_map_iff. exists row. split; [|exact Hin].
    unfold quat_row. now rewrite Hrot.
  - cbn [stats quaternion analysis w_std x_std y_std z_std].
    repeat split; apply std_nan; apply in_map_iff; exists row;
      (split; [now rewrite Hrot | exact Hin]).
Qed.

(** X11: a short line in the file ends in NaN statistics.  When the data
    lines are all read, none gives more than nine numbers, one gives nine
    and one gives fewer, the table is built and analyzed without any
    exception, and the maximum and the mean reported for the rate [R] are
    NaN. *)
Theorem short_line_spoils_the_yaw_rate_statistics
    (py_float : string -> option float) (lines : list string)
    (rows : list (list float)) (short : list float) (name : string) :
  Forall2 (fun line vs => Parser.parse_values py_float (strip line) = Ok vs)
          (filter Parser.is_data_line lines) rows ->
  (forall r, In r rows -> (List.length r <= 9)%nat) ->
  (exists r, In r rows /\ List.length r = 9%nat) ->
  In short rows -> (List.length short < 9)%nat ->
  exists table r,
    Parser.parse_lines py_float lines = Ok table
    /\ analyze_scenario (N := N64) (init (N := N64)) table name = Ok r
    /\ R_max (rates (stats r)) = nan
    /\ R_mean (rates (stats r)) = nan.
Proof.
  intros Hrows Hle H9 Hin Hshort.
  pose proof (ParserMore.parse_lines_padded py_float lines rows Hrows Hle H9)
    as Hparse.
  assert (Hnan : In nan (map R (map Parser.row_of_values rows))).
  { apply in_map_iff. exists (Parser.row_of_values short). split.
    - unfold Parser.row_of_values. cbn [R]. apply nth_overflow. lia.
    - now apply in_map. }
  destruct rows as [|r0 rows]; [destruct Hin|].
  cbn [map] in Hparse, Hnan.
  eexists. eexists. split; [exact Hparse|].
  split; [apply AnalyzerFacts.analyze_scenario_cons|].
  cbn [stats rates analysis R_max R_mean]. split.
  - apply max_abs_nan. exact Hnan.
  - apply mean_nan. exact Hnan.
Qed.

End WithLibm.

Lemma nan_spoils_the_statistics_of_its_column_witness :
  exists r,
    analyze_scenario (N := float_num Fixtures.taylor_libm)
      (init (N := float_num Fixtures.taylor_libm))
      Cases.lost_pitch "climbing"%string = Ok r
    /\ pitch_mean (euler (stats r)) = nan
    /\ pitch_std (euler (stats r)) = nan
    /\ pitch_range (euler (stats r)) = nan.
Proof.
  destruct (nan_spoils_the_statistics_of_its_column Fixtures.taylor_libm
              Fixtures.tenth [Fixtures.not_a_number; Fixtures.tenth]
              "climbing"%string
              Fixtures.not_a_number (or_intror (or_introl eq_refl)))
    as [r [Hr [Hp _]]].
  exists r. split; [exact Hr | exact (Hp eq_refl)].
Defined.

Lemma nan_angle_spoils_the_quaternion_statistics_witness :
  exists r rows,
    analyze_scenario (N := float_num Fixtures.taylor_libm)
      (init (N := float_num Fixtures.taylor_libm))
      Cases.lost_heading "rolling"%string = Ok r
    /\ quaternions r = Np.Arr2 rows
    /\ In [nan; nan; nan; nan] rows
    /\ w_std (quaternion (stats r)) = nan
    /\ x_std (quaternion (stats r)) = nan
    /\ y_std (quaternion (stats r)) = nan
    /\ z_std (quaternion (stats r)) = nan.
Proof.
  apply (nan_angle_spoils_the_quaternion_statistics Fixtures.taylor_libm
           Fixtures.tenth [Cases.no_heading] "rolling"%string Cases.no_heading).
  - right. left. reflexivity.
  - right. right. reflexivity.
Defined.

Lemma short_line_spoils_the_yaw_rate_statistics_witness :
  exists table r,
    Parser.parse_lines Fixtures.decimal_float (readlines Cases.ragged_file)
      = Ok table
    /\ analyze_scenario (N := float_num Fixtures.taylor_libm)
         (init (N := float_num Fixtures.taylor_libm)) table "rolling"%string
       = Ok r
    /\ R_max (rates (stats r)) = nan
    /\ R_mean (rates (stats r)) = nan.
Proof.
  apply (short_line_spoils_the_yaw_rate_statistics Fixtures.taylor_libm
           Fixtures.decimal_float (readlines Cases.ragged_file)
           [Cases.first_values; Cases.short_values] Cases.short_values
           "rolling"%string).
  - apply Forall2_cons; [vm_compute; reflexivity|].
    apply Forall2_cons; [vm_compute; reflexivity | apply Forall2_nil].
  - intros r [<- | [<- | []]]; vm_compute; lia.
  - exists Cases.first_values. split; [now left | reflexivity].
  - right. left. reflexivity.
  - vm_compute. lia.
Defined.

End NanFacts.

(* ================================================================== *)
(** * The statistics in exact arithmetic *)
(* ================================================================== *)

Module FloatStatistics.
Import Py Analyzer Closed FloatOrder.
Local Open Scope float_scope.

Section WithLibm.
Variable L : Libm.

Lemma in_map_cons {A : Type} (f : A -> float) (s : A) (rest : list A)
    (v : float) :
  In v (f s :: map f rest) -> exists a, In a (s :: rest) /\ f a = v.
Proof.
  intros H. change (In v (map f (s :: rest))) in H.
  apply in_map_iff in H. destruct H as [a [Ha Hin]]. now exists a.
Qed.

Lemma analyzed_is_not_empty (data : DataFrame float) (name : string)
    (r : Results float) :
  analyze_scenario (N := float_num L) (init (N := float_num L)) data name
    = Ok r ->
  exists s rest, data = s :: rest
    /\ r = analysis (N := float_num L) (init (N := float_num L)) s rest name.
Proof.
  destruct data as [|s rest]; intros H.
  - rewrite AnalyzerFacts.analyze_scenario_nil in H. discriminate H.
  - rewrite AnalyzerFacts.analyze_scenario_cons in H. injection H as <-.
    now exists s, rest.
Qed.

Lemma column_not_nan {A : Type} (f : A -> float) (s : A) (rest : list A) :
  (forall a, In a (s :: rest) -> is_nan (f a) = false) ->
  is_nan (f s) = false /\ Forall (fun y => is_nan y = false) (map f rest).
Proof.
  intros H. split; [apply H; now left|].
  apply Forall_forall. intros y Hy. apply in_map_iff in Hy.
  destruct Hy as [a [<- Ha]]. apply H. now right.
Qed.

Lemma max_abs_attained (col : Sample float -> float) (s : Sample float)
    (rest : list (Sample float)) :
  (forall row, In row (s :: rest) -> is_nan (col row) = false) ->
  (exists row, In row (s :: rest)
     /\ max_abs (N := float_num L) (col s) (map col rest) = abs (col row))
  /\ forall row, In row (s :: rest) ->
       (abs (col row) <=? max_abs (N := float_num L) (col s) (map col rest))
       = true.
Proof.
  intros Hn. unfold max_abs. cbn [fmax fabs float_num]. rewrite map_map.
  destruct (column_not_nan (fun a => abs (col a)) s rest) as [H0 Hl].
  { intros a Ha. apply abs_not_nan. now apply Hn. }
  destruct (fold_maximum _ _ H0 Hl) as [Hin Hb]. split.
  - destruct (in_map_cons (fun a => abs (col a)) s rest _ Hin) as [a [Ha Hv]].
    exists a. split; [exact Ha | now rewrite Hv].
  - intros row Hrow. apply Hb.
    exact (in_map (fun a => abs (col a)) (s :: rest) row Hrow).
Qed.

Lemma range_of_spec (col : Sample float -> float) (s : Sample float)
    (rest : list (Sample float)) :
  (forall row, In row (s :: rest) -> is_nan (col row) = false) ->
  exists hi lo, In hi (s :: rest) /\ In lo (s :: rest)
    /\ (forall row, In row (s :: rest) ->
          (col lo <=? col row) = true /\ (col row <=? col hi) = true)
    /\ range_of (N := float_num L) (col s) (map col rest) = col hi - col lo.
Proof.
  intros Hn. unfold range_of. cbn [fmax fmin fsub float_num].
  destruct (column_not_nan col s rest Hn) as [H0 Hl].
  destruct (fold_maximum _ _ H0 Hl) as [Hmi Hmb].
  destruct (fold_minimum _ _ H0 Hl) as [Hni Hnb].
  destruct (in_map_cons col s rest _ Hmi) as [hi [Hhi Hmax]].
  destruct (in_map_cons col s rest _ Hni) as [lo [Hlo Hmin]].
  exists hi, lo. split; [exact Hhi|]. split; [exact Hlo|]. split.
  - intros row Hrow. rewrite Hmin, Hmax. split.
    + apply Hnb. exact (in_map col (s :: rest) row Hrow).
    + apply Hmb. exact (in_map col (s :: rest) row Hrow).
  - now rewrite Hmax, Hmin.
Qed.

End WithLibm.

(** X12: on binary64, whenever the analysis returns, each of [P_max],
    [Q_max] and [R_max] whose column holds no NaN is the absolute value of
    that rate in some row of the table, and no row has a larger one. *)
Theorem rate_maxima_bound_every_sample (L : Libm) (data : DataFrame float)
    (name : string) (r : Results float) :
  analyze_scenario (N := float_num L) (init (N := float_num L)) data name
    = Ok r ->
  Forall (fun '(rate, maximum) =>
            (forall row, In row data -> is_nan (rate row) = false) ->
            (exists row, In row data
               /\ maximum (rates (stats r)) = abs (rate row))
            /\ forall row, In row data ->
                 (abs (rate row) <=? maximum (rates (stats r))) = true)
         [(P, P_max); (Q, Q_max); (Analyzer.R, R_max)].
Proof.
  intros H. destruct (analyzed_is_not_empty L data name r H) as [s [rest [-> ->]]].
  repeat (apply Forall_cons; [apply max_abs_attained|]). apply Forall_nil.
Qed.

(** X13: on binary64, whenever the analysis returns, each of the three
    ranges whose column holds no NaN is the difference, as doubles are
    subtracted, between the angle in a row where it is largest and the
    angle in a row where it is smallest: two rows of the table bound the
    angle of every row, and the range is the difference of their angles. *)
Theorem range_is_the_largest_difference (L : Libm) (data : DataFrame float)
    (name : string) (r : Results float) :
  analyze_scenario (N := float_num L) (init (N := float_num L)) data name
    = Ok r ->
  Forall (fun '(angle, range) =>
            (forall row, In row data -> is_nan (angle row) = false) ->
            exists hi lo, In hi data /\ In lo data
              /\ (forall row, In row data ->
                    (angle lo <=? angle row) = true
                    /\ (angle row <=? angle hi) = true)
              /\ range (euler (stats r)) = angle hi - angle lo)
         [(pitch, pitch_range); (roll, roll_range);
          (heading_true, heading_range)].
Proof.
  intros H. destruct (analyzed_is_not_empty L data name r H) as [s [rest [-> ->]]].
  repeat (apply Forall_cons; [apply range_of_spec|]). apply Forall_nil.
Qed.

Lemma rate_maxima_bound_every_sample_witness :
  exists r,
    analyze_scenario (N := float_num Fixtures.taylor_libm)
      (init (N := float_num Fixtures.taylor_libm)) Fixtures.four_rows "climbing"
      = Ok r
    /\ Q_max (rates (stats r)) = 0.5.
Proof.
  pose proof (AnalyzerFacts.analyze_scenario_cons
                (N := float_num Fixtures.taylor_libm)
                (init (N := float_num Fixtures.taylor_libm))
                (mkSample 0 1 90 0 0 0 0.5 (-0.5) 0)
                (map (fun p => mkSample p 1 90 0 0 0 0.5 (-0.5) 0) [10; -10; 5])
                "climbing") as Hr.
  eexists. split; [exact Hr|].
  pose proof (rate_maxima_bound_every_sample _ _ _ _ Hr) as H.
  apply Forall_inv_tail, Forall_inv in H.
  destruct H as [[row [Hin Heq]] _].
  - intros row Hin.
    destruct Hin as [<- | [<- | [<- | [<- | []]]]]; reflexivity.
  - rewrite Heq.
    destruct Hin as [<- | [<- | [<- | [<- | []]]]]; reflexivity.
Defined.

Lemma range_is_the_largest_difference_witness :
  exists r,
    analyze_scenario (N := float_num Fixtures.taylor_libm)
      (init (N := float_num Fixtures.taylor_libm)) Fixtures.four_rows "climbing"
      = Ok r
    /\ pitch_range (euler (stats r)) = 20.
Proof.
  pose proof (AnalyzerFacts.analyze_scenario_cons
                (N := float_num Fixtures.taylor_libm)
                (init (N := float_num Fixtures.taylor_libm))
                (mkSample 0 1 90 0 0 0 0.5 (-0.5) 0)
                (map (fun p => mkSample p 1 90 0 0 0 0.5 (-0.5) 0) [10; -10; 5])
                "climbing") as Hr.
  eexists. split; [exact Hr|].
  pose proof (range_is_the_largest_difference _ _ _ _ Hr) as H.
  apply Forall_inv in H.
  destruct H as [hi [lo [Hhi [Hlo [Hb Heq]]]]].
  - intros row Hin.
    destruct Hin as [<- | [<- | [<- | [<- | []]]]]; reflexivity.
  - pose proof (proj2 (Hb _ (or_intror (or_introl eq_refl)))) as H10.
    pose proof (proj1 (Hb _ (or_intror (or_intror (or_introl eq_refl))))) as Hm10.
    rewrite Heq. clear Heq Hb.
    destruct Hhi as [<- | [<- | [<- | [<- | []]]]];
      try (vm_compute in H10; discriminate H10);
      destruct Hlo as [<- | [<- | [<- | [<- | []]]]];
      try (vm_compute in Hm10; discriminate Hm10);
      reflexivity.
Defined.

End FloatStatistics.

(* ================================================================== *)
(** * Properties of [plot_scenario] *)
(* ================================================================== *)

Module PlotFacts.
Import Py Analyzer Closed Plot.
Local Open Scope string_scope.

Section Generic.
Context {F : Type} {N : Num F}.

Lemma plot_same_length (x y : list F) (lbl col : string) :
  List.length x = List.length y ->
  plot x y lbl col = Ok {| xdata := x; ydata := y; label := lbl; color := col |}.
Proof. intros H. unfold plot. now rewrite H, Nat.eqb_refl. Qed.

Lemma time_axis_length (self : FlightScenarioAnalyzer F)
    (data : DataFrame F) :
  List.length (time_axis self data) = List.length data.
Proof. unfold time_axis, Np.arange. now rewrite !length_map, length_seq. Qed.

Local Abbreviation line_of time col lbl c :=
  {| xdata := time; ydata := col; label := lbl; color := c |}.

(** The figure drawn from the results of an analysis, in closed form. *)
Lemma figure_of_analysis (self : FlightScenarioAnalyzer F) (s : Sample F)
    (rest : list (Sample F)) (name : string) :
  let data := s :: rest in
  let t := time_axis self data in
  plot_scenario (analysis self s rest name)
  = Ok {| figsize := (15, 12)%nat;
          suptitle := "Flight Analysis: " ++ title name;
          suptitle_size := 14;
          axes :=
            [ {| subplot := 311;
                 lines := [line_of t (map pitch data) "Pitch" "blue";
                           line_of t (map roll data) "Roll" "red";
                           line_of t (map heading_true data) "Heading" "green"];
                 ax_title := "Euler Angles"; xlabel := "Time (s)";
                 ylabel := "Degrees"; grid := true;
                 legend := ["Pitch"; "Roll"; "Heading"] |};
              {| subplot := 312;
                 lines :=
                   [line_of t (map (fun r => Rotation.qx (rotation_of r)) data)
                            "w" "purple";
                    line_of t (map (fun r => Rotation.qy (rotation_of r)) data)
                            "x" "orange";
                    line_of t (map (fun r => Rotation.qz (rotation_of r)) data)
                            "y" "brown";
                    line_of t (map (fun r => Rotation.qw (rotation_of r)) data)
                            "z" "pink"];
                 ax_title := "Quaternion Components"; xlabel := "Time (s)";
                 ylabel := "Component Value"; grid := true;
                 legend := ["w"; "x"; "y"; "z"] |};
              {| subplot := 313;
                 lines := [line_of t (map P data) "P (Roll Rate)" "red";
                           line_of t (map Q data) "Q (Pitch Rate)" "blue";
                           line_of t (map R data) "R (Yaw Rate)" "green"];
                 ax_title := "Angular Rates"; xlabel := "Time (s)";
                 ylabel := "Degrees/s"; grid := true;
                 legend := ["P (Roll Rate)"; "Q (Pitch Rate)"; "R (Yaw Rate)"] |} ]
       |}.
Proof.
  intros data t. unfold plot_scenario, panel.
  cbn [analysis time euler_data quaternions angular_rates scenario mapM].
  fold data. fold t.
  rewrite (AnalyzerFacts.column_map
             (fun row => [pitch row; roll row; heading_true row]) pitch 0)
    by reflexivity.
  rewrite (AnalyzerFacts.column_map
             (fun row => [pitch row; roll row; heading_true row]) roll 1)
    by reflexivity.
  rewrite (AnalyzerFacts.column_map
             (fun row => [pitch row; roll row; heading_true row]) heading_true 2)
    by reflexivity.
  rewrite (AnalyzerFacts.column_map (fun row => [P row; Q row; R row]) P 0)
    by reflexivity.
  rewrite (AnalyzerFacts.column_map (fun row => [P row; Q row; R row]) Q 1)
    by reflexivity.
  rewrite (AnalyzerFacts.column_map (fun row => [P row; Q row; R row]) R 2)
    by reflexivity.
  rewrite (AnalyzerFacts.column_map quat_row
             (fun r => Rotation.qx (rotation_of r)) 0) by reflexivity.
  rewrite (AnalyzerFacts.column_map quat_row
             (fun r => Rotation.qy (rotation_of r)) 1) by reflexivity.
  rewrite (AnalyzerFacts.column_map quat_row
             (fun r => Rotation.qz (rotation_of r)) 2) by reflexivity.
  rewrite (AnalyzerFacts.column_map quat_row
             (fun r => Rotation.qw (rotation_of r)) 3) by reflexivity.
  cbn [bind].
  rewrite !plot_same_length
    by (unfold t; now rewrite time_axis_length, length_map).
  reflexivity.
Qed.

(** X15: the figure [plot_scenario] asks matplotlib to draw.  Whenever
    the analysis of a table returns and [plot_scenario] returns a figure for
    its results, the figure has size 15 by 12, is titled after the scenario
    and has three panels at positions 311, 312 and 313; each panel has its
    grid on, the time label on its abscissa and one legend entry per series,
    and every series is drawn against the time axis of the results with one
    point per row of the table. *)
Theorem plotted_figure_layout (self : FlightScenarioAnalyzer F)
    (data : DataFrame F) (name : string) (r : Results F) (fig : Figure F) :
  analyze_scenario self data name = Ok r ->
  plot_scenario r = Ok fig ->
  figsize fig = (15, 12)%nat
  /\ suptitle fig = "Flight Analysis: " ++ title name
  /\ map subplot (axes fig) = [311; 312; 313]%nat
  /\ map ax_title (axes fig)
     = ["Euler Angles"; "Quaternion Components"; "Angular Rates"]
  /\ map legend (axes fig)
     = [["Pitch"; "Roll"; "Heading"]; ["w"; "x"; "y"; "z"];
        ["P (Roll Rate)"; "Q (Pitch Rate)"; "R (Yaw Rate)"]]
  /\ Forall (fun ax =>
               grid ax = true
               /\ xlabel ax = "Time (s)"
               /\ legend ax = map label (lines ax)
               /\ Forall (fun l =>
                            xdata l = time r
                            /\ List.length (ydata l) = List.length data)
                         (lines ax))
            (axes fig).
Proof.
  intros Han Hplot. destruct data as [|s rest].
  - rewrite AnalyzerFacts.analyze_scenario_nil in Han. discriminate Han.
  - rewrite AnalyzerFacts.analyze_scenario_cons in Han. injection Han as <-.
    pose proof (figure_of_analysis self s rest name) as Hfig.
    cbv zeta in Hfig. rewrite Hfig in Hplot. injection Hplot as <-.
    cbn [figsize suptitle axes map subplot ax_title legend].
    repeat (split; [reflexivity|]).
    repeat (apply Forall_cons;
            [cbn [grid xlabel legend lines map label];
             repeat (split; [reflexivity|]);
             repeat (apply Forall_cons;
                     [split; [reflexivity
                             | cbn [ydata List.length]; now rewrite length_map]|]);
             apply Forall_nil|]).
    apply Forall_nil.
Qed.

(** X16: what each labelled series of the figure carries.  The series of
    the first panel are the pitch, roll and true heading columns and those
    of the third the [P], [Q] and [R] columns; in the second panel the
    series labelled [w] carries the x component of the rotations, [x] the y
    component, [y] the z component and [z] the scalar part. *)
Theorem plotted_series_by_label (self : FlightScenarioAnalyzer F)
    (s : Sample F) (rest : list (Sample F)) (name : string) :
  exists r fig,
    analyze_scenario self (s :: rest) name = Ok r
    /\ plot_scenario r = Ok fig
    /\ map (fun ax => map (fun l => (label l, ydata l)) (lines ax)) (axes fig)
       = [ [("Pitch", map pitch (s :: rest)); ("Roll", map roll (s :: rest));
            ("Heading", map heading_true (s :: rest))];
           [("w", map (fun row => Rotation.qx (rotation_of row)) (s :: rest));
            ("x", map (fun row => Rotation.qy (rotation_of row)) (s :: rest));
            ("y", map (fun row => Rotation.qz (rotation_of row)) (s :: rest));
            ("z", map (fun row => Rotation.qw (rotation_of row)) (s :: rest))];
           [("P (Roll Rate)", map P (s :: rest));
            ("Q (Pitch Rate)", map Q (s :: rest));
            ("R (Yaw Rate)", map R (s :: rest))] ].
Proof.
  rewrite AnalyzerFacts.analyze_scenario_cons.
  eexists. eexists. split; [reflexivity|].
  split; [apply figure_of_analysis|]. reflexivity.
Qed.

End Generic.

Lemma plotted_figure_layout_witness :
  exists r fig,
    analyze_scenario (N := float_num Fixtures.taylor_libm)
      (init (N := float_num Fixtures.taylor_libm)) Cases.three_samples
      "cruising" = Ok r
    /\ plot_scenario r = Ok fig
    /\ figsize fig = (15, 12)%nat
    /\ suptitle fig = "Flight Analysis: Cruising"
    /\ map subplot (axes fig) = [311; 312; 313]%nat.
Proof.
  pose proof (AnalyzerFacts.analyze_scenario_cons
                (N := float_num Fixtures.taylor_libm)
                (init (N := float_num Fixtures.taylor_libm))
                (mkSample 2.5 (-1) 90 88.5 1.5 89 0.125 (-0.25) 0)%float
                [mkSample 3 (-1.5) 91 89.5 1.5 90 0.25 (-0.5) 0;
                 mkSample 3.5 (-2) 92 90.5 1.5 91 0.5 (-0.75) 0]%float
                "cruising") as Hr.
  pose proof (figure_of_analysis
                (N := float_num Fixtures.taylor_libm)
                (init (N := float_num Fixtures.taylor_libm))
                (mkSample 2.5 (-1) 90 88.5 1.5 89 0.125 (-0.25) 0)%float
                [mkSample 3 (-1.5) 91 89.5 1.5 90 0.25 (-0.5) 0;
                 mkSample 3.5 (-2) 92 90.5 1.5 91 0.5 (-0.75) 0]%float
                "cruising") as Hf.
  cbv zeta in Hf.
  eexists. eexists. split; [exact Hr|]. split; [exact Hf|].
  destruct (plotted_figure_layout _ _ _ _ _ Hr Hf) as (H1 & H2 & H3 & _).
  split; [exact H1|]. split; [exact H2 | exact H3].
Defined.

End PlotFacts.

(* ================================================================== *)
(** * More on [main] *)
(* ================================================================== *)

Module DriverMore.
Import Py Driver DriverFacts.
Local Open Scope string_scope.

Lemma get_set {V : Type} (d : list (string * V)) (k k' : string) (v : V) :
  Dict.get (dict_set d k v) k'
  = if String.eqb k k' then Some v else Dict.get d k'.
Proof.
  induction d as [|[k0 v0] d IH]; simpl.
  - reflexivity.
  - destruct (String.eqb k0 k) eqn:E0; simpl.
    + apply String.eqb_eq in E0. subst k0. now destruct (String.eqb k k').
    + destruct (String.eqb k0 k') eqn:E1.
      * apply String.eqb_eq in E1. subst k0.
        rewrite String.eqb_sym in E0. now rewrite E0.
      * exact IH.
Qed.

Section Turns.
Variable L : Libm.
Variable py_float : string -> option float.
Variable open_read : string -> result string.
Variable format_6f : float -> string.
Variable plot_and_save : Analyzer.Results float -> string -> result unit.

Local Abbreviation analyzer := (Analyzer.init (N := float_num L)).
Local Abbreviation read := (Parser.read_xplane_data py_float open_read).
Local Abbreviation analyze :=
  (Analyzer.analyze_scenario (N := float_num L) analyzer).
Local Abbreviation turn_ :=
  (turn L py_float open_read format_6f plot_and_save analyzer).
Local Abbreviation for_each_ :=
  (for_each L py_float open_read format_6f plot_and_save analyzer).

(** The scenario's turn runs to the end of the [try] body. *)
Local Abbreviation completes s p r :=
  (exists data, read p = Ok data /\ analyze data s = Ok r
     /\ plot_and_save r (s ++ "_analysis.png") = Ok tt).

(** X17: whatever exception the reading of a scenario's file raises, the
    turn of the loop catches it: it prints the announcement and one more
    line, the missing-file warning for a [FileNotFoundError] and otherwise
    [Error analyzing <scenario>: ] followed by the text of the exception;
    no statistics are printed and the dictionary of results is left as it
    was. *)
Theorem failure_to_read_is_reported_with_its_message (all : results_dict)
    (s p : string) (e : exn) (out : list string) :
  read p = Raise e ->
  turn_ all s p out
  = ((out ++ [announce s;
              if is_FileNotFoundError e then warning s
              else ("Error analyzing " ++ s ++ ": " ++ str_exn e)%string])%list,
     Ok all).
Proof.
  intros Hread. unfold turn, try_except, attempt, handler.
  unfold iobind, print, lift, ret. rewrite Hread.
  destruct (is_FileNotFoundError e); now rewrite <- app_assoc.
Qed.

(** X18: when plotting or saving raises, the statistics have already been
    printed: the turn prints the announcement, the whole report and then
    the line for the exception, which is the missing-data-file warning if
    matplotlib raised a [FileNotFoundError], and the results are not stored
    in the dictionary. *)
Theorem plot_failure_is_reported_after_the_statistics (all : results_dict)
    (s p : string) (data : Analyzer.DataFrame float)
    (r : Analyzer.Results float) (e : exn) (out : list string) :
  read p = Ok data ->
  analyze data s = Ok r ->
  plot_and_save r (s ++ "_analysis.png") = Raise e ->
  turn_ all s p out
  = ((out ++ announce s :: report format_6f s r
          ++ [if is_FileNotFoundError e then warning s else error_line s e])%list,
     Ok all).
Proof.
  intros Hread Han Hplot. unfold turn, try_except, attempt, handler.
  unfold iobind, print, lift, ret. rewrite Hread, Han, print_all_out, Hplot.
  destruct (is_FileNotFoundError e);
    now rewrite <- !app_assoc.
Qed.

Lemma turn_dict (all : results_dict) (s p : string) (out : list string) :
  exists out' all',
    turn_ all s p out = (out', Ok all')
    /\ ((exists r, completes s p r /\ all' = dict_set all s r)
        \/ ((forall r, ~ completes s p r) /\ all' = all)).
Proof.
  unfold turn, try_except, attempt, handler.
  unfold iobind, print, lift, ret.
  destruct (read p) as [data|e] eqn:Hread.
  - destruct (analyze data s) as [r|e] eqn:Han.
    + rewrite print_all_out.
      destruct (plot_and_save r (s ++ "_analysis.png")) as [[]|e] eqn:Hplot.
      * eexists _, _. split; [reflexivity|]. left. exists r.
        split; [|reflexivity]. exists data. auto.
      * destruct (is_FileNotFoundError e);
          (eexists _, _; split; [reflexivity|]; right; split; [|reflexivity];
           intros r' [d [Hd [Ha Hp]]]; congruence).
    + destruct (is_FileNotFoundError e);
        (eexists _, _; split; [reflexivity|]; right; split; [|reflexivity];
         intros r' [d [Hd [Ha Hp]]]; congruence).
  - destruct (is_FileNotFoundError e);
      (eexists _, _; split; [reflexivity|]; right; split; [|reflexivity];
       intros r' [d [Hd _]]; congruence).
Qed.

Lemma completes_once (s p : string) (r r' : Analyzer.Results float) :
  completes s p r -> completes s p r' -> r = r'.
Proof. intros [d [Hd [Ha _]]] [d' [Hd' [Ha' _]]]. congruence. Qed.

Lemma for_each_dict (items : list (string * string)) (all : results_dict)
    (out : list string) :
  NoDup (map fst items) ->
  (forall s, In s (map fst items) -> Dict.get all s = None) ->
  exists out' all',
    for_each_ items all out = (out', Ok all')
    /\ forall s r,
         Dict.get all' s = Some r
         <-> Dict.get all s = Some r
             \/ exists p, In (s, p) items /\ completes s p r.
Proof.
  revert all out. induction items as [|[s p] items IH]; intros all out Hnd Hfresh.
  - exists out, all. split; [reflexivity|]. intros s r. split; [now left|].
    intros [H | [p [[] _]]]. exact H.
  - cbn [for_each]. unfold iobind.
    destruct (turn_dict all s p out) as [out1 [all1 [Hturn Hall1]]].
    rewrite Hturn. cbn [map fst] in Hnd, Hfresh.
    apply NoDup_cons_iff in Hnd. destruct Hnd as [Hs Hnd].
    assert (Hget : forall s', s' <> s -> Dict.get all1 s' = Dict.get all s').
    { intros s' Hne. destruct Hall1 as [[r [_ ->]] | [_ ->]]; [|reflexivity].
      rewrite get_set. destruct (String.eqb s s') eqn:E; [|reflexivity].
      apply String.eqb_eq in E. congruence. }
    destruct (IH all1 out1 Hnd) as [out' [all' [Hrest Hiff]]].
    { intros s' Hs'. rewrite Hget; [apply Hfresh; now right|].
      intros ->. contradiction. }
    exists out', all'. split; [exact Hrest|].
    intros s' r'. rewrite Hiff. split.
    + intros [H1 | [p' [Hin Hc]]].
      * destruct (String.eqb s s') eqn:E.
        -- apply String.eqb_eq in E. subst s'. right. exists p.
           split; [now left|].
           destruct Hall1 as [[r [Hc ->]] | [_ ->]].
           ++ rewrite get_set, String.eqb_refl in H1. now injection H1 as <-.
           ++ rewrite (Hfresh s (or_introl eq_refl)) in H1. discriminate H1.
        -- apply String.eqb_neq in E. left. rewrite <- Hget; auto.
      * right. exists p'. split; [now right | exact Hc].
    + intros [H0 | [p' [[Heq | Hin] Hc]]].
      * left. rewrite Hget; [exact H0|]. intros ->.
        rewrite (Hfresh s (or_introl eq_refl)) in H0. discriminate H0.
      * injection Heq as <- <-. left.
        destruct Hall1 as [[r [Hc' ->]] | [Hno _]].
        -- rewrite get_set, String.eqb_refl. f_equal.
           exact (completes_once s p r r' Hc' Hc).
        -- destruct (Hno r' Hc).
      * right. now exists p'.
Qed.

(** X19: [main] never raises, and the dictionary it has filled when it
    ends holds exactly the scenarios that went through: a scenario maps to
    results if and only if it is one of the four, its file was read, the
    table was analyzed into these results, and the figure was drawn and
    saved.  A scenario that failed at any step is absent. *)
Theorem main_keeps_exactly_the_completed_scenarios :
  exists out all_results,
    main L py_float open_read format_6f plot_and_save [] = (out, Ok all_results)
    /\ forall s r,
         Dict.get all_results s = Some r
         <-> exists p data,
               In (s, p) scenario_files
               /\ read p = Ok data
               /\ analyze data s = Ok r
               /\ plot_and_save r (s ++ "_analysis.png") = Ok tt.
Proof.
  destruct (for_each_dict scenario_files [] []) as [out [all [Hrun Hiff]]].
  - unfold scenario_files. cbn [map fst].
    repeat (apply NoDup_cons; [cbn [In]; intuition discriminate|]).
    apply NoDup_nil.
  - reflexivity.
  - exists out, all. split; [exact Hrun|]. intros s r. rewrite Hiff. split.
    + intros [H | [p [Hin [data Hc]]]]; [discriminate H|]. now exists p, data.
    + intros [p [data [Hin Hc]]]. right. exists p. split; [exact Hin|].
      now exists data.
Qed.

(** X20: a file that reads into a table with at least one row is analyzed
    whatever numbers it holds; if plotting and saving its results then
    succeeds, the turn prints the announcement followed by the report of 23
    lines and nothing else, and the results are stored under the scenario's
    name. *)
Theorem readable_table_is_reported_and_kept (all : results_dict)
    (s p : string) (first : Analyzer.Sample float)
    (rest : list (Analyzer.Sample float)) (out : list string) :
  read p = Ok (first :: rest) ->
  (forall r, analyze (first :: rest) s = Ok r ->
             plot_and_save r (s ++ "_analysis.png") = Ok tt) ->
  exists r,
    analyze (first :: rest) s = Ok r
    /\ turn_ all s p out
       = ((out ++ announce s :: report format_6f s r)%list,
          Ok (dict_set all s r))
    /\ List.length (report format_6f s r) = 23%nat.
Proof.
  intros Hread Hsave.
  pose proof (AnalyzerFacts.analyze_scenario_cons (N := float_num L)
                (Analyzer.init (N := float_num L)) first rest s) as Han.
  eexists. split; [exact Han|]. split; [|reflexivity].
  unfold turn, try_except, attempt, handler.
  unfold iobind, print, lift, ret. rewrite Hread, Han, print_all_out.
  rewrite (Hsave _ Han). now rewrite <- app_assoc.
Qed.

End Turns.


Lemma failure_to_read_is_reported_with_its_message_witness :
  turn Fixtures.taylor_libm Fixtures.decimal_float
    (Fixtures.files [("rolling_data.txt", Cases.malformed_file)])
    Cases.format_zero (fun _ _ => Ok tt)
    (Analyzer.init (N := float_num Fixtures.taylor_libm))
    [] "rolling" "rolling_data.txt" []
  = ([announce "rolling";
      "Error analyzing rolling: could not convert string to float: 'n/a'"],
     Ok []).
Proof.
  apply (failure_to_read_is_reported_with_its_message
           Fixtures.taylor_libm Fixtures.decimal_float
           (Fixtures.files [("rolling_data.txt", Cases.malformed_file)])
           Cases.format_zero (fun _ _ => Ok tt)
           [] "rolling" "rolling_data.txt"
           (ValueError "could not convert string to float: 'n/a'") []).
  vm_compute. reflexivity.
Defined.

Lemma plot_failure_is_reported_after_the_statistics_witness :
  exists r,
    turn Fixtures.taylor_libm Fixtures.decimal_float
      (Fixtures.files [("cruising_data.txt", Fixtures.three_line_file)])
      Cases.format_zero Cases.no_directory
      (Analyzer.init (N := float_num Fixtures.taylor_libm))
      [] "cruising" "cruising_data.txt" []
    = ((announce "cruising"
        :: report Cases.format_zero "cruising" r
        ++ [warning "cruising"])%list,
       Ok []).
Proof.
  destruct (Analyzer.analyze_scenario (N := float_num Fixtures.taylor_libm)
              (Analyzer.init (N := float_num Fixtures.taylor_libm))
              Cases.three_samples "cruising") as [r|e] eqn:Hr;
    [|vm_compute in Hr; discriminate Hr].
  exists r.
  apply (plot_failure_is_reported_after_the_statistics
           Fixtures.taylor_libm Fixtures.decimal_float
           (Fixtures.files [("cruising_data.txt", Fixtures.three_line_file)])
           Cases.format_zero Cases.no_directory
           [] "cruising" "cruising_data.txt" Cases.three_samples r
           (FileNotFoundError
              "[Errno 2] No such file or directory: 'cruising_analysis.png'") []).
  - vm_compute. reflexivity.
  - exact Hr.
  - reflexivity.
Defined.

Lemma readable_table_is_reported_and_kept_witness :
  exists r,
    Analyzer.analyze_scenario (N := float_num Fixtures.taylor_libm)
      (Analyzer.init (N := float_num Fixtures.taylor_libm))
      Cases.three_samples "cruising" = Ok r
    /\ turn Fixtures.taylor_libm Fixtures.decimal_float
         (Fixtures.files [("cruising_data.txt", Fixtures.three_line_file)])
         Cases.format_zero (Plot.plot_and_save Cases.savefig_ok)
         (Analyzer.init (N := float_num Fixtures.taylor_libm))
         [] "cruising" "cruising_data.txt" []
       = (([] ++ announce "cruising"
              :: report Cases.format_zero "cruising" r)%list,
          Ok (dict_set [] "cruising" r))
    /\ List.length (report Cases.format_zero "cruising" r) = 23%nat.
Proof.
  apply (readable_table_is_reported_and_kept
           Fixtures.taylor_libm Fixtures.decimal_float
           (Fixtures.files [("cruising_data.txt", Fixtures.three_line_file)])
           Cases.format_zero (Plot.plot_and_save Cases.savefig_ok)
           [] "cruising" "cruising_data.txt" _ _ []).
  - vm_compute. reflexivity.
  - intros r Hr.
    rewrite AnalyzerFacts.analyze_scenario_cons in Hr. injection Hr as <-.
    unfold Plot.plot_and_save.
    rewrite (PlotFacts.figure_of_analysis (N := float_num Fixtures.taylor_libm)).
    reflexivity.
Defined.

End DriverMore.
